(** * Monitor-the-Situation: the geo-tagging and classification core

    A shallow embedding of the Python back end
    ([backend/processors/geo_tagger.py], [backend/scrapers/*.py],
    [backend/api/main.py]) and the properties of its specification.

    Conventions of the embedding:
    - a Python [str] is a list of Unicode code points ([list N]);
    - a Python [float] is the rational number it denotes ([Q], always in
      lowest terms), decimal literals being rounded to binary64;
    - a JSON dictionary is a [gmap string json];
    - the outside world (geocoder, HTTP mirrors, clock) is an oracle that
      is given the history of the calls made so far. *)

From Stdlib Require Import ZArith NArith QArith Qround List String Ascii Bool Lia.
From Stdlib Require Import Permutation Sorted.
From stdpp Require Import base option list strings gmap.

Import ListNotations.
Local Open Scope Z_scope.
Local Open Scope list_scope.

(** ** Python strings *)

(** A [str] is a sequence of code points. *)
Definition str := list N.

(** The code points of an ASCII literal of the source. *)
Definition py (s : string) : str :=
  map (fun a => N_of_ascii a) (list_ascii_of_string s).

Definition str_eqb (a b : str) : bool := bool_decide (a = b).

(** [startswith s p]: [s.startswith(p)]. *)
Fixpoint startswith (s p : str) {struct p} : bool :=
  match p, s with
  | [], _ => true
  | _ :: _, [] => false
  | c :: p', d :: s' => N.eqb c d && startswith s' p'
  end.

(** [contains kw s]: the Python test [kw in s] on two strings. *)
Fixpoint contains (kw s : str) : bool :=
  startswith s kw ||
  match s with
  | [] => false
  | _ :: s' => contains kw s'
  end.

(** ** The Unicode tables Python consults

    [str.lower], [str.upper], [str.strip], the classes [\d] and [\s] of
    [re] and the digits accepted by [int] and [float] all depend on the
    Unicode character database of the interpreter.  The development takes
    that database as a parameter. *)
Class Unicode := {
  str_lower : str -> str;          (* s.lower() *)
  str_upper : str -> str;          (* s.upper() *)
  digit_value : N -> option N;     (* Some v for a code point of class \d *)
  is_space : N -> bool             (* class \s, str.isspace *)
}.

(** The database restricted to ASCII: every other code point is caseless,
    no digit and no space.  It gives Python's answers on ASCII text. *)
Definition ascii_lower_cp (c : N) : N :=
  if (65 <=? c)%N && (c <=? 90)%N then (c + 32)%N else c.
Definition ascii_upper_cp (c : N) : N :=
  if (97 <=? c)%N && (c <=? 122)%N then (c - 32)%N else c.
Definition ascii_digit (c : N) : option N :=
  if (48 <=? c)%N && (c <=? 57)%N then Some (c - 48)%N else None.
Definition ascii_space (c : N) : bool :=
  ((9 <=? c)%N && (c <=? 13)%N) || ((28 <=? c)%N && (c <=? 32)%N).

Definition ascii_db : Unicode := {|
  str_lower := map ascii_lower_cp;
  str_upper := map ascii_upper_cp;
  digit_value := ascii_digit;
  is_space := ascii_space
|}.

(** [U] answers on the text [s] as the ASCII tables do.  This holds of
    Python's database for every ASCII text, and for every text whose other
    code points are caseless symbols. *)
Definition same_class (U : Unicode) (c : N) : Prop :=
  @digit_value U c = ascii_digit c /\ @is_space U c = ascii_space c.

Definition ascii_like (U : Unicode) (s : str) : Prop :=
  @str_lower U s = map ascii_lower_cp s /\ Forall (same_class U) s.

(** ** Classification engine ([geo_tagger.py]) *)

Definition CATEGORY_KEYWORDS : list (str * list str) :=
  [ (py "conflict",
      map py ["attack"; "airstrike"; "explosion"; "missile"; "troops"; "battle";
              "war"; "military"; "drone"; "shelling"; "killed"; "wounded"; "gun";
              "bomb"; "forces"; "offensive"; "ceasefire"; "strike"]%string);
    (py "disaster",
      map py ["earthquake"; "flood"; "hurricane"; "tornado"; "wildfire"; "tsunami";
              "eruption"; "cyclone"; "storm"; "landslide"; "drought"; "fire"]%string);
    (py "politics",
      map py ["election"; "coup"; "protest"; "president"; "minister"; "government";
              "parliament"; "sanctions"; "treaty"; "vote"; "arrested"]%string);
    (py "breaking",
      map py ["breaking"; "urgent"; "alert"; "developing"; "just in"; "update"]%string) ].

Definition TOPIC_KEYWORDS : list (str * list str) :=
  [ (py "war",
      map py ["war"; "warfare"; "invasion"; "offensive"; "airstrike"; "shelling"; "artillery";
              "troops"; "military operation"; "front line"; "frontline"; "combat"; "battle";
              "siege"; "ceasefire"; "missile strike"; "drone strike"; "armed forces";
              "warzone"; "war zone"; "casualties"; "soldiers killed"; "naval"; "ground forces";
              "occupation"; "liberated"; "captured territory"; "counter-offensive"]%string);
    (py "protests",
      map py ["protest"; "riot"; "demonstration"; "unrest"; "uprising"; "marching"; "marchers";
              "demonstrators"; "crowd"; "clashes with police"; "tear gas"; "water cannon";
              "civil unrest"; "strike"; "walkout"; "blockade"; "occupation"; "mob";
              "looting"; "burning"; "barricade"; "crackdown"; "dispersed"; "detained protesters";
              "activists arrested"; "rallied"; "rally"; "picket"; "insurrection"]%string);
    (py "christian_persecution",
      map py ["christian"; "christianity"; "church"; "cathedral"; "pastor"; "priest"; "bishop";
              "missionary"; "cross"; "bible"; "congregation"; "evangelist"; "christian minority";
              "religious persecution"; "faith"; "worship"; "sunday service"; "christian convert";
              "church attack"; "church burned"; "church destroyed"; "blasphemy"; "apostasy";
              "religious freedom"; "christian arrested"; "christian killed"; "anti-christian";
              "christian community"; "diocese"; "monastery"; "convent"; "christian school"]%string);
    (py "terrorism",
      map py ["terrorist"; "terrorism"; "terror attack"; "suicide bomber"; "suicide bombing";
              "ied"; "improvised explosive"; "jihadist"; "isis"; "isil"; "al-qaeda"; "al qaeda";
              "boko haram"; "al-shabaab"; "taliban"; "lone wolf"; "radicalized"; "extremist";
              "car bomb"; "vehicle attack"; "knife attack"; "mass shooting"; "hostage";
              "kidnapping"; "abduction"; "ransom"; "beheading"; "massacre"; "gunman";
              "active shooter"; "claimed responsibility"; "terror cell"; "bomb threat";
              "explosive device"; "detonated"; "attack on civilians"]%string);
    (py "natural_disasters",
      map py ["earthquake"; "magnitude"; "tremor"; "aftershock"; "seismic";
              "flood"; "flooding"; "flash flood"; "dam breach"; "levee";
              "hurricane"; "typhoon"; "cyclone"; "tropical storm"; "category";
              "tornado"; "twister"; "funnel cloud";
              "wildfire"; "forest fire"; "bushfire"; "blaze";
              "tsunami"; "tidal wave";
              "volcanic eruption"; "volcano"; "lava"; "ash cloud";
              "landslide"; "mudslide"; "avalanche";
              "drought"; "famine"; "heatwave"; "heat wave";
              "storm surge"; "blizzard"; "extreme weather"; "disaster zone";
              "emergency declared"; "natural disaster"; "evacuated"; "death toll"]%string) ].

Definition SEVERITY_KEYWORDS : list (Z * list str) :=
  [ (5, map py ["mass casualty"; "nuclear"; "catastrophic"; "major offensive";
                "capital seized"]%string);
    (4, map py ["dozens killed"; "city under attack"; "state of emergency"; "coup"]%string);
    (3, map py ["casualties"; "explosion"; "airstrike"; "protest"; "arrested"]%string);
    (2, map py ["clashes"; "tensions"; "evacuation"; "warning"]%string);
    (1, []) ].

(** [d[k]] on a literal table; the keys used by the code are all present. *)
Fixpoint table_get {K : Type} (eqb : K -> K -> bool) (d : list (K * list str)) (k : K)
  : list str :=
  match d with
  | [] => []
  | (k', v) :: d' => if eqb k' k then v else table_get eqb d' k
  end.

(** [for kw in keywords: if kw in text_lower: <hit>] -- is the body reached? *)
Fixpoint any_keyword (keywords : list str) (text_lower : str) : bool :=
  match keywords with
  | [] => false
  | kw :: rest => if contains kw text_lower then true else any_keyword rest text_lower
  end.

Section Classification.
Context {U : Unicode}.

(** The loop of [classify_topics] over the items of a table, with the
    accumulator [matched]. *)
Fixpoint topics_loop (items : list (str * list str)) (text_lower : str)
         (matched : list str) : list str :=
  match items with
  | [] => matched
  | (topic, keywords) :: rest =>
      topics_loop rest text_lower
        (if any_keyword keywords text_lower then matched ++ [topic] else matched)
  end.

Definition classify_topics_over (table : list (str * list str)) (text : str) : list str :=
  let text_lower := str_lower text in
  topics_loop table text_lower [].

Definition classify_topics (text : str) : list str :=
  classify_topics_over TOPIC_KEYWORDS text.

(** [for cat in cats: for kw in CATEGORY_KEYWORDS[cat]: if kw in text_lower:
    return cat]; [None] when the loop falls through. *)
Fixpoint first_category (cats : list str) (text_lower : str) : option str :=
  match cats with
  | [] => None
  | cat :: rest =>
      if any_keyword (table_get str_eqb CATEGORY_KEYWORDS cat) text_lower
      then Some cat
      else first_category rest text_lower
  end.

Definition specific_categories : list str :=
  [py "conflict"; py "disaster"; py "politics"].

(** The outer loop over the breaking keywords: at the first keyword found,
    the more specific categories are tried and the function returns. *)
Fixpoint breaking_loop (kws : list str) (text_lower : str) : option str :=
  match kws with
  | [] => None
  | kw :: rest =>
      if contains kw text_lower then
        match first_category specific_categories text_lower with
        | Some cat => Some cat
        | None => Some (py "breaking")
        end
      else breaking_loop rest text_lower
  end.

Definition classify_category (text : str) : str :=
  let text_lower := str_lower text in
  match breaking_loop (table_get str_eqb CATEGORY_KEYWORDS (py "breaking")) text_lower with
  | Some cat => cat
  | None =>
      match first_category specific_categories text_lower with
      | Some cat => cat
      | None => py "general"
      end
  end.

Fixpoint first_level (levels : list Z) (text_lower : str) : option Z :=
  match levels with
  | [] => None
  | level :: rest =>
      if any_keyword (table_get Z.eqb SEVERITY_KEYWORDS level) text_lower
      then Some level
      else first_level rest text_lower
  end.

Definition classify_severity (text : str) : Z :=
  let text_lower := str_lower text in
  match first_level [5; 4; 3; 2] text_lower with
  | Some level => level
  | None => 1
  end.

Definition is_breaking (text : str) : bool :=
  let text_lower := str_lower text in
  existsb (fun kw => contains kw text_lower)
          (table_get str_eqb CATEGORY_KEYWORDS (py "breaking")).

End Classification.

(** ** Floating-point numbers

    A finite binary64 value is modelled by the rational it denotes, kept in
    lowest terms, so that equal values are equal terms.  (The sign of zero is
    not represented; no property below depends on it.) *)
Definition float := Q.

(** Nearest integer to [n/d] for [0 <= n], [0 < d], ties to even. *)
Definition round_half_even (n d : Z) : Z :=
  let q := n / d in
  let r := n mod d in
  match 2 * r ?= d with
  | Lt => q
  | Gt => q + 1
  | Eq => if Z.even q then q else q + 1
  end.

(** [floor (log2 (n/d))] for [0 < n], [0 < d]. *)
Definition ilog2_ratio (n d : Z) : Z :=
  let k := Z.log2 n - Z.log2 d in
  let below := if 0 <=? k then d * 2 ^ k <=? n else d <=? n * 2 ^ (- k) in
  if below then k else k - 1.

Definition pow2Q (e : Z) : Q :=
  if 0 <=? e then inject_Z (2 ^ e) else 1 # Z.to_pos (2 ^ (- e)).

(** Round-to-nearest-even conversion of a rational to binary64 (53-bit
    significand, gradual underflow at exponent -1074).  Overflow cannot
    happen for the magnitudes the coordinate patterns allow (below 1001). *)
Definition binary64 (x : Q) : float :=
  let n := Qnum x in
  let d := Zpos (Qden x) in
  if n =? 0 then 0%Q
  else
    let a := Z.abs n in
    let e := Z.max (ilog2_ratio a d - 52) (-1074) in
    let m := if 0 <=? e then round_half_even a (d * 2 ^ e)
             else round_half_even (a * 2 ^ (- e)) d in
    Qred (inject_Z (Z.sgn n * m) * pow2Q e).

Definition float_neg (x : float) : float := Qred (- x).
Definition float_add (x y : float) : float := binary64 (x + y).
Definition float_div (x y : float) : float := binary64 (x / y).
Definition float_of_int (n : Z) : float := binary64 (inject_Z n).
Definition float_le (x y : float) : bool := Qle_bool x y.
Definition float_lt (x y : float) : bool := Qle_bool x y && negb (Qeq_bool x y).

(** ** Regular expressions

    The two patterns of [geo_tagger.py] are sequences of single-character
    classes, bounded or unbounded greedy repetitions of such classes, and
    capture groups.  [re_match] is the backtracking matcher of Python's [re]
    on that fragment: a repetition first takes as many characters as it can
    and gives them back one at a time. *)
Inductive re_item :=
| Chr (p : N -> bool)
| Rep (p : N -> bool) (lo : nat) (hi : option nat)
| Open
| Close.

(** Length of the longest prefix of [s] in class [p], at most [hi]. *)
Fixpoint span (p : N -> bool) (hi : option nat) (s : str) : nat :=
  match hi, s with
  | Some O, _ => O
  | _, [] => O
  | _, c :: s' =>
      if p c then S (span p (match hi with Some (S h) => Some h | _ => hi end) s')
      else O
  end.

(** Backtracking of a repetition that has taken [n] characters of [s]: the
    rest of the pattern, [rest], is tried after [n], [n - 1], ... characters,
    down to [lo]. *)
Fixpoint give_back (rest : str -> option (list str)) (lo : nat) (s : str) (n : nat)
  : option (list str) :=
  if (n <? lo)%nat then None
  else
    match rest (skipn n s) with
    | Some r => Some r
    | None =>
        match n with
        | O => None
        | S n' => give_back rest lo s n'
        end
    end.

Fixpoint re_match (pat : list re_item) (s : str) (opened : list str) (groups : list str)
  : option (list str) :=
  match pat with
  | [] => Some groups
  | Chr p :: pat' =>
      match s with
      | c :: s' => if p c then re_match pat' s' opened groups else None
      | [] => None
      end
  | Rep p lo hi :: pat' =>
      give_back (fun s' => re_match pat' s' opened groups) lo s (span p hi s)
  | Open :: pat' => re_match pat' s (s :: opened) groups
  | Close :: pat' =>
      match opened with
      | start :: opened' =>
          re_match pat' s opened'
            (groups ++ [firstn (List.length start - List.length s) start])
      | [] => None
      end
  end.

(** Two patterns that differ only in classes that agree on the code points
    satisfying [P]. *)
Definition item_agree (P : N -> Prop) (i j : re_item) : Prop :=
  match i, j with
  | Chr p, Chr q => forall c, P c -> p c = q c
  | Rep p lo hi, Rep q lo' hi' => lo = lo' /\ hi = hi' /\ forall c, P c -> p c = q c
  | Open, Open => True
  | Close, Close => True
  | _, _ => False
  end.

(** [pattern.search(text)]: the match at the leftmost position that has one. *)
Fixpoint re_search (pat : list re_item) (s : str) : option (list str) :=
  match re_match pat s [] [] with
  | Some gs => Some gs
  | None =>
      match s with
      | [] => None
      | _ :: s' => re_search pat s'
      end
  end.

(** [m.group(i)], [1 <= i]. *)
Definition group (m : list str) (i : nat) : str := nth (i - 1) m [].

(** The parts of [s] before and after the first occurrence of [c0]. *)
Fixpoint before_chr (c0 : N) (s : str) : str :=
  match s with
  | [] => []
  | c :: s' => if N.eqb c c0 then [] else c :: before_chr c0 s'
  end.

Fixpoint after_chr (c0 : N) (s : str) : str :=
  match s with
  | [] => []
  | c :: s' => if N.eqb c c0 then s' else after_chr c0 s'
  end.

Definition is_chr (a : string) (c : N) : bool :=
  existsb (N.eqb c) (py a).

(** [a or b] on two optional tuples (a tuple of two is always truthy). *)
Definition or_else {A : Type} (a b : option A) : option A :=
  match a with Some _ => a | None => b end.

Section Coordinates.
Context {U : Unicode}.

Definition is_digit (c : N) : bool :=
  match digit_value c with Some _ => true | None => false end.

(** [(-?\d{1,3}\.\d+)] *)
Definition signed_decimal : list re_item :=
  [Open; Rep (is_chr "-") 0 (Some 1%nat); Rep is_digit 1 (Some 3%nat); Chr (is_chr ".");
   Rep is_digit 1 None; Close].

(** [(-?\d{1,3}\.\d+)\s*[,/]\s*(-?\d{1,3}\.\d+)] *)
Definition _DECIMAL_COORD : list re_item :=
  signed_decimal ++ [Rep is_space 0 None; Chr (is_chr ",/"); Rep is_space 0 None]
  ++ signed_decimal.

(** [(\d{1,3})°(\d{1,2})′([NS])\s+(\d{1,3})°(\d{1,2})′([EW])];
    [°] is U+00B0 and [′] is U+2032. *)
Definition dms_half (hemi : string) : list re_item :=
  [Open; Rep is_digit 1 (Some 3%nat); Close; Chr (N.eqb 176);
   Open; Rep is_digit 1 (Some 2%nat); Close; Chr (N.eqb 8242);
   Open; Chr (is_chr hemi); Close].

Definition _DMS_COORD : list re_item :=
  dms_half "NS" ++ [Rep is_space 1 None] ++ dms_half "EW".

(** [int(s)] on a string of digits. *)
Definition int_of_str (s : str) : Z :=
  fold_left (fun acc c => 10 * acc + Z.of_N (default 0%N (digit_value c))) s 0.

(** [float(s)] on a string of the shape [-?\d+\.\d+], the only one the
    decimal pattern captures. *)
Definition float_of_str (s : str) : float :=
  let neg := match s with c :: _ => N.eqb c 45 | [] => false end in
  let body := if neg then tl s else s in
  let ip := before_chr 46 body in
  let fp := after_chr 46 body in
  let v := binary64 (int_of_str (ip ++ fp) # Pos.pow 10 (Pos.of_nat (List.length fp))) in
  if neg then float_neg v else v.

Definition extract_decimal_coords (text : str) : option (float * float) :=
  match re_search _DECIMAL_COORD text with
  | Some m =>
      let lat := float_of_str (group m 1) in
      let lon := float_of_str (group m 2) in
      if float_le (-90)%Q lat && float_le lat 90%Q &&
         float_le (-180)%Q lon && float_le lon 180%Q
      then Some (lat, lon)
      else None
  | None => None
  end.

Definition extract_dms_coords (text : str) : option (float * float) :=
  match re_search _DMS_COORD text with
  | None => None
  | Some m =>
      let lat := float_add (float_of_int (int_of_str (group m 1)))
                           (float_div (float_of_int (int_of_str (group m 2))) 60%Q) in
      let lat := if str_eqb (group m 3) (py "S") then float_neg lat else lat in
      let lon := float_add (float_of_int (int_of_str (group m 4)))
                           (float_div (float_of_int (int_of_str (group m 5))) 60%Q) in
      let lon := if str_eqb (group m 6) (py "W") then float_neg lon else lon in
      Some (lat, lon)
  end.

(** Step 1 of [resolve_geo]:
    [extract_decimal_coords(text) or extract_dms_coords(text)]. *)
Definition raw_coords (text : str) : option (float * float) :=
  or_else (extract_decimal_coords text) (extract_dms_coords text).

End Coordinates.

(** ** Identity function: UTF-8 and SHA-256

    [hashlib.sha256(s.encode()).hexdigest()[:16]].  Bytes and 32-bit words are
    integers; the wrap-around of word addition is written out. *)

(** [s.encode()]: UTF-8.  Python raises [UnicodeEncodeError] on a surrogate
    code point; [None] stands for that exception. *)
Definition utf8_char (c : N) : option (list Z) :=
  let z := Z.of_N c in
  if z <? 0x80 then Some [z]
  else if z <? 0x800 then
    Some [Z.lor 0xC0 (Z.shiftr z 6); Z.lor 0x80 (Z.land z 0x3F)]
  else if z <? 0x10000 then
    if (0xD800 <=? z) && (z <=? 0xDFFF) then None
    else Some [Z.lor 0xE0 (Z.shiftr z 12);
               Z.lor 0x80 (Z.land (Z.shiftr z 6) 0x3F);
               Z.lor 0x80 (Z.land z 0x3F)]
  else if z <? 0x110000 then
    Some [Z.lor 0xF0 (Z.shiftr z 18);
          Z.lor 0x80 (Z.land (Z.shiftr z 12) 0x3F);
          Z.lor 0x80 (Z.land (Z.shiftr z 6) 0x3F);
          Z.lor 0x80 (Z.land z 0x3F)]
  else None.

Fixpoint encode (s : str) : option (list Z) :=
  match s with
  | [] => Some []
  | c :: s' =>
      match utf8_char c, encode s' with
      | Some bs, Some rest => Some (bs ++ rest)
      | _, _ => None
      end
  end.

(** A code point that [encode] accepts: a Unicode scalar value. *)
Definition scalar_value (c : N) : Prop :=
  (c < 0xD800 \/ 0xDFFF < c < 0x110000)%N.

Module SHA256.

Definition add32 (a b : Z) : Z := (a + b) mod 2 ^ 32.
Definition rotr (n x : Z) : Z :=
  Z.lor (Z.shiftr x n) (Z.shiftl x (32 - n) mod 2 ^ 32).
Definition shr (n x : Z) : Z := Z.shiftr x n.
Definition not32 (x : Z) : Z := Z.lxor x 0xffffffff.

Definition Ch (x y z : Z) : Z := Z.lxor (Z.land x y) (Z.land (not32 x) z).
Definition Maj (x y z : Z) : Z :=
  Z.lxor (Z.lxor (Z.land x y) (Z.land x z)) (Z.land y z).
Definition Sigma0 (x : Z) : Z := Z.lxor (Z.lxor (rotr 2 x) (rotr 13 x)) (rotr 22 x).
Definition Sigma1 (x : Z) : Z := Z.lxor (Z.lxor (rotr 6 x) (rotr 11 x)) (rotr 25 x).
Definition sigma0 (x : Z) : Z := Z.lxor (Z.lxor (rotr 7 x) (rotr 18 x)) (shr 3 x).
Definition sigma1 (x : Z) : Z := Z.lxor (Z.lxor (rotr 17 x) (rotr 19 x)) (shr 10 x).

Definition K : list Z :=
  [1116352408; 1899447441; 3049323471; 3921009573;   (* 428a2f98 71374491 b5c0fbcf e9b5dba5 *)
   961987163; 1508970993; 2453635748; 2870763221;   (* 3956c25b 59f111f1 923f82a4 ab1c5ed5 *)
   3624381080; 310598401; 607225278; 1426881987;   (* d807aa98 12835b01 243185be 550c7dc3 *)
   1925078388; 2162078206; 2614888103; 3248222580;   (* 72be5d74 80deb1fe 9bdc06a7 c19bf174 *)
   3835390401; 4022224774; 264347078; 604807628;   (* e49b69c1 efbe4786 0fc19dc6 240ca1cc *)
   770255983; 1249150122; 1555081692; 1996064986;   (* 2de92c6f 4a7484aa 5cb0a9dc 76f988da *)
   2554220882; 2821834349; 2952996808; 3210313671;   (* 983e5152 a831c66d b00327c8 bf597fc7 *)
   3336571891; 3584528711; 113926993; 338241895;   (* c6e00bf3 d5a79147 06ca6351 14292967 *)
   666307205; 773529912; 1294757372; 1396182291;   (* 27b70a85 2e1b2138 4d2c6dfc 53380d13 *)
   1695183700; 1986661051; 2177026350; 2456956037;   (* 650a7354 766a0abb 81c2c92e 92722c85 *)
   2730485921; 2820302411; 3259730800; 3345764771;   (* a2bfe8a1 a81a664b c24b8b70 c76c51a3 *)
   3516065817; 3600352804; 4094571909; 275423344;   (* d192e819 d6990624 f40e3585 106aa070 *)
   430227734; 506948616; 659060556; 883997877;   (* 19a4c116 1e376c08 2748774c 34b0bcb5 *)
   958139571; 1322822218; 1537002063; 1747873779;   (* 391c0cb3 4ed8aa4a 5b9cca4f 682e6ff3 *)
   1955562222; 2024104815; 2227730452; 2361852424;   (* 748f82ee 78a5636f 84c87814 8cc70208 *)
   2428436474; 2756734187; 3204031479; 3329325298].   (* 90befffa a4506ceb bef9a3f7 c67178f2 *)

(** The chaining value: eight 32-bit words. *)
Record state := State { h0 : Z; h1 : Z; h2 : Z; h3 : Z; h4 : Z; h5 : Z; h6 : Z; h7 : Z }.

Definition init : state :=
  State 0x6a09e667 0xbb67ae85 0x3c6ef372 0xa54ff53a
        0x510e527f 0x9b05688c 0x1f83d9ab 0x5be0cd19.

(** Padding: a [1] bit, zeros, and the bit length on 64 bits. *)
Definition be_bytes (n : nat) (x : Z) : list Z :=
  map (fun i => Z.shiftr x (8 * Z.of_nat i) mod 256) (rev (seq 0 n)).

Definition pad (msg : list Z) : list Z :=
  let len := Z.of_nat (List.length msg) in
  msg ++ [0x80] ++ repeat 0 (Z.to_nat ((55 - len) mod 64)) ++ be_bytes 8 (8 * len).

Fixpoint words (bs : list Z) : list Z :=
  match bs with
  | a :: b :: c :: d :: rest =>
      (Z.shiftl a 24 + Z.shiftl b 16 + Z.shiftl c 8 + d) :: words rest
  | _ => []
  end.

(** Message schedule, newest word first. *)
Fixpoint extend (n : nat) (w : list Z) : list Z :=
  match n with
  | O => w
  | S n' =>
      let x := add32 (add32 (sigma1 (nth 1 w 0)) (nth 6 w 0))
                     (add32 (sigma0 (nth 14 w 0)) (nth 15 w 0)) in
      extend n' (x :: w)
  end.

Definition schedule (block : list Z) : list Z :=
  rev (extend 48 (rev (firstn 16 block))).

Definition round (s : state) (kw : Z * Z) : state :=
  let (k, w) := kw in
  let t1 := add32 (add32 (add32 (h7 s) (Sigma1 (h4 s))) (add32 (Ch (h4 s) (h5 s) (h6 s)) k)) w in
  let t2 := add32 (Sigma0 (h0 s)) (Maj (h0 s) (h1 s) (h2 s)) in
  State (add32 t1 t2) (h0 s) (h1 s) (h2 s) (add32 (h3 s) t1) (h4 s) (h5 s) (h6 s).

Definition compress (s : state) (block : list Z) : state :=
  let r := fold_left round (combine K (schedule block)) s in
  State (add32 (h0 s) (h0 r)) (add32 (h1 s) (h1 r)) (add32 (h2 s) (h2 r))
        (add32 (h3 s) (h3 r)) (add32 (h4 s) (h4 r)) (add32 (h5 s) (h5 r))
        (add32 (h6 s) (h6 r)) (add32 (h7 s) (h7 r)).

Fixpoint blocks (n : nat) (ws : list Z) (s : state) : state :=
  match n with
  | O => s
  | S n' => blocks n' (skipn 16 ws) (compress s (firstn 16 ws))
  end.

Definition digest (msg : list Z) : state :=
  let ws := words (pad msg) in
  blocks (List.length ws / 16) ws init.

Definition hex_digit (x : Z) : N :=
  let d := x mod 16 in
  Z.to_N (if d <? 10 then 48 + d else 87 + d).

Definition hex8 (w : Z) : str :=
  [hex_digit (Z.shiftr w 28); hex_digit (Z.shiftr w 24); hex_digit (Z.shiftr w 20);
   hex_digit (Z.shiftr w 16); hex_digit (Z.shiftr w 12); hex_digit (Z.shiftr w 8);
   hex_digit (Z.shiftr w 4); hex_digit w].

Definition hexdigest (msg : list Z) : str :=
  let s := digest msg in
  hex8 (h0 s) ++ hex8 (h1 s) ++ hex8 (h2 s) ++ hex8 (h3 s) ++
  hex8 (h4 s) ++ hex8 (h5 s) ++ hex8 (h6 s) ++ hex8 (h7 s).

End SHA256.

(** [make_event_id(url, title)], [geo_tagger.py]. *)
Definition make_event_id (url title : str) : option str :=
  match encode (url ++ title) with
  | Some bytes => Some (firstn 16 (SHA256.hexdigest bytes))
  | None => None
  end.

(** [_tweet_id(account, text)], [twitter_scraper.py]. *)
Definition _tweet_id (account text : str) : option str :=
  match encode (account ++ firstn 80 text) with
  | Some bytes => Some (firstn 16 (SHA256.hexdigest bytes))
  | None => None
  end.

(** A character of a lower-case hexadecimal numeral. *)
Definition is_hex (c : N) : bool :=
  ((48 <=? c)%N && (c <=? 57)%N) || ((97 <=? c)%N && (c <=? 102)%N).

(** ** Python and JSON values

    The values that flow through the dictionaries of the adapters and come
    back from [json.loads]. *)
#[warnings="-register-all"]
Inductive json :=
| JNull
| JBool (b : bool)
| JInt (n : Z)
| JFloat (x : float)
| JStr (s : str)
| JList (l : list json)
| JObj (kvs : list (str * json)).

(** Python truthiness, [bool(v)]. *)
Definition truthy (v : json) : bool :=
  match v with
  | JNull => false
  | JBool b => b
  | JInt n => negb (n =? 0)
  | JFloat x => negb (Qeq_bool x 0)
  | JStr s => match s with [] => false | _ => true end
  | JList l => match l with [] => false | _ => true end
  | JObj kvs => match kvs with [] => false | _ => true end
  end.

(** [d.get(k)]: [None] of Python is [JNull]. *)
Definition dict_get (d : gmap string json) (k : string) : json :=
  default JNull (d !! k).

(** [d.get(k, dflt)]. *)
Definition dict_get_or (d : gmap string json) (k : string) (dflt : json) : json :=
  default dflt (d !! k).

(** ** Geo-resolution pipeline ([geo_tagger.py]) *)

(** The two external services.  [spacy_locations t] is the list
    [list({ent.text for ent in nlp(t).ents if ent.label_ in ("GPE", "LOC")})],
    or [None] when loading or running the model raises.  [geocode_cached]
    answers a lookup given the names looked up before it (the [lru_cache] and
    the remote service are both inside); [None] is Python's [None], returned
    also when the service raises. *)
Class Geocoder := {
  spacy_locations : str -> option (list str);
  geocode_cached : list str -> str -> option (float * float * str)
}.

(** [s.split(",")]. *)
Fixpoint split_on (c0 : N) (s : str) : list str :=
  match s with
  | [] => [[]]
  | c :: s' =>
      if N.eqb c c0 then [] :: split_on c0 s'
      else match split_on c0 s' with
           | p :: ps => (c :: p) :: ps
           | [] => [[c]]
           end
  end.

Fixpoint lstrip_by (sp : N -> bool) (s : str) : str :=
  match s with
  | [] => []
  | c :: s' => if sp c then lstrip_by sp s' else s
  end.

Section GeoResolution.
Context {U : Unicode} {G : Geocoder}.

(** [s.strip()]. *)
Definition strip (s : str) : str :=
  rev (lstrip_by is_space (rev (lstrip_by is_space s))).

Definition extract_locations_spacy (text : str) : list str :=
  match spacy_locations (firstn 1000 text) with
  | Some names => names
  | None => []
  end.

(** The dictionary built from a successful geocode of [loc]. *)
Definition geocoded (loc : str) (lat lon : float) (display : str) : gmap string json :=
  let parts := split_on 44 display in
  let country := match parts with [] => [] | _ => strip (List.last parts []) end in
  {[ "lat"%string := JFloat lat;
     "lon"%string := JFloat lon;
     "location_name"%string := JStr loc;
     "country_code"%string :=
       JStr (if (2 <=? List.length country)%nat then str_upper (firstn 2 country) else []) ]}.

(** [for loc in locations: result = geocode_cached(loc); if result: return ...];
    [calls] is the list of the names looked up so far. *)
Fixpoint geocode_first (locations : list str) (calls : list str)
  : gmap string json * list str :=
  match locations with
  | [] => (∅, calls)
  | loc :: rest =>
      match geocode_cached calls loc with
      | Some (lat, lon, display) => (geocoded loc lat lon display, calls ++ [loc])
      | None => geocode_first rest (calls ++ [loc])
      end
  end.

(** [resolve_geo(text, hint_locations)].  A missing [hint_locations]
    ([None]) and an empty one behave alike and are both the empty list.
    The second component is the geocoder's call history after the call. *)
Definition resolve_geo (text : str) (hint_locations : list str) (calls : list str)
  : gmap string json * list str :=
  match raw_coords text with
  | Some (lat, lon) =>
      ({[ "lat"%string := JFloat lat; "lon"%string := JFloat lon;
          "location_name"%string := JStr []; "country_code"%string := JStr [] ]}, calls)
  | None =>
      let locations := extract_locations_spacy text in
      let locations :=
        match hint_locations with
        | [] => locations
        | _ => hint_locations ++ locations
        end in
      geocode_first locations calls
  end.

End GeoResolution.

(** ** RSS adapter ([news_scraper.py]) *)

(** An entry of a parsed feed, with the attributes [fetch_rss_feed] reads;
    [entry_published] is the ISO text of [published_parsed] when the entry
    has one. *)
Record rss_entry := {
  entry_title : str;
  entry_summary : str;
  entry_link : str;
  entry_published : option str
}.

(** [re.sub(r'<[^>]+>', '', s)].  [close_tag s] is what follows the shortest
    [[^>]+>] at the head of [s], if there is one. *)
Fixpoint close_tag (seen : bool) (s : str) : option str :=
  match s with
  | [] => None
  | c :: s' =>
      if N.eqb c 62 then (if seen then Some s' else None)
      else close_tag true s'
  end.

Fixpoint strip_tags (fuel : nat) (s : str) : str :=
  match fuel, s with
  | O, _ => s
  | _, [] => []
  | S fuel', c :: s' =>
      if N.eqb c 60 then
        match close_tag false s' with
        | Some rest => strip_tags fuel' rest
        | None => c :: strip_tags fuel' s'
        end
      else c :: strip_tags fuel' s'
  end.

Section RssAdapter.
Context {U : Unicode} {G : Geocoder}.

(** The dictionary literal [{"id": ..., ..., **geo}] of [fetch_rss_feed]:
    the keys of [geo] are written last. *)
Definition rss_event (event_id title summary url source published_at full_text : str)
           (geo : gmap string json) : gmap string json :=
  geo ∪
  {[ "id"%string := JStr event_id;
     "title"%string := JStr title;
     "summary"%string := JStr summary;
     "url"%string := JStr url;
     "source"%string := JStr source;
     "source_type"%string := JStr (py "rss");
     "category"%string := JStr (classify_category full_text);
     "topics"%string := JList (map JStr (classify_topics full_text));
     "severity"%string := JInt (classify_severity full_text);
     "is_breaking"%string := JBool (is_breaking full_text);
     "media_urls"%string := JList [];
     "raw_tags"%string := JList [];
     "published_at"%string := JStr published_at ]}.

(** The loop over [parsed.entries[:20]] inside the [try]: [events] is the
    list built so far, [now_iso] the ISO text of the clock.  An exception
    of the body ([make_event_id] on an unencodable text) ends the loop and
    the handler returns what was collected. *)
Fixpoint rss_loop (entries : list rss_entry) (source now_iso : str)
         (events : list (gmap string json)) (calls : list str)
  : list (gmap string json) * list str :=
  match entries with
  | [] => (events, calls)
  | entry :: rest =>
      let title := entry_title entry in
      let summary := entry_summary entry in
      let url := entry_link entry in
      let summary := firstn 500 (strip_tags (List.length summary) summary) in
      let published_at := default now_iso (entry_published entry) in
      let full_text := title ++ py " " ++ summary in
      let (geo, calls) := resolve_geo full_text [] calls in
      if bool_decide (geo = ∅) then rss_loop rest source now_iso events calls
      else
        match make_event_id url title with
        | None => (events, calls)
        | Some event_id =>
            rss_loop rest source now_iso
              (events ++ [rss_event event_id title summary url source published_at
                                    full_text geo])
              calls
        end
  end.

(** [fetch_rss_feed]: [parsed] is [None] when the request or the parser
    raised, else the entries of the feed. *)
Definition fetch_rss_feed (source now_iso : str) (parsed : option (list rss_entry))
           (calls : list str) : list (gmap string json) * list str :=
  match parsed with
  | None => ([], calls)
  | Some entries => rss_loop (firstn 20 entries) source now_iso [] calls
  end.

End RssAdapter.

(** ** Social adapter ([twitter_scraper.py]) *)

(** One [client.get] on a mirror followed by the parsing of the page. *)
Inductive mirror_response (tweet : Type) :=
| GetRaised                                  (* the request or the HTML parser raised *)
| GetStatus (status_code : Z) (page : list tweet).
Arguments GetRaised {tweet}.
Arguments GetStatus {tweet} status_code page.

(** The network as the social adapter sees it.  [twitter_api account] is the
    list that [fetch_twitter_api] returns when a bearer token is configured
    (its own handler turns every failure into the items collected so far).
    [nitter_get tried instance account] is the outcome of the request to
    [instance] after the mirrors [tried] have been contacted; [page] is the
    list of the tweets that the loop over the first ten [.timeline-item]
    elements appends, each built by the total function [_parse_tweet_text]. *)
Class Network := {
  tweet : Type;
  twitter_api : str -> list tweet;
  nitter_get : list str -> str -> str -> mirror_response tweet
}.

Section SocialAdapter.
Context {Net : Network}.
Variable TWITTER_BEARER : str.
Variable NITTER_INSTANCES : list str.

Definition fetch_twitter_api (account : str) : list tweet :=
  match TWITTER_BEARER with
  | [] => []
  | _ => twitter_api account
  end.

(** The [for instance in NITTER_INSTANCES] loop: [tweets] is the list
    collected so far and [tried] the mirrors contacted so far. *)
Fixpoint nitter_loop (instances : list str) (account : str)
         (tweets : list tweet) (tried : list str) : list tweet * list str :=
  match instances with
  | [] => (tweets, tried)
  | instance :: rest =>
      match nitter_get tried instance account with
      | GetRaised => nitter_loop rest account tweets (tried ++ [instance])
      | GetStatus status_code page =>
          if negb (status_code =? 200)
          then nitter_loop rest account tweets (tried ++ [instance])
          else
            let tweets := tweets ++ page in
            match tweets with
            | _ :: _ => (tweets, tried ++ [instance])
            | [] => nitter_loop rest account tweets (tried ++ [instance])
            end
      end
  end.

Definition fetch_nitter (account : str) : list tweet * list str :=
  nitter_loop NITTER_INSTANCES account [] [].

(** [scrape_osint_account]: the tweets and the mirrors contacted. *)
Definition scrape_osint_account (account : str) : list tweet * list str :=
  let tweets :=
    match TWITTER_BEARER with
    | [] => []
    | _ => fetch_twitter_api account
    end in
  match tweets with
  | [] => fetch_nitter account
  | _ :: _ => (tweets, [])
  end.

End SocialAdapter.

(** ** The time-windowed store ([api/main.py])

    Redis holds, under each key, a JSON text and the time at which the key
    expires.  [json.loads (json.dumps e)] is [e] for the dictionaries of the
    adapters, so the store is modelled as holding the dictionary itself.
    Times are microseconds since the epoch. *)
Record redis_entry := { payload : gmap string json; expires_at : Z }.

Definition TTL : Z := 43200 * 1000000.

Inductive outcome (A : Type) :=
| Ok (a : A)
| Raise (exc : string).
Arguments Ok {A} a.
Arguments Raise {A} exc.

(** The body of the loop of [store_events]: [pipe.setex(key, 43200, ...)].
    A dictionary without an [id] raises [KeyError] before the pipeline is
    executed, so that nothing is written.  The adapters always provide a
    string [id]; an [id] of another type does not occur and is not modelled
    (it is treated as a missing one). *)
Fixpoint pipeline (events : list (gmap string json)) (prefix : str) (now : Z)
         (pipe : gmap str redis_entry) : outcome (gmap str redis_entry) :=
  match events with
  | [] => Ok pipe
  | e :: rest =>
      match e !! "id"%string with
      | Some (JStr id) =>
          let key := prefix ++ py ":" ++ id in
          pipeline rest prefix now
                   (<[key := {| payload := e; expires_at := now + TTL |}]> pipe)
      | _ => Raise "KeyError"
      end
  end.

Definition store_events (events : list (gmap string json)) (prefix : str) (now : Z)
           (redis : gmap str redis_entry) : outcome (gmap str redis_entry) :=
  match events with
  | [] => Ok redis
  | _ => pipeline events prefix now redis
  end.

(** [get_all_events(prefix)]: the payloads of the live keys [prefix:*].  The
    store still holds a key at the instant of its expiry and drops it after
    that instant. *)
Definition get_all_events (prefix : str) (now : Z) (redis : gmap str redis_entry)
  : list (gmap string json) :=
  map (fun kv => payload (snd kv))
      (List.filter (fun kv => startswith (fst kv) (prefix ++ py ":") &&
                              (now <=? expires_at (snd kv)))
                   (map_to_list redis)).

(** ** The events query ([get_events], [api/main.py]) *)

(** A [datetime]: the wall-clock reading and the UTC offset when the value is
    aware, both in microseconds. *)
Record datetime := { wall : Z; tzinfo : option Z }.

(** [datetime.fromisoformat]; [None] stands for [ValueError]. *)
Class DateTimeLib := { fromisoformat : str -> option datetime }.

(** The instant of an aware datetime. *)
Definition instant (d : datetime) : Z := wall d - default 0 (tzinfo d).

(** [s.replace("Z", "+00:00")]. *)
Definition replace_Z (s : str) : str :=
  flat_map (fun c => if N.eqb c 90 then py "+00:00" else [c]) s.

(** The parameters of [GET /api/events] after validation. *)
Record events_query := {
  category : option str;
  topic : option str;
  min_severity : Z;
  hours : Z;
  breaking_only : bool;
  source_type : option str
}.

(** Truthiness of an [Optional[str]] parameter. *)
Definition given (p : option str) : bool :=
  match p with
  | Some (_ :: _) => true
  | _ => false
  end.

(** [v != s] for a string [s]. *)
Definition json_ne_str (v : json) (s : str) : bool :=
  match v with
  | JStr s' => negb (str_eqb s' s)
  | _ => true
  end.

(** [p and v != p] for an [Optional[str]] parameter [p]. *)
Definition mismatch (p : option str) (v : json) : bool :=
  match p with
  | Some ((_ :: _) as s) => json_ne_str v s
  | _ => false
  end.

(** [v < n] for an integer [n]; [None] stands for [TypeError]. *)
Definition json_lt_int (v : json) (n : Z) : option bool :=
  match v with
  | JInt m => Some (m <? n)
  | JBool b => Some ((if b then 1 else 0) <? n)
  | JFloat x => Some (float_lt x (inject_Z n))
  | _ => None
  end.

(** [t not in c]; [None] stands for [TypeError]. *)
Definition not_in (t : str) (c : json) : option bool :=
  match c with
  | JList l => Some (negb (existsb (fun v => negb (json_ne_str v t)) l))
  | JStr s => Some (negb (contains t s))
  | JObj kvs => Some (negb (existsb (fun kv => str_eqb (fst kv) t) kvs))
  | _ => None
  end.

(** The verdict of the loop body on one event. *)
Inductive verdict := Keep | Skip | Fault.

Section EventsQuery.
Context {D : DateTimeLib}.

(** The [try] block: the timestamp of the event, or [None] when anything
    in it raises (missing key, not a string, not ISO). *)
Definition published (e : gmap string json) : option datetime :=
  match e !! "published_at"%string with
  | Some (JStr s) =>
      match fromisoformat (replace_Z s) with
      | Some pub =>
          Some (match tzinfo pub with
                | None => {| wall := wall pub; tzinfo := Some 0 |}
                | Some _ => pub
                end)
      | None => None
      end
  | _ => None
  end.

Definition events_filter (q : events_query) (cutoff : Z) (e : gmap string json) : verdict :=
  if negb (truthy (dict_get e "lat")) || negb (truthy (dict_get e "lon")) then Skip
  else
    match published e with
    | None => Skip
    | Some pub =>
        if instant pub <? cutoff then Skip
        else
          match json_lt_int (dict_get_or e "severity" (JInt 1)) (min_severity q) with
          | None => Fault
          | Some true => Skip
          | Some false =>
              if mismatch (category q) (dict_get e "category") then Skip
              else
                let topics := dict_get e "topics" in
                let topics := if truthy topics then topics else JList [] in
                match (match topic q with
                       | Some ((_ :: _) as t) => not_in t topics
                       | _ => Some false
                       end) with
                | None => Fault
                | Some true => Skip
                | Some false =>
                    if breaking_only q && negb (truthy (dict_get e "is_breaking")) then Skip
                    else if mismatch (source_type q) (dict_get e "source_type") then Skip
                    else Keep
                end
          end
    end.

Fixpoint filter_loop (q : events_query) (cutoff : Z) (events filtered : list (gmap string json))
  : outcome (list (gmap string json)) :=
  match events with
  | [] => Ok filtered
  | e :: rest =>
      match events_filter q cutoff e with
      | Keep => filter_loop q cutoff rest (filtered ++ [e])
      | Skip => filter_loop q cutoff rest filtered
      | Fault => Raise "TypeError"
      end
  end.

(** [x.get("published_at", "")] of a kept event, and the order of [str]. *)
Definition sort_key (e : gmap string json) : str :=
  match e !! "published_at"%string with
  | Some (JStr s) => s
  | _ => []
  end.

Fixpoint str_ltb (a b : str) : bool :=
  match a, b with
  | _, [] => false
  | [], _ :: _ => true
  | c :: a', d :: b' => (c <? d)%N || (N.eqb c d && str_ltb a' b')
  end.

(** [l.sort(key=..., reverse=True)]: stable, descending. *)
Fixpoint insert_desc (e : gmap string json) (l : list (gmap string json)) :=
  match l with
  | [] => [e]
  | x :: l' =>
      if str_ltb (sort_key e) (sort_key x) then x :: insert_desc e l'
      else e :: l
  end.

Definition sort_desc (l : list (gmap string json)) : list (gmap string json) :=
  fold_right insert_desc [] l.

Record events_response := { count : nat; events : list (gmap string json) }.

(** [get_events]: [now] is the reading of the clock, [redis] the store. *)
Definition get_events (q : events_query) (now : Z) (redis : gmap str redis_entry)
  : outcome events_response :=
  let all := get_all_events (py "event") now redis in
  let cutoff := now - hours q * 3600 * 1000000 in
  match filter_loop q cutoff all [] with
  | Raise exc => Raise exc
  | Ok filtered =>
      let filtered := sort_desc filtered in
      Ok {| count := List.length filtered; events := firstn 500 filtered |}
  end.

End EventsQuery.

(** ** Concrete inputs *)

(** The example of the specification. *)
Definition example_text : str :=
  py "Earthquake of magnitude 7.1 strikes near 35.68,139.69".

(** A degree-minute text outside the valid range: [91°30′N 181°15′W]. *)
Definition dms_text : str :=
  py "at 91" ++ [176%N] ++ py "30" ++ [8242%N] ++ py "N 181" ++ [176%N] ++ py "15"
  ++ [8242%N] ++ py "W now".

(** ** Vocabulary of the specification *)

(** [kw] is a substring of [s]. *)
Definition occurs (kw s : str) : Prop := exists l r, s = l ++ kw ++ r.

(** Some keyword of the table occurs in the text, case-insensitively. *)
Definition hits {U : Unicode} (keywords : list str) (text : str) : Prop :=
  exists kw, In kw keywords /\ occurs kw (str_lower text).

(** The keyword table of a category. *)
Definition category_table (cat : string) : list str :=
  table_get str_eqb CATEGORY_KEYWORDS (py cat).

(** The example of the specification as it is stated: coordinates
    [(35.68, 139.69)], category "disaster", topic "natural_disasters" and a
    severity of at least 3. *)
Definition example_as_specified (U : Unicode) : Prop :=
  raw_coords example_text = Some (binary64 (3568 # 100), binary64 (13969 # 100)) /\
  classify_category example_text = py "disaster" /\
  In (py "natural_disasters") (classify_topics example_text) /\
  3 <= classify_severity example_text.

(** A pair inside [[-90, 90] x [-180, 180]]. *)
Definition in_range (p : float * float) : Prop :=
  (-90 <= fst p)%Q /\ (fst p <= 90)%Q /\ (-180 <= snd p)%Q /\ (snd p <= 180)%Q.

(** What a mirror yields: the tweets of its page when it answers 200, and
    nothing when the request fails or the status is another one. *)
Definition mirror_items {Net : Network} (tried : list str) (instance account : str)
  : list tweet :=
  match nitter_get tried instance account with
  | GetRaised => []
  | GetStatus status_code page => if status_code =? 200 then page else []
  end.

(** A geocoder for the examples: it knows Kyiv only, and the entity
    recognizer finds Kyiv when the text names it. *)
Definition demo_geocoder : Geocoder := {|
  spacy_locations t := if contains (py "Kyiv") t then Some [py "Kyiv"] else Some [];
  geocode_cached calls name :=
    if str_eqb name (py "Kyiv")
    then Some (binary64 (5045 # 100), binary64 (3052 # 100), py "Kyiv, Kyiv City,  ukraine ")
    else None
|}.

(** The timestamp of a stored item is not older than the horizon: its
    [published_at] is a string that parses, and the instant it denotes (a
    naive value being read as UTC) is not before [cutoff]. *)
Definition recent {D : DateTimeLib} (cutoff : Z) (e : gmap string json) : Prop :=
  exists s pub,
    e !! "published_at"%string = Some (JStr s) /\
    fromisoformat (replace_Z s) = Some pub /\
    cutoff <= instant pub.

(** An item with the typed fields every adapter writes. *)
Definition normalized_item (e : gmap string json) : Prop :=
  (exists n, e !! "severity"%string = Some (JInt n)) /\
  (exists ts, e !! "topics"%string = Some (JList (map JStr ts))).

(** The predicates of a query hold of an item.  [supplied p v] says that the
    optional parameter [p] was supplied with value [v]. *)
Definition satisfies {D : DateTimeLib} (supplied : option str -> str -> Prop)
           (q : events_query) (cutoff : Z) (e : gmap string json) : Prop :=
  recent cutoff e /\
  (exists n, e !! "severity"%string = Some (JInt n) /\ min_severity q <= n) /\
  (forall c, supplied (category q) c -> e !! "category"%string = Some (JStr c)) /\
  (forall t, supplied (topic q) t ->
     exists ts, e !! "topics"%string = Some (JList (map JStr ts)) /\ In t ts) /\
  (breaking_only q = true -> truthy (dict_get e "is_breaking") = true) /\
  (forall s, supplied (source_type q) s -> e !! "source_type"%string = Some (JStr s)).

(** A parameter was supplied: the request gives it a value, and the value is
    not empty.  The guards [if category and ...], [if topic and ...] and
    [if source_type and ...] read an empty value as an absent parameter. *)
Definition present_nonempty (p : option str) (v : str) : Prop := p = Some v /\ v <> [].

(** The write claim as it is stated: after a batch is written, every item of
    the batch is in the store with a [fetched_at] field. *)
Definition fetched_at_claim_as_stated : Prop :=
  forall (events : list (gmap string json)) (prefix : str) (now : Z)
         (redis redis' : gmap str redis_entry),
    store_events events prefix now redis = Ok redis' ->
    forall e id, In e events -> e !! "id"%string = Some (JStr id) ->
      exists entry,
        redis' !! (prefix ++ py ":" ++ id) = Some entry /\
        is_Some (payload entry !! "fetched_at"%string).

(** ** A clock and a store for the examples *)

(** [datetime.fromisoformat] on the texts that [datetime.isoformat] writes:
    [YYYY-MM-DDTHH:MM:SS], an optional fraction of six digits and an optional
    offset [+HH:MM] or [-HH:MM]. *)
Definition digits2 (a b : N) : option Z :=
  match ascii_digit a, ascii_digit b with
  | Some x, Some y => Some (10 * Z.of_N x + Z.of_N y)
  | _, _ => None
  end.

Definition days_from_civil (y m d : Z) : Z :=
  let y := if m <=? 2 then y - 1 else y in
  let era := y / 400 in
  let yoe := y - era * 400 in
  let doy := (153 * (if 2 <? m then m - 3 else m + 9) + 2) / 5 + d - 1 in
  let doe := yoe * 365 + yoe / 4 - yoe / 100 + doy in
  era * 146097 + doe - 719468.

Definition parse_offset (s : str) : option (option Z) :=
  match s with
  | [] => Some None
  | [sg; h1; h2; c; m1; m2] =>
      match digits2 h1 h2, digits2 m1 m2 with
      | Some h, Some m =>
          if N.eqb c 58 then
            if N.eqb sg 43 then Some (Some ((h * 60 + m) * 60000000))
            else if N.eqb sg 45 then Some (Some (- ((h * 60 + m) * 60000000)))
            else None
          else None
      | _, _ => None
      end
  | _ => None
  end.

Definition parse_iso (s : str) : option datetime :=
  match s with
  | y1 :: y2 :: y3 :: y4 :: d1 :: m1 :: m2 :: d2 :: a1 :: a2 :: t ::
    h1 :: h2 :: c1 :: i1 :: i2 :: c2 :: s1 :: s2 :: rest =>
      match digits2 y1 y2, digits2 y3 y4, digits2 m1 m2, digits2 a1 a2,
            digits2 h1 h2, digits2 i1 i2, digits2 s1 s2 with
      | Some yh, Some yl, Some mo, Some da, Some ho, Some mi, Some se =>
          if N.eqb d1 45 && N.eqb d2 45 && N.eqb t 84 && N.eqb c1 58 && N.eqb c2 58 then
            let secs := ((days_from_civil (100 * yh + yl) mo da * 24 + ho) * 60 + mi) * 60 + se in
            let (frac, rest) :=
              match rest with
              | dot :: f1 :: f2 :: f3 :: f4 :: f5 :: f6 :: rest' =>
                  if N.eqb dot 46 then
                    (match digits2 f1 f2, digits2 f3 f4, digits2 f5 f6 with
                     | Some a, Some b, Some c => Some (a * 10000 + b * 100 + c)
                     | _, _, _ => None
                     end, rest')
                  else (Some 0, rest)
              | _ => (Some 0, rest)
              end in
            match frac, parse_offset rest with
            | Some us, Some tz => Some {| wall := secs * 1000000 + us; tzinfo := tz |}
            | _, _ => None
            end
          else None
      | _, _, _, _, _, _, _ => None
      end
  | _ => None
  end.

Definition iso_datetime : DateTimeLib := {| fromisoformat := parse_iso |}.

(** An item as the adapters build it. *)
Definition demo_item (id : string) (cat : string) (sev : Z) (lat lon : float)
           (published_at : string) : gmap string json :=
  {[ "id"%string := JStr (py id);
     "title"%string := JStr (py id);
     "source_type"%string := JStr (py "rss");
     "category"%string := JStr (py cat);
     "topics"%string := JList [JStr (py "war")];
     "severity"%string := JInt sev;
     "is_breaking"%string := JBool false;
     "published_at"%string := JStr (py published_at);
     "lat"%string := JFloat lat;
     "lon"%string := JFloat lon ]}.

(** 2026-11-04T12:00:00Z, in microseconds. *)
Definition demo_now : Z := 1793793600 * 1000000.

(** Four items of severity 1, 3, 4 and 5, written one hour before [demo_now]. *)
Definition demo_batch : list (gmap string json) :=
  [ demo_item "a1" "general" 1 (binary64 (5045 # 100)) (binary64 (3052 # 100))
              "2026-11-04T10:00:00+00:00";
    demo_item "a3" "conflict" 3 (binary64 (5045 # 100)) (binary64 (3052 # 100))
              "2026-11-04T10:30:00";
    demo_item "a4" "conflict" 4 (binary64 (3568 # 100)) (binary64 (13969 # 100))
              "2026-11-04T11:00:00+00:00";
    demo_item "a5" "disaster" 5 (binary64 (3568 # 100)) (binary64 (13969 # 100))
              "2026-11-04T11:30:00Z" ].

Definition demo_store (batch : list (gmap string json)) : gmap str redis_entry :=
  match store_events batch (py "event") (demo_now - 3600 * 1000000) ∅ with
  | Ok redis => redis
  | Raise _ => ∅
  end.

Definition demo_query : events_query :=
  {| category := None; topic := None; min_severity := 4; hours := 6;
     breaking_only := false; source_type := None |}.

(** An item on the equator: Libreville's longitude, latitude [0.0]. *)
Definition equator_item : gmap string json :=
  demo_item "eq" "disaster" 5 0%Q (binary64 (945 # 100)) "2026-11-04T11:30:00+00:00".

(** An entry of a feed, and the events [fetch_rss_feed] builds from it. *)
Definition demo_entry : rss_entry :=
  {| entry_title := example_text;
     entry_summary := py "<p>A strong <b>earthquake</b> was felt.</p>";
     entry_link := py "https://example.org/quake";
     entry_published := Some (py "2026-11-04T11:00:00+00:00") |}.

Definition demo_rss_events : list (gmap string json) :=
  fst (@fetch_rss_feed ascii_db demo_geocoder (py "BBC World")
                       (py "2026-11-04T12:00:00+00:00") (Some [demo_entry]) []).

(** Mirrors for the examples: the first raises, the second answers 503, the
    third answers 200 with two tweets, the fourth is never needed. *)
Definition demo_network : Network := {|
  tweet := nat;
  twitter_api := fun _ => [];
  nitter_get := fun tried instance account =>
    if str_eqb instance (py "https://nitter.net") then GetRaised
    else if str_eqb instance (py "https://nitter.it") then GetStatus 503 [7%nat]
    else if str_eqb instance (py "https://nitter.poast.org") then GetStatus 200 [1%nat; 2%nat]
    else GetStatus 200 [9%nat]
|}.

(** A coordinate that Python takes for false: [None], [0] or [0.0]. *)
Definition falsy_coordinate (v : json) : Prop :=
  v = JNull \/ v = JInt 0 \/ exists x, v = JFloat x /\ (x == 0)%Q.

(** A query with an empty [category] parameter ([GET /api/events?category=]). *)
Definition empty_category_query : events_query :=
  {| category := Some []; topic := None; min_severity := 1; hours := 6;
     breaking_only := false; source_type := None |}.

(** An executable form of [normalized_item], to check the stores of the
    examples by computation. *)
Definition is_JStr (v : json) : bool :=
  match v with JStr _ => true | _ => false end.

Definition normalized_itemb (e : gmap string json) : bool :=
  match e !! "severity"%string, e !! "topics"%string with
  | Some (JInt _), Some (JList l) => forallb is_JStr l
  | _, _ => false
  end.

(** ** Further vocabulary *)

(** The keyword table of a severity level. *)
Definition severity_table (level : Z) : list str :=
  table_get Z.eqb SEVERITY_KEYWORDS level.

(** ** The scraping jobs ([api/main.py])

    [run_rss_job], [run_gdelt_job] and [run_twitter_job] store what their
    adapter returns; an exception of the adapter or of [store_events] is
    logged and swallowed, and the store is then left as it was.  [scraped] is
    the outcome of the adapter. *)
Definition run_job (scraped : outcome (list (gmap string json))) (prefix : str) (now : Z)
           (redis : gmap str redis_entry) : gmap str redis_entry :=
  match scraped with
  | Raise _ => redis
  | Ok events =>
      match store_events events prefix now redis with
      | Ok redis' => redis'
      | Raise _ => redis
      end
  end.

Definition run_rss_job (scraped : outcome (list (gmap string json))) :=
  run_job scraped (py "event").

Definition run_gdelt_job (scraped : outcome (list (gmap string json))) :=
  run_job scraped (py "event").

Definition run_twitter_job (scraped : outcome (list (gmap string json))) :=
  run_job scraped (py "tweet").

(** [get_all_tweets()]. *)
Definition get_all_tweets (now : Z) (redis : gmap str redis_entry) : list (gmap string json) :=
  get_all_events (py "tweet") now redis.

(** ** Vocabulary for the events query *)

(** The loop body of [get_events] appends the event. *)
Definition kept {D : DateTimeLib} (q : events_query) (cutoff : Z) (e : gmap string json)
  : bool :=
  match events_filter q cutoff e with
  | Keep => true
  | _ => false
  end.

(** Newest first: the [published_at] text of an item is not below that of
    any item after it, in the order of Python strings. *)
Definition newest_first (l : list (gmap string json)) : Prop :=
  StronglySorted (fun a b => str_ltb (sort_key a) (sort_key b) = false) l.

(** An item as [demo_item] builds it, with a severity that is not a number. *)
Definition malformed_item : gmap string json :=
  <["severity"%string := JStr (py "high")]>
    (demo_item "bad" "conflict" 4 (binary64 (3568 # 100)) (binary64 (13969 # 100))
               "2026-11-04T11:00:00+00:00").

(** ** The tweets query ([get_tweets], [api/main.py]) *)

Module Tweets.

(** The parameters of [GET /api/tweets] after validation, and its response. *)
Record query := { hours : Z; account : option str; geo_only : bool }.

Record response := { count : nat; tweets : list (gmap string json) }.

End Tweets.

Section TweetsQuery.
Context {D : DateTimeLib}.

(** The loop body of [get_tweets]: is the tweet appended to [filtered]?
    No test of this loop can raise outside the [try]. *)
Definition tweets_filter (q : Tweets.query) (cutoff : Z) (t : gmap string json) : bool :=
  match published t with
  | None => false
  | Some pub =>
      if instant pub <? cutoff then false
      else if mismatch (Tweets.account q) (dict_get t "account") then false
      else if Tweets.geo_only q &&
              (negb (truthy (dict_get t "lat")) || negb (truthy (dict_get t "lon")))
      then false
      else true
  end.

Definition get_tweets (q : Tweets.query) (now : Z) (redis : gmap str redis_entry)
  : Tweets.response :=
  let tweets := get_all_tweets now redis in
  let cutoff := now - Tweets.hours q * 3600 * 1000000 in
  let filtered := List.filter (tweets_filter q cutoff) tweets in
  let filtered := sort_desc filtered in
  {| Tweets.count := List.length filtered; Tweets.tweets := firstn 200 filtered |}.

End TweetsQuery.

(** ** The dashboard summary ([get_stats], [api/main.py]) *)

(** The number a JSON scalar compares as ([True == 1 == 1.0] in Python). *)
Definition num_value (v : json) : option Q :=
  match v with
  | JBool b => Some (if b then 1%Q else 0%Q)
  | JInt n => Some (inject_Z n)
  | JFloat x => Some x
  | _ => None
  end.

(** [a == b] on two hashable values. *)
Definition py_eqb (a b : json) : bool :=
  match a, b with
  | JNull, JNull => true
  | JStr s, JStr s' => str_eqb s s'
  | _, _ =>
      match num_value a, num_value b with
      | Some x, Some y => Qeq_bool x y
      | _, _ => false
      end
  end.

(** Lists and dictionaries cannot be keys of a [dict] or members of a [set]. *)
Definition hashable (v : json) : bool :=
  match v with
  | JList _ | JObj _ => false
  | _ => true
  end.

(** [d[k] = d.get(k, 0) + 1] on a dictionary kept in insertion order. *)
Fixpoint dict_incr (k : json) (d : list (json * Z)) : list (json * Z) :=
  match d with
  | [] => [(k, 0 + 1)]
  | (k', n) :: d' =>
      if py_eqb k' k then (k', n + 1) :: d' else (k', n) :: dict_incr k d'
  end.

(** The loop [for e in events: cat = e.get("category", "general"); ...]. *)
Fixpoint categories_loop (events : list (gmap string json)) (categories : list (json * Z))
  : outcome (list (json * Z)) :=
  match events with
  | [] => Ok categories
  | e :: rest =>
      let cat := dict_get_or e "category" (JStr (py "general")) in
      if hashable cat then categories_loop rest (dict_incr cat categories)
      else Raise "TypeError"
  end.

(** [v >= n] for an integer [n]; [None] stands for [TypeError]. *)
Definition json_ge_int (v : json) (n : Z) : option bool :=
  match v with
  | JInt m => Some (n <=? m)
  | JBool b => Some (n <=? (if b then 1 else 0))
  | JFloat x => Some (Qle_bool (inject_Z n) x)
  | _ => None
  end.

(** [sum(1 for e in events if e.get("severity", 1) >= 4)]. *)
Fixpoint high_severity_sum (events : list (gmap string json)) : outcome nat :=
  match events with
  | [] => Ok O
  | e :: rest =>
      match json_ge_int (dict_get_or e "severity" (JInt 1)) 4 with
      | None => Raise "TypeError"
      | Some b =>
          match high_severity_sum rest with
          | Ok n => Ok (if b then S n else n)
          | Raise exc => Raise exc
          end
      end
  end.

(** [set(t["account"] for t in tweets)], as the list of its members. *)
Fixpoint account_set (tweets : list (gmap string json)) (seen : list json)
  : outcome (list json) :=
  match tweets with
  | [] => Ok seen
  | t :: rest =>
      match t !! "account"%string with
      | None => Raise "KeyError"
      | Some a =>
          if hashable a then
            account_set rest (if existsb (fun b => py_eqb b a) seen then seen else seen ++ [a])
          else Raise "TypeError"
      end
  end.

Record stats := {
  total_events : nat;
  total_tweets : nat;
  by_category : list (json * Z);
  breaking_count : nat;
  high_severity : nat;
  accounts_monitored : nat
}.

Definition get_stats (now : Z) (redis : gmap str redis_entry) : outcome stats :=
  let events := get_all_events (py "event") now redis in
  let tweets := get_all_events (py "tweet") now redis in
  match categories_loop events [] with
  | Raise exc => Raise exc
  | Ok categories =>
      match high_severity_sum events with
      | Raise exc => Raise exc
      | Ok high =>
          (* [len(tweets and set(...))]: an empty list is its own length *)
          match (match tweets with [] => Ok [] | _ => account_set tweets [] end) with
          | Raise exc => Raise exc
          | Ok accounts =>
              Ok {| total_events := List.length events;
                    total_tweets := List.length tweets;
                    by_category := categories;
                    breaking_count :=
                      List.length (List.filter (fun e => truthy (dict_get e "is_breaking"))
                                               events);
                    high_severity := high;
                    accounts_monitored := List.length accounts |}
          end
      end
  end.

(** The sum of the counts of a dictionary of counters. *)
Definition total_count (d : list (json * Z)) : Z :=
  fold_right (fun kv acc => snd kv + acc) 0 d.

(** A query for the tweets of the last three hours. *)
Definition demo_tweets_query : Tweets.query :=
  {| Tweets.hours := 3; Tweets.account := None; Tweets.geo_only := false |}.

(** A tweet as [_parse_tweet_text] builds it when the text resolves to no
    place: [lat] and [lon] are [None]. *)
Definition demo_tweet : gmap string json :=
  {[ "id"%string := JStr (py "t1");
     "account"%string := JStr (py "sentdefender");
     "text"%string := JStr (py "Quiet night");
     "lat"%string := JNull;
     "lon"%string := JNull;
     "category"%string := JStr (py "general");
     "topics"%string := JList [];
     "severity"%string := JInt 1;
     "is_breaking"%string := JBool false;
     "published_at"%string := JStr (py "2026-11-04T11:00:00") ]}.

(** ** Vocabulary for the adapters *)

(** An event with the fields every adapter writes, of the types and ranges
    the classification engine produces. *)
Definition well_formed_event (source_type : str) (e : gmap string json) : Prop :=
  (exists id, e !! "id"%string = Some (JStr id) /\
              List.length id = 16%nat /\ forallb is_hex id = true) /\
  e !! "source_type"%string = Some (JStr source_type) /\
  (exists lat lon, e !! "lat"%string = Some (JFloat lat) /\
                   e !! "lon"%string = Some (JFloat lon)) /\
  (exists cat, e !! "category"%string = Some (JStr cat) /\
               In cat [py "conflict"; py "disaster"; py "politics"; py "breaking";
                       py "general"]) /\
  (exists ts, e !! "topics"%string = Some (JList (map JStr ts))) /\
  (exists n, e !! "severity"%string = Some (JInt n) /\ 1 <= n <= 5) /\
  (exists b, e !! "is_breaking"%string = Some (JBool b)) /\
  (exists s, e !! "summary"%string = Some (JStr s) /\ (List.length s <= 500)%nat).

(** An item that some call of [fetch_rss_feed] returned. *)
Definition from_rss_feed {U : Unicode} {G : Geocoder} (e : gmap string json) : Prop :=
  exists source now_iso parsed calls,
    In e (fst (fetch_rss_feed source now_iso parsed calls)).

(** ** Tweets ([_parse_tweet_text], [twitter_scraper.py]) *)

(** The class [\w] of [re] on [str] patterns, another table of the Unicode
    database of the interpreter. *)
Class WordChars := { is_word : N -> bool }.

(** The ASCII part of [\w]: letters, digits and the underscore. *)
Definition ascii_word (c : N) : bool :=
  ((48 <=? c)%N && (c <=? 57)%N) || ((65 <=? c)%N && (c <=? 90)%N) ||
  ((97 <=? c)%N && (c <=? 122)%N) || N.eqb c 95.

Definition ascii_words : WordChars := {| is_word := ascii_word |}.

Section Tweets.
Context {U : Unicode} {W : WordChars} {G : Geocoder}.

(** [#(\w+)] *)
Definition _HASHTAG : list re_item :=
  [Chr (N.eqb 35); Open; Rep is_word 1 None; Close].

(** [re.findall(r'#(\w+)', text)]: the group of each match, the matches
    being searched from left to right, each after the end of the one
    before.  A match is the [#] and its group, so it ends
    [1 + len(group)] characters after its start. *)
Fixpoint findall_hashtags (fuel : nat) (s : str) : list str :=
  match fuel, s with
  | S fuel', _ :: s' =>
      match re_match _HASHTAG s [] [] with
      | Some m => group m 1 :: findall_hashtags fuel' (skipn (S (List.length (group m 1))) s)
      | None => findall_hashtags fuel' s'
      end
  | _, _ => []
  end.

(** [_parse_tweet_text(account, text, published_at, media_urls, method)]:
    the dictionary, or [None] when [_tweet_id] raises, and the geocoder's
    call history after the call. *)
Definition _parse_tweet_text (account text published_at : str) (media_urls : list str)
           (method : str) (calls : list str) : option (gmap string json) * list str :=
  let hashtags := findall_hashtags (List.length text) text in
  let (geo, calls) := resolve_geo text hashtags calls in
  (match _tweet_id account text with
   | None => None
   | Some id =>
       Some (<["id"%string := JStr id]> (<["account"%string := JStr account]>
             {[ "text"%string := JStr text;
               "url"%string := JStr (py "https://x.com/" ++ account);
               "media_urls"%string := JList (map JStr media_urls);
               "hashtags"%string := JList (map JStr hashtags);
               "location_name"%string := dict_get_or geo "location_name" (JStr []);
               "lat"%string := dict_get geo "lat";
               "lon"%string := dict_get geo "lon";
               "category"%string := JStr (classify_category text);
               "topics"%string := JList (map JStr (classify_topics text));
               "severity"%string := JInt (classify_severity text);
               "is_breaking"%string := JBool (is_breaking text);
               "published_at"%string := JStr published_at;
               "source_method"%string := JStr method ]}))
   end, calls).

End Tweets.

(** ** GDELT adapter ([scrape_gdelt], [news_scraper.py]) *)

(** An article of the [artlist] answer, with the fields [scrape_gdelt]
    reads; a field is [None] when the article has no such key.  The fields
    that are present are taken to be strings, as in GDELT's answers. *)
Record gdelt_article := {
  art_title : option str;
  art_url : option str;
  art_seendate : option str;
  art_domain : option str;
  art_socialimage : option str;
  art_seendescription : option str;
  art_sourcecountry : option str;
  art_themes : option str
}.

(** [datetime.strptime(seendate, "%Y%m%dT%H%M%SZ").isoformat()]; [None]
    stands for the exception [strptime] raises on another text. *)
Class SeenDate := { strptime_seendate : str -> option str }.

Section GdeltAdapter.
Context {U : Unicode} {G : Geocoder} {SD : SeenDate}.

(** The dictionary literal [{"id": ..., ..., **geo}] of [scrape_gdelt]. *)
Definition gdelt_event (event_id title summary url domain published_at full_text : str)
           (media_urls raw_tags : list str) (geo : gmap string json) : gmap string json :=
  geo ∪
  {[ "id"%string := JStr event_id;
     "title"%string := JStr title;
     "summary"%string := JStr summary;
     "url"%string := JStr url;
     "source"%string := JStr domain;
     "source_type"%string := JStr (py "gdelt");
     "category"%string := JStr (classify_category full_text);
     "topics"%string := JList (map JStr (classify_topics full_text));
     "severity"%string := JInt (classify_severity full_text);
     "is_breaking"%string := JBool (is_breaking full_text);
     "media_urls"%string := JList (map JStr media_urls);
     "raw_tags"%string := JList (map JStr raw_tags);
     "published_at"%string := JStr published_at ]}.

(** The two attempts at a place: the text of the article, then, when that
    gives nothing, the [sourcecountry] of the article if it has one. *)
Definition gdelt_geo (full_text : str) (sourcecountry : option str) (calls : list str)
  : gmap string json * list str :=
  let (geo, calls) := resolve_geo full_text [] calls in
  if bool_decide (geo = ∅) then
    match default [] sourcecountry with
    | [] => (geo, calls)
    | (_ :: _) as country => resolve_geo country [] calls
    end
  else (geo, calls).

(** The loop over [articles] inside the [try]; [now_iso] is the ISO text of
    the clock.  An exception of the body ([make_event_id] on a text that
    cannot be encoded) ends the loop, and the handler returns what was
    collected. *)
Fixpoint gdelt_loop (articles : list gdelt_article) (now_iso : str)
         (events : list (gmap string json)) (calls : list str)
  : list (gmap string json) * list str :=
  match articles with
  | [] => (events, calls)
  | art :: rest =>
      let title := default [] (art_title art) in
      let url := default [] (art_url art) in
      let seendate := default [] (art_seendate art) in
      let domain := default [] (art_domain art) in
      let media_urls :=
        match art_socialimage art with
        | Some ((_ :: _) as image) => [image]
        | _ => []
        end in
      let full_text := title ++ py " " ++ default [] (art_seendescription art) in
      let (geo, calls) := gdelt_geo full_text (art_sourcecountry art) calls in
      if bool_decide (geo = ∅) then gdelt_loop rest now_iso events calls
      else
        let published_at := default now_iso (strptime_seendate seendate) in
        match make_event_id url title with
        | None => (events, calls)
        | Some event_id =>
            let raw_tags :=
              match art_themes art with
              | Some ((_ :: _) as themes) => split_on 59 themes
              | _ => []
              end in
            gdelt_loop rest now_iso
              (events ++ [gdelt_event event_id title
                                      (firstn 500 (default [] (art_seendescription art)))
                                      url domain published_at full_text media_urls raw_tags
                                      geo])
              calls
        end
  end.

(** [scrape_gdelt]: [articles] is [None] when the request or the decoding of
    the answer raised, else [data.get("articles", [])]. *)
Definition scrape_gdelt (now_iso : str) (articles : option (list gdelt_article))
           (calls : list str) : list (gmap string json) * list str :=
  match articles with
  | None => ([], calls)
  | Some articles => gdelt_loop articles now_iso [] calls
  end.

End GdeltAdapter.

(** An article whose text names no place, from a known country. *)
Definition demo_article : gdelt_article :=
  {| art_title := Some (py "Protest in the capital");
     art_url := Some (py "https://example.org/protest");
     art_seendate := Some (py "20261104T110000Z");
     art_domain := Some (py "example.org");
     art_socialimage := None;
     art_seendescription := None;
     art_sourcecountry := Some (py "Kyiv");
     art_themes := Some (py "PROTEST;UNREST") |}.

(** A reader of well-formed [seendate] texts for the examples. *)
Definition demo_seendate : SeenDate :=
  {| strptime_seendate s :=
       if (List.length s =? 16)%nat
       then Some (firstn 4 s ++ py "-" ++ firstn 2 (skipn 4 s) ++ py "-" ++
                  firstn 2 (skipn 6 s) ++ py "T" ++ firstn 2 (skipn 9 s) ++ py ":" ++
                  firstn 2 (skipn 11 s) ++ py ":" ++ firstn 2 (skipn 13 s))
       else None |}.

(** An HTML tag as [re.sub(r'<[^>]+>', '', s)] sees it: a [<], one
    character or more other than [>], and a [>]. *)
Definition html_tag (t : str) : Prop :=
  exists body, t = 60%N :: body ++ [62%N] /\ body <> [] /\ ~ In 62%N body.

(** ** The list of monitored accounts ([get_accounts], [api/main.py]) *)

(** The loop [for t in tweets: acc = t.get("account", ""); ...]. *)
Fixpoint account_counts_loop (tweets : list (gmap string json))
         (account_counts : list (json * Z)) : outcome (list (json * Z)) :=
  match tweets with
  | [] => Ok account_counts
  | t :: rest =>
      let acc := dict_get_or t "account" (JStr []) in
      if hashable acc then account_counts_loop rest (dict_incr acc account_counts)
      else Raise "TypeError"
  end.

(** [d.get(k, 0)] on a dictionary of counters. *)
Definition dict_get_count (d : list (json * Z)) (k : json) : Z :=
  match List.find (fun kv => py_eqb (fst kv) k) d with
  | Some kv => snd kv
  | None => 0
  end.

(** [get_accounts]: a row [(handle, tweet_count)] for each configured
    account. *)
Definition get_accounts (OSINT_ACCOUNTS : list str) (now : Z) (redis : gmap str redis_entry)
  : outcome (list (str * Z)) :=
  let tweets := get_all_tweets now redis in
  match account_counts_loop tweets [] with
  | Raise exc => Raise exc
  | Ok account_counts =>
      Ok (map (fun acc => (acc, dict_get_count account_counts (JStr acc))) OSINT_ACCOUNTS)
  end.

(** The stored tweets of an account. *)
Definition tweets_of (acc : str) (tweets : list (gmap string json))
  : list (gmap string json) :=
  List.filter (fun t => match t !! "account"%string with
                        | Some (JStr a) => str_eqb a acc
                        | Some _ => false
                        | None => str_eqb [] acc
                        end) tweets.

(** The text of an article that [scrape_gdelt] classifies and resolves:
    [f"{title} {art.get('seendescription', '')}"]. *)
Definition article_text (art : gdelt_article) : str :=
  default [] (art_title art) ++ py " " ++ default [] (art_seendescription art).

(* ------------------------------------------------------------------ *)
(** * Properties *)

(** ** Substring tests *)

Lemma startswith_occurs (s p : str) :
  startswith s p = true <-> exists r, s = p ++ r.
Proof.
  revert s. induction p as [|c p IH]; intros s; simpl.
  - split; [intros _; exists s; reflexivity | reflexivity].
  - destruct s as [|d s]; simpl.
    + split; [discriminate | intros [r Hr]; discriminate].
    + rewrite andb_true_iff, N.eqb_eq, IH. split.
      * intros [-> [r ->]]. exists r. reflexivity.
      * intros [r Hr]. injection Hr as -> ->. split; [reflexivity | exists r; reflexivity].
Qed.

Lemma contains_occurs (kw s : str) :
  contains kw s = true <-> occurs kw s.
Proof.
  unfold occurs. induction s as [|d s IH].
  - simpl. rewrite orb_false_r, startswith_occurs. split.
    + intros [r Hr]. exists [], r. exact Hr.
    + intros [l [r Hr]]. destruct l; simpl in Hr; [exists r; exact Hr|discriminate].
  - change (contains kw (d :: s)) with (startswith (d :: s) kw || contains kw s).
    rewrite orb_true_iff, startswith_occurs, IH. split.
    + intros [[r Hr] | [l [r Hr]]].
      * exists [], r. exact Hr.
      * exists (d :: l), r. simpl. rewrite Hr. reflexivity.
    + intros [l [r Hr]]. destruct l as [|x l]; simpl in Hr.
      * left. exists r. exact Hr.
      * right. injection Hr as _ Hr. exists l, r. exact Hr.
Qed.

Lemma any_keyword_hits {U : Unicode} (keywords : list str) (text : str) :
  any_keyword keywords (str_lower text) = true <-> hits keywords text.
Proof.
  unfold hits. induction keywords as [|kw rest IH]; simpl.
  - split; [discriminate | intros [kw [[] _]]].
  - destruct (contains kw (str_lower text)) eqn:E.
    + split; [intros _ | reflexivity].
      exists kw. split; [left; reflexivity | apply contains_occurs, E].
    + rewrite IH. split.
      * intros [k [Hin Hk]]. exists k. split; [right; exact Hin | exact Hk].
      * intros [k [[<- | Hin] Hk]].
        -- apply contains_occurs in Hk. congruence.
        -- exists k. split; assumption.
Qed.

(** ** Classification: the category *)

Lemma first_category_specific {U : Unicode} (t : str) :
  first_category specific_categories t =
  if any_keyword (category_table "conflict") t then Some (py "conflict")
  else if any_keyword (category_table "disaster") t then Some (py "disaster")
  else if any_keyword (category_table "politics") t then Some (py "politics")
  else None.
Proof. reflexivity. Qed.

Lemma breaking_loop_any {U : Unicode} (kws : list str) (t : str) :
  breaking_loop kws t =
  if any_keyword kws t
  then Some (default (py "breaking") (first_category specific_categories t))
  else None.
Proof.
  induction kws as [|kw rest IH]; [reflexivity|].
  cbn [breaking_loop any_keyword]. destruct (contains kw t); [|exact IH].
  destruct (first_category specific_categories t); reflexivity.
Qed.

(** The result of [classify_category] as a cascade over the four tables. *)
Lemma classify_category_cascade {U : Unicode} (text : str) :
  classify_category text =
  if any_keyword (category_table "conflict") (str_lower text) then py "conflict"
  else if any_keyword (category_table "disaster") (str_lower text) then py "disaster"
  else if any_keyword (category_table "politics") (str_lower text) then py "politics"
  else if any_keyword (category_table "breaking") (str_lower text) then py "breaking"
  else py "general".
Proof.
  unfold classify_category. cbv zeta. rewrite breaking_loop_any.
  change (table_get str_eqb CATEGORY_KEYWORDS (py "breaking")) with (category_table "breaking").
  rewrite first_category_specific.
  destruct (any_keyword (category_table "breaking") (str_lower text));
    destruct (any_keyword (category_table "conflict") (str_lower text));
    destruct (any_keyword (category_table "disaster") (str_lower text));
    destruct (any_keyword (category_table "politics") (str_lower text)); reflexivity.
Qed.

(** C3. [classify_category] implements the demotion rule: a text that hits
    the conflict table is "conflict"; otherwise one that hits the disaster
    table is "disaster"; otherwise one that hits the politics table is
    "politics", whether or not a breaking keyword occurs; "breaking" is
    returned exactly when a breaking keyword occurs and none of the three
    tables is hit; "general" exactly when no table is hit.  The result is
    always one of the five labels. *)
Theorem classify_category_demotion {U : Unicode} (text : str) :
  (classify_category text = py "conflict" <-> hits (category_table "conflict") text) /\
  (classify_category text = py "disaster" <->
     ~ hits (category_table "conflict") text /\ hits (category_table "disaster") text) /\
  (classify_category text = py "politics" <->
     ~ hits (category_table "conflict") text /\ ~ hits (category_table "disaster") text /\
     hits (category_table "politics") text) /\
  (classify_category text = py "breaking" <->
     hits (category_table "breaking") text /\
     ~ hits (category_table "conflict") text /\ ~ hits (category_table "disaster") text /\
     ~ hits (category_table "politics") text) /\
  (classify_category text = py "general" <->
     ~ hits (category_table "breaking") text /\
     ~ hits (category_table "conflict") text /\ ~ hits (category_table "disaster") text /\
     ~ hits (category_table "politics") text) /\
  In (classify_category text)
     [py "conflict"; py "disaster"; py "politics"; py "breaking"; py "general"].
Proof.
  rewrite classify_category_cascade.
  rewrite <- !any_keyword_hits.
  destruct (any_keyword (category_table "conflict") (str_lower text));
    destruct (any_keyword (category_table "disaster") (str_lower text));
    destruct (any_keyword (category_table "politics") (str_lower text));
    destruct (any_keyword (category_table "breaking") (str_lower text));
    repeat split;
    try (intros H; vm_compute in H; discriminate H);
    try (intros H; intuition discriminate);
    try (intros [H _]; exfalso; apply H; reflexivity);
    try discriminate;
    try (simpl; tauto).
Qed.

(** ** Classification: the topics *)

Lemma topics_loop_filter {U : Unicode} (items : list (str * list str)) (t : str)
      (matched : list str) :
  topics_loop items t matched =
  matched ++ map fst (List.filter (fun it => any_keyword (snd it) t) items).
Proof.
  revert matched. induction items as [|[topic keywords] rest IH]; intros matched.
  - simpl. rewrite app_nil_r. reflexivity.
  - cbn [topics_loop List.filter snd]. rewrite IH.
    destruct (any_keyword keywords t); [|reflexivity].
    rewrite <- app_assoc. reflexivity.
Qed.

Lemma filter_permutation {A : Type} (f : A -> bool) (l l' : list A) :
  Permutation l l' -> Permutation (List.filter f l) (List.filter f l').
Proof.
  induction 1 as [|x l l' _ IH|x y l|l l' l'' _ IH1 _ IH2]; simpl.
  - constructor.
  - destruct (f x); [constructor|]; exact IH.
  - destruct (f x), (f y); try reflexivity. constructor.
  - etransitivity; eassumption.
Qed.

Lemma classify_topics_over_in {U : Unicode} (table : list (str * list str))
      (text label : str) :
  In label (classify_topics_over table text) <->
  exists keywords, In (label, keywords) table /\ hits keywords text.
Proof.
  unfold classify_topics_over. cbv zeta. rewrite topics_loop_filter. cbn [app].
  rewrite in_map_iff. split.
  - intros [[l kws] [<- Hin]]. apply filter_In in Hin as [Hin Hany].
    exists kws. split; [exact Hin | apply any_keyword_hits, Hany].
  - intros [kws [Hin Hhit]]. exists (label, kws). split; [reflexivity|].
    apply filter_In. split; [exact Hin | apply any_keyword_hits, Hhit].
Qed.

(** C8. The labels [classify_topics] returns are exactly those of the five
    topic tables that contain a keyword occurring, case-insensitively, in the
    text; and evaluating the tables in any other order returns the same
    labels (a permutation of the list). *)
Theorem classify_topics_union {U : Unicode} (text : str) :
  map fst TOPIC_KEYWORDS =
    [py "war"; py "protests"; py "christian_persecution"; py "terrorism";
     py "natural_disasters"] /\
  (forall label,
     In label (classify_topics text) <->
     exists keywords, In (label, keywords) TOPIC_KEYWORDS /\ hits keywords text) /\
  (forall table,
     Permutation TOPIC_KEYWORDS table ->
     Permutation (classify_topics text) (classify_topics_over table text) /\
     forall label,
       In label (classify_topics_over table text) <-> In label (classify_topics text)).
Proof.
  split; [reflexivity|]. split.
  - intros label. apply classify_topics_over_in.
  - intros table Hperm. split.
    + unfold classify_topics, classify_topics_over. cbv zeta.
      rewrite !topics_loop_filter. cbn [app].
      apply Permutation_map, filter_permutation, Hperm.
    + intros label. unfold classify_topics. rewrite !classify_topics_over_in.
      split; intros [kws [Hin Hhit]]; exists kws; split; try exact Hhit.
      * eapply Permutation_in; [symmetry; exact Hperm | exact Hin].
      * eapply Permutation_in; [exact Hperm | exact Hin].
Qed.

(** A text may match no topic, one topic, or several. *)
Example classify_topics_none :
  @classify_topics ascii_db (py "Quiet day at the office") = [].
Proof. vm_compute. reflexivity. Qed.

Example classify_topics_one :
  @classify_topics ascii_db (py "Volcano ERUPTS near the village") = [py "natural_disasters"].
Proof. vm_compute. reflexivity. Qed.

Example classify_topics_several :
  @classify_topics ascii_db (py "Church attack after the earthquake: riot, troops deployed")
  = [py "war"; py "protests"; py "christian_persecution"; py "natural_disasters"].
Proof. vm_compute. reflexivity. Qed.

(** ** The matcher sees only the code points of the text *)

Section MatcherAgreement.
Variable P : N -> Prop.

Lemma Forall_skipn_str (n : nat) (s : str) : Forall P s -> Forall P (skipn n s).
Proof.
  revert s. induction n as [|n IH]; intros s Hs; [exact Hs|].
  destruct s as [|c s]; [constructor|]. apply IH. inversion Hs; assumption.
Qed.

Lemma Forall_firstn_str (n : nat) (s : str) : Forall P s -> Forall P (firstn n s).
Proof.
  revert s. induction n as [|n IH]; intros s Hs; [constructor|].
  destruct s as [|c s]; [constructor|]. inversion Hs; subst.
  simpl. constructor; [assumption | apply IH; assumption].
Qed.

Lemma span_agree (p q : N -> bool) (hi : option nat) (s : str) :
  (forall c, P c -> p c = q c) -> Forall P s -> span p hi s = span q hi s.
Proof.
  intros Hpq. revert hi. induction s as [|c s IH]; intros hi Hs.
  - destruct hi as [[|h]|]; reflexivity.
  - inversion Hs as [|? ? Hc Hs']; subst.
    destruct hi as [[|h]|]; simpl; rewrite ?(Hpq c Hc); try reflexivity;
      destruct (q c); try reflexivity; f_equal; apply IH; assumption.
Qed.

Lemma give_back_agree (k k' : str -> option (list str)) (lo : nat) (s : str) (n : nat) :
  (forall s', Forall P s' -> k s' = k' s') -> Forall P s ->
  give_back k lo s n = give_back k' lo s n.
Proof.
  intros Hk Hs. induction n as [|n IH]; cbn [give_back];
    rewrite (Hk _ (Forall_skipn_str _ _ Hs)).
  - reflexivity.
  - destruct (S n <? lo)%nat; [reflexivity|].
    destruct (k' (skipn (S n) s)); [reflexivity | exact IH].
Qed.

Lemma re_match_agree (pat pat' : list re_item) :
  Forall2 (item_agree P) pat pat' ->
  forall s opened groups, Forall P s ->
    re_match pat s opened groups = re_match pat' s opened groups.
Proof.
  induction 1 as [|i j pat pat' Hij _ IH]; intros s opened groups Hs; [reflexivity|].
  destruct i, j; simpl in Hij; try contradiction.
  - destruct s as [|c s]; [reflexivity|]. inversion Hs; subst. simpl.
    rewrite (Hij c) by assumption. destruct (p0 c); [apply IH; assumption | reflexivity].
  - destruct Hij as [<- [<- Hpq]]. simpl.
    rewrite (span_agree p p0 hi s Hpq Hs).
    apply give_back_agree; [|exact Hs]. intros s' Hs'. apply IH, Hs'.
  - simpl. apply IH, Hs.
  - simpl. destruct opened; [reflexivity | apply IH, Hs].
Qed.

Lemma re_search_agree (pat pat' : list re_item) (s : str) :
  Forall2 (item_agree P) pat pat' -> Forall P s ->
  re_search pat s = re_search pat' s.
Proof.
  intros Hpat. induction s as [|c s IH]; intros Hs; simpl;
    rewrite (re_match_agree pat pat' Hpat _ [] [] Hs).
  - reflexivity.
  - destruct (re_match pat' (c :: s) [] []); [reflexivity|].
    apply IH. inversion Hs; assumption.
Qed.

Lemma give_back_some (k : str -> option (list str)) (lo : nat) (s : str) (n : nat)
      (r : list str) :
  give_back k lo s n = Some r -> exists m, k (skipn m s) = Some r.
Proof.
  induction n as [|n IH]; cbn [give_back].
  - destruct (0 <? lo)%nat; [discriminate|].
    destruct (k (skipn 0 s)) eqn:E; [|discriminate]. intros [= <-]. exists O. exact E.
  - destruct (S n <? lo)%nat; [discriminate|].
    destruct (k (skipn (S n) s)) eqn:E.
    + intros [= <-]. exists (S n). exact E.
    + exact IH.
Qed.

(** The captured groups are made of code points of the text. *)
Lemma re_match_groups (pat : list re_item) :
  forall s opened groups r,
    re_match pat s opened groups = Some r ->
    Forall P s -> Forall (Forall P) opened -> Forall (Forall P) groups ->
    Forall (Forall P) r.
Proof.
  induction pat as [|i pat IH]; intros s opened groups r Hm Hs Ho Hg.
  - simpl in Hm. injection Hm as <-. exact Hg.
  - destruct i; simpl in Hm.
    + destruct s as [|c s]; [discriminate|]. destruct (p c); [|discriminate].
      inversion Hs; subst. eapply IH; eauto.
    + apply give_back_some in Hm as [m Hm].
      eapply IH; [exact Hm | apply Forall_skipn_str, Hs | exact Ho | exact Hg].
    + eapply IH; [exact Hm | exact Hs | constructor; assumption | exact Hg].
    + destruct opened as [|start opened]; [discriminate|].
      inversion Ho; subst.
      eapply IH; [exact Hm | exact Hs | assumption |].
      apply Forall_app. split; [exact Hg|].
      constructor; [apply Forall_firstn_str; assumption | constructor].
Qed.

Lemma re_search_groups (pat : list re_item) (s : str) (r : list str) :
  re_search pat s = Some r -> Forall P s -> Forall (Forall P) r.
Proof.
  induction s as [|c s IH]; simpl; intros Hr Hs.
  - destruct (re_match pat [] [] []) eqn:E; [|discriminate].
    injection Hr as <-. eapply re_match_groups; eauto.
  - destruct (re_match pat (c :: s) [] []) eqn:E.
    + injection Hr as <-. eapply re_match_groups; eauto.
    + apply IH; [exact Hr | inversion Hs; assumption].
Qed.

Lemma group_Forall (m : list str) (i : nat) :
  Forall (Forall P) m -> Forall P (group m i).
Proof.
  unfold group. generalize (i - 1)%nat as n. intros n Hm. revert n.
  induction Hm as [|g m Hg _ IH]; intros [|n]; simpl; auto.
Qed.

End MatcherAgreement.

(** ** Agreement with the ASCII tables on a text *)

Lemma ascii_like_ascii_db (s : str) : ascii_like ascii_db s.
Proof.
  split; [reflexivity|]. apply Forall_forall. intros c _. split; reflexivity.
Qed.

Lemma is_digit_same_class (U : Unicode) (c : N) :
  same_class U c -> @is_digit U c = @is_digit ascii_db c.
Proof. intros [Hd _]. unfold is_digit. rewrite Hd. reflexivity. Qed.

Lemma is_space_same_class (U : Unicode) (c : N) :
  same_class U c -> @is_space U c = @is_space ascii_db c.
Proof. intros [_ Hs]. exact Hs. Qed.

Ltac agree_class :=
  let c := fresh "c" in
  let Hc := fresh "Hc" in
  intros c Hc;
  first [ reflexivity
        | apply is_digit_same_class, Hc
        | apply is_space_same_class, Hc ].

Ltac agree_item :=
  cbn [item_agree];
  first [ exact I
        | agree_class
        | split; [reflexivity | split; [reflexivity | agree_class]] ].

Lemma decimal_pattern_agree (U : Unicode) :
  Forall2 (item_agree (same_class U)) (@_DECIMAL_COORD U) (@_DECIMAL_COORD ascii_db).
Proof.
  unfold _DECIMAL_COORD, signed_decimal. cbn [app].
  repeat (constructor; [agree_item|]). constructor.
Qed.

Lemma dms_pattern_agree (U : Unicode) :
  Forall2 (item_agree (same_class U)) (@_DMS_COORD U) (@_DMS_COORD ascii_db).
Proof.
  unfold _DMS_COORD, dms_half. cbn [app].
  repeat (constructor; [agree_item|]). constructor.
Qed.

Lemma int_of_str_agree (U : Unicode) (s : str) :
  Forall (same_class U) s -> @int_of_str U s = @int_of_str ascii_db s.
Proof.
  unfold int_of_str. generalize 0. induction s as [|c s IH]; intros acc Hs; [reflexivity|].
  inversion Hs as [|? ? [Hd _] Hs']; subst. simpl. rewrite Hd. apply IH, Hs'.
Qed.

Lemma before_chr_Forall (P : N -> Prop) (c0 : N) (s : str) :
  Forall P s -> Forall P (before_chr c0 s).
Proof.
  induction 1 as [|c s Hc _ IH]; simpl; [constructor|].
  destruct (N.eqb c c0); constructor; assumption.
Qed.

Lemma after_chr_Forall (P : N -> Prop) (c0 : N) (s : str) :
  Forall P s -> Forall P (after_chr c0 s).
Proof.
  induction 1 as [|c s Hc Hs IH]; simpl; [constructor|].
  destruct (N.eqb c c0); assumption.
Qed.

Lemma float_of_str_agree (U : Unicode) (s : str) :
  Forall (same_class U) s -> @float_of_str U s = @float_of_str ascii_db s.
Proof.
  intros Hs. unfold float_of_str. cbv zeta.
  assert (Hb : Forall (same_class U)
                 (if match s with c :: _ => N.eqb c 45 | [] => false end then tl s else s)).
  { destruct s as [|c s]; [constructor|]. destruct (N.eqb c 45); [|exact Hs].
    simpl. inversion Hs; assumption. }
  rewrite (int_of_str_agree U); [reflexivity|].
  apply Forall_app. split; [apply before_chr_Forall | apply after_chr_Forall]; exact Hb.
Qed.

Lemma extract_decimal_coords_agree (U : Unicode) (text : str) :
  Forall (same_class U) text ->
  @extract_decimal_coords U text = @extract_decimal_coords ascii_db text.
Proof.
  intros Ht. unfold extract_decimal_coords.
  rewrite (re_search_agree _ _ _ text (decimal_pattern_agree U) Ht).
  destruct (re_search _DECIMAL_COORD text) as [m|] eqn:E; [|reflexivity].
  pose proof (re_search_groups _ _ _ _ E Ht) as Hm.
  rewrite !(float_of_str_agree U) by (apply group_Forall, Hm). reflexivity.
Qed.

Lemma extract_dms_coords_agree (U : Unicode) (text : str) :
  Forall (same_class U) text ->
  @extract_dms_coords U text = @extract_dms_coords ascii_db text.
Proof.
  intros Ht. unfold extract_dms_coords.
  rewrite (re_search_agree _ _ _ text (dms_pattern_agree U) Ht).
  destruct (re_search _DMS_COORD text) as [m|] eqn:E; [|reflexivity].
  pose proof (re_search_groups _ _ _ _ E Ht) as Hm.
  rewrite !(int_of_str_agree U) by (apply group_Forall, Hm). reflexivity.
Qed.

Lemma raw_coords_agree (U : Unicode) (text : str) :
  ascii_like U text -> @raw_coords U text = @raw_coords ascii_db text.
Proof.
  intros [_ Ht]. unfold raw_coords.
  rewrite extract_decimal_coords_agree, extract_dms_coords_agree by exact Ht. reflexivity.
Qed.

Lemma classify_category_agree (U : Unicode) (text : str) :
  ascii_like U text -> @classify_category U text = @classify_category ascii_db text.
Proof. intros [Hl _]. unfold classify_category. rewrite Hl. reflexivity. Qed.

Lemma classify_topics_agree (U : Unicode) (text : str) :
  ascii_like U text -> @classify_topics U text = @classify_topics ascii_db text.
Proof.
  intros [Hl _]. unfold classify_topics, classify_topics_over. rewrite Hl. reflexivity.
Qed.

Lemma classify_severity_agree (U : Unicode) (text : str) :
  ascii_like U text -> @classify_severity U text = @classify_severity ascii_db text.
Proof. intros [Hl _]. unfold classify_severity. rewrite Hl. reflexivity. Qed.

(** ** Coordinate extractor *)

(** The decimal extractor validates what it returns: for every text and every
    Unicode database, a returned pair lies in [[-90, 90] x [-180, 180]]. *)
Lemma extract_decimal_coords_in_range {U : Unicode} (text : str) (p : float * float) :
  extract_decimal_coords text = Some p -> in_range p.
Proof.
  unfold extract_decimal_coords, in_range, float_le.
  destruct (re_search _DECIMAL_COORD text) as [m|]; [|discriminate].
  cbv zeta.
  destruct (Qle_bool (-90) (float_of_str (group m 1))) eqn:E1; [|discriminate].
  destruct (Qle_bool (float_of_str (group m 1)) 90) eqn:E2; [|discriminate].
  destruct (Qle_bool (-180) (float_of_str (group m 2))) eqn:E3; [|discriminate].
  destruct (Qle_bool (float_of_str (group m 2)) 180) eqn:E4; [|discriminate].
  intros [= <-]. simpl. rewrite <- !Qle_bool_iff. auto.
Qed.

(** A decimal match outside the range is discarded, and no later match is
    looked for. *)
Example extract_decimal_coords_discards :
  @extract_decimal_coords ascii_db (py "x 91.5, 10.0 and 45.5,10.25") = None.
Proof. vm_compute. reflexivity. Qed.

(** C1. The degree-minute extractor does not validate: on the text
    [at 91°30′N 181°15′W now] it returns the pair [(91.5, -181.25)], which is
    outside [[-90, 90] x [-180, 180]], and [resolve_geo]'s first stage
    returns it as well. *)
Theorem extract_dms_coords_out_of_range (U : Unicode) :
  ascii_like U dms_text ->
  extract_dms_coords dms_text = Some (183 # 2, - 725 # 4)%Q /\
  raw_coords dms_text = Some (183 # 2, - 725 # 4)%Q /\
  ~ in_range (183 # 2, - 725 # 4)%Q.
Proof.
  intros H. split; [|split].
  - rewrite extract_dms_coords_agree by apply H. vm_compute. reflexivity.
  - rewrite raw_coords_agree by exact H. vm_compute. reflexivity.
  - unfold in_range. simpl. intros [_ [H90 _]].
    apply Qle_bool_iff in H90. vm_compute in H90. discriminate.
Qed.

Lemma extract_dms_coords_out_of_range_witness :
  ascii_like ascii_db dms_text /\
  @extract_dms_coords ascii_db dms_text = Some (183 # 2, - 725 # 4)%Q /\
  @raw_coords ascii_db dms_text = Some (183 # 2, - 725 # 4)%Q /\
  ~ in_range (183 # 2, - 725 # 4)%Q.
Proof.
  split; [apply ascii_like_ascii_db|].
  apply (extract_dms_coords_out_of_range ascii_db), ascii_like_ascii_db.
Defined.

(** ** The example of the specification *)

(** C2, as the code has it.  On the example text the coordinate stage
    returns [(35.68, 139.69)] and the topics include "natural_disasters", but
    the category is "conflict" (the conflict keyword "strike" occurs in
    "strikes", and the conflict table is tried before the disaster table) and
    the severity is 1 (no severity keyword occurs). *)
Theorem example_as_implemented (U : Unicode) :
  ascii_like U example_text ->
  raw_coords example_text = Some (binary64 (3568 # 100), binary64 (13969 # 100)) /\
  classify_category example_text = py "conflict" /\
  In (py "natural_disasters") (classify_topics example_text) /\
  classify_severity example_text = 1.
Proof.
  intros H.
  rewrite raw_coords_agree, classify_category_agree, classify_topics_agree,
    classify_severity_agree by exact H.
  repeat split; try (vm_compute; reflexivity).
  vm_compute. right. left. reflexivity.
Qed.

Lemma example_as_implemented_witness :
  ascii_like ascii_db example_text /\
  @raw_coords ascii_db example_text = Some (binary64 (3568 # 100), binary64 (13969 # 100)) /\
  @classify_category ascii_db example_text = py "conflict" /\
  In (py "natural_disasters") (@classify_topics ascii_db example_text) /\
  @classify_severity ascii_db example_text = 1.
Proof.
  split; [apply ascii_like_ascii_db|].
  apply (example_as_implemented ascii_db), ascii_like_ascii_db.
Defined.

(** C2, as it is stated, fails: under no Unicode database that treats the
    example text as Python does is the category "disaster" (nor is the
    severity at least 3). *)
Lemma example_as_specified_fails :
  ~ exists U : Unicode, ascii_like U example_text /\ example_as_specified U.
Proof.
  intros [U [H [_ [Hcat _]]]].
  rewrite classify_category_agree in Hcat by exact H.
  vm_compute in Hcat. discriminate Hcat.
Qed.

Lemma example_severity_below_three :
  ~ exists U : Unicode, ascii_like U example_text /\ 3 <= classify_severity example_text.
Proof.
  intros [U [H Hsev]].
  rewrite classify_severity_agree in Hsev by exact H.
  vm_compute in Hsev. apply Hsev. reflexivity.
Qed.

(** ** Identity functions *)

Lemma hex_digit_is_hex (x : Z) : is_hex (SHA256.hex_digit x) = true.
Proof.
  unfold SHA256.hex_digit.
  pose proof (Z.mod_pos_bound x 16 ltac:(lia)) as Hd.
  set (d := x mod 16) in *.
  assert (Hcases : d = 0 \/ d = 1 \/ d = 2 \/ d = 3 \/ d = 4 \/ d = 5 \/ d = 6 \/ d = 7 \/
                   d = 8 \/ d = 9 \/ d = 10 \/ d = 11 \/ d = 12 \/ d = 13 \/ d = 14 \/ d = 15)
    by lia.
  clearbody d.
  repeat (destruct Hcases as [-> | Hcases]; [reflexivity|]).
  subst d. reflexivity.
Qed.

Lemma hexdigest_prefix (msg : list Z) :
  List.length (firstn 16 (SHA256.hexdigest msg)) = 16%nat /\
  forallb is_hex (firstn 16 (SHA256.hexdigest msg)) = true.
Proof.
  unfold SHA256.hexdigest, SHA256.hex8. cbv zeta. cbn [firstn app List.length forallb].
  rewrite !hex_digit_is_hex. split; reflexivity.
Qed.

Lemma utf8_char_total (c : N) : scalar_value c -> exists bs, utf8_char c = Some bs.
Proof.
  unfold scalar_value, utf8_char. intros Hc. cbv zeta.
  destruct (Z.ltb_spec (Z.of_N c) 0x80); [eexists; reflexivity|].
  destruct (Z.ltb_spec (Z.of_N c) 0x800); [eexists; reflexivity|].
  destruct (Z.ltb_spec (Z.of_N c) 0x10000).
  - destruct (Z.leb_spec 0xD800 (Z.of_N c)); [|eexists; reflexivity].
    destruct (Z.leb_spec (Z.of_N c) 0xDFFF); [lia | eexists; reflexivity].
  - destruct (Z.ltb_spec (Z.of_N c) 0x110000); [eexists; reflexivity | lia].
Qed.

Lemma encode_total (s : str) : Forall scalar_value s -> exists bs, encode s = Some bs.
Proof.
  induction 1 as [|c s Hc _ [rest IH]]; [exists []; reflexivity|].
  destruct (utf8_char_total c Hc) as [bs Hbs].
  exists (bs ++ rest). simpl. rewrite Hbs, IH. reflexivity.
Qed.

Lemma make_event_id_shape (url title id : str) :
  make_event_id url title = Some id ->
  List.length id = 16%nat /\ forallb is_hex id = true.
Proof.
  unfold make_event_id. destruct (encode (url ++ title)) as [bs|]; [|discriminate].
  intros [= <-]. apply hexdigest_prefix.
Qed.

Lemma _tweet_id_shape (account text id : str) :
  _tweet_id account text = Some id ->
  List.length id = 16%nat /\ forallb is_hex id = true.
Proof.
  unfold _tweet_id. destruct (encode (account ++ firstn 80 text)) as [bs|]; [|discriminate].
  intros [= <-]. apply hexdigest_prefix.
Qed.

(** C6. The identity functions are deterministic.  Two calls of
    [make_event_id] with the same [(url, title)] have the same outcome, and
    two calls of [_tweet_id] with the same account and texts that agree on
    their first 80 characters have the same outcome; the outcome depends on
    nothing else (no clock, no store, no cycle).  When the text can be
    encoded (it holds no lone surrogate, the one case in which [str.encode]
    raises), the outcome is an id of 16 lower-case hexadecimal characters. *)
Theorem identity_deterministic (url1 title1 url2 title2 account text1 text2 : str) :
  url1 = url2 -> title1 = title2 -> firstn 80 text1 = firstn 80 text2 ->
  make_event_id url1 title1 = make_event_id url2 title2 /\
  _tweet_id account text1 = _tweet_id account text2 /\
  (Forall scalar_value (url1 ++ title1) ->
   exists id, make_event_id url1 title1 = Some id /\ make_event_id url2 title2 = Some id /\
              List.length id = 16%nat /\ forallb is_hex id = true) /\
  (Forall scalar_value (account ++ firstn 80 text1) ->
   exists id, _tweet_id account text1 = Some id /\ _tweet_id account text2 = Some id /\
              List.length id = 16%nat /\ forallb is_hex id = true).
Proof.
  intros <- <- Htext.
  assert (Ht : _tweet_id account text1 = _tweet_id account text2)
    by (unfold _tweet_id; rewrite Htext; reflexivity).
  split; [reflexivity|]. split; [exact Ht|]. split.
  - intros Hs. destruct (encode_total _ Hs) as [bs Hbs].
    exists (firstn 16 (SHA256.hexdigest bs)).
    unfold make_event_id. rewrite Hbs. repeat split; apply hexdigest_prefix.
  - intros Hs. destruct (encode_total _ Hs) as [bs Hbs].
    exists (firstn 16 (SHA256.hexdigest bs)). rewrite <- Ht.
    unfold _tweet_id. rewrite Hbs. repeat split; apply hexdigest_prefix.
Qed.

(** Two texts that differ only after their 80th character, and an item seen
    in two cycles: the ids are those of [hashlib]. *)
Lemma identity_deterministic_witness :
  make_event_id (py "https://example.org/a?b=1") (py "Earthquake strikes") =
    make_event_id (py "https://example.org/a?b=1") (py "Earthquake strikes") /\
  _tweet_id (py "sentdefender") (repeat 120%N 80 ++ py " first ending") =
    _tweet_id (py "sentdefender") (repeat 120%N 80 ++ py " another ending") /\
  make_event_id (py "https://example.org/a?b=1") (py "Earthquake strikes")
    = Some (py "c94ae97c7231797f") /\
  _tweet_id (py "sentdefender") (repeat 120%N 80 ++ py " first ending")
    = Some (py "b7d7d1505c1b2fff").
Proof.
  pose proof (identity_deterministic
                (py "https://example.org/a?b=1") (py "Earthquake strikes")
                (py "https://example.org/a?b=1") (py "Earthquake strikes")
                (py "sentdefender")
                (repeat 120%N 80 ++ py " first ending")
                (repeat 120%N 80 ++ py " another ending")
                eq_refl eq_refl eq_refl) as [H1 [H2 _]].
  split; [exact H1|]. split; [exact H2|]. split; vm_compute; reflexivity.
Defined.

(** ** Geo-resolution pipeline *)

Section GeoProperties.
Context {U : Unicode} {G : Geocoder}.

(** The candidate names, in the order in which they are tried. *)
Lemma resolve_geo_candidates (text : str) (hints calls : list str) :
  raw_coords text = None ->
  resolve_geo text hints calls =
  geocode_first (hints ++ extract_locations_spacy text) calls.
Proof.
  intros Hraw. unfold resolve_geo. rewrite Hraw. destruct hints; reflexivity.
Qed.

Lemma geocode_first_success (tried : list str) :
  forall (calls : list str) (loc : str) (rest : list str) (lat lon : float) (display : str),
    (forall i name, tried !! i = Some name ->
                    geocode_cached (calls ++ firstn i tried) name = None) ->
    geocode_cached (calls ++ tried) loc = Some (lat, lon, display) ->
    geocode_first (tried ++ loc :: rest) calls =
    (geocoded loc lat lon display, calls ++ tried ++ [loc]).
Proof.
  induction tried as [|name tried IH]; intros calls loc rest lat lon display Hfail Hok.
  - simpl. rewrite app_nil_r in Hok. rewrite Hok. reflexivity.
  - simpl. pose proof (Hfail O name eq_refl) as H0. simpl in H0.
    rewrite app_nil_r in H0. rewrite H0.
    rewrite (IH (calls ++ [name]) loc rest lat lon display).
    + rewrite <- !app_assoc. reflexivity.
    + intros i n Hi. rewrite <- app_assoc. exact (Hfail (S i) n Hi).
    + rewrite <- app_assoc. exact Hok.
Qed.

Lemma geocode_first_failure (names : list str) :
  forall calls : list str,
    (forall i name, names !! i = Some name ->
                    geocode_cached (calls ++ firstn i names) name = None) ->
    geocode_first names calls = (∅, calls ++ names).
Proof.
  induction names as [|name names IH]; intros calls Hfail.
  - simpl. rewrite app_nil_r. reflexivity.
  - simpl. pose proof (Hfail O name eq_refl) as H0. simpl in H0.
    rewrite app_nil_r in H0. rewrite H0.
    rewrite (IH (calls ++ [name])).
    + rewrite <- app_assoc. reflexivity.
    + intros i n Hi. rewrite <- app_assoc. exact (Hfail (S i) n Hi).
Qed.

(** C7. [resolve_geo] is an ordered fallback in which the first success
    wins.  (1) The coordinate stage is the decimal extractor, then the
    degree-minute one.  (2) When it finds a pair, that pair is returned with
    an empty [location_name] and [country_code], and the geocoder's call
    history is unchanged: no name is looked up.  (3) Otherwise the
    candidates are [hint_locations] followed by the names extracted from the
    text; they are looked up in that order, the first one that geocodes
    gives the result (its coordinates, and its name as [location_name]), and
    no later candidate is looked up.  (4) When every candidate fails the
    result is the empty dictionary, after each candidate was looked up
    once. *)
Theorem resolve_geo_fallback (text : str) (hints calls : list str) :
  raw_coords text =
    match extract_decimal_coords text with
    | Some p => Some p
    | None => extract_dms_coords text
    end /\
  (forall lat lon,
      raw_coords text = Some (lat, lon) ->
      resolve_geo text hints calls =
      ({[ "lat"%string := JFloat lat; "lon"%string := JFloat lon;
          "location_name"%string := JStr []; "country_code"%string := JStr [] ]}, calls)) /\
  (raw_coords text = None ->
   forall candidates, candidates = hints ++ extract_locations_spacy text ->
     (forall tried loc rest lat lon display,
         candidates = tried ++ loc :: rest ->
         (forall i name, tried !! i = Some name ->
                         geocode_cached (calls ++ firstn i tried) name = None) ->
         geocode_cached (calls ++ tried) loc = Some (lat, lon, display) ->
         exists geo,
           resolve_geo text hints calls = (geo, calls ++ tried ++ [loc]) /\
           geo !! "lat"%string = Some (JFloat lat) /\
           geo !! "lon"%string = Some (JFloat lon) /\
           geo !! "location_name"%string = Some (JStr loc)) /\
     ((forall i name, candidates !! i = Some name ->
                      geocode_cached (calls ++ firstn i candidates) name = None) ->
      resolve_geo text hints calls = (∅, calls ++ candidates))).
Proof.
  split; [unfold raw_coords, or_else; destruct (extract_decimal_coords text); reflexivity|].
  split.
  - intros lat lon Hraw. unfold resolve_geo. rewrite Hraw. reflexivity.
  - intros Hraw candidates ->. rewrite (resolve_geo_candidates text hints calls Hraw). split.
    + intros tried loc rest lat lon display Hc Hfail Hok.
      exists (geocoded loc lat lon display). rewrite Hc. split.
      * apply geocode_first_success; assumption.
      * unfold geocoded. cbv zeta. repeat split; reflexivity.
    + intros Hfail. apply geocode_first_failure, Hfail.
Qed.

End GeoProperties.

(** The three outcomes of [resolve_geo] on concrete texts: raw coordinates
    without any lookup, the first candidate that geocodes (after a hint that
    does not), and the empty dictionary. *)
Example resolve_geo_coordinates :
  @resolve_geo ascii_db demo_geocoder example_text [py "Kyiv"] [] =
  ({[ "lat"%string := JFloat (binary64 (3568 # 100));
      "lon"%string := JFloat (binary64 (13969 # 100));
      "location_name"%string := JStr []; "country_code"%string := JStr [] ]}, []).
Proof. vm_compute. reflexivity. Qed.

Example resolve_geo_second_candidate :
  @resolve_geo ascii_db demo_geocoder (py "Explosion reported in Kyiv") [py "Atlantis"] [] =
  ({[ "lat"%string := JFloat (binary64 (5045 # 100));
      "lon"%string := JFloat (binary64 (3052 # 100));
      "location_name"%string := JStr (py "Kyiv"); "country_code"%string := JStr (py "UK") ]},
   [py "Atlantis"; py "Kyiv"]).
Proof. vm_compute. reflexivity. Qed.

Example resolve_geo_empty :
  @resolve_geo ascii_db demo_geocoder (py "Nothing to see") [py "Atlantis"; py "Mu"] [] =
  (∅, [py "Atlantis"; py "Mu"]).
Proof. vm_compute. reflexivity. Qed.

(** ** Social adapter: the mirror fallback *)

Section SocialProperties.
Context {Net : Network}.
Variable TWITTER_BEARER : str.
Variable NITTER_INSTANCES : list str.

Lemma nitter_loop_step (instance : str) (rest : list str) (account : str)
      (tried : list str) :
  nitter_loop (instance :: rest) account [] tried =
  match mirror_items tried instance account with
  | [] => nitter_loop rest account [] (tried ++ [instance])
  | page => (page, tried ++ [instance])
  end.
Proof.
  unfold mirror_items. cbn [nitter_loop].
  destruct (nitter_get tried instance account) as [|status_code page]; [reflexivity|].
  destruct (status_code =? 200); cbn [negb app]; [|reflexivity].
  destruct page; reflexivity.
Qed.

Lemma nitter_loop_first (before : list str) :
  forall (tried : list str) (instance : str) (after : list str) (account : str),
    (forall i m, before !! i = Some m ->
                 mirror_items (tried ++ firstn i before) m account = []) ->
    mirror_items (tried ++ before) instance account <> [] ->
    nitter_loop (before ++ instance :: after) account [] tried =
    (mirror_items (tried ++ before) instance account, tried ++ before ++ [instance]).
Proof.
  induction before as [|m before IH]; intros tried instance after account Hnone Hsome.
  - cbn [app]. rewrite nitter_loop_step. rewrite app_nil_r in *.
    destruct (mirror_items tried instance account); [contradiction | reflexivity].
  - cbn [app]. rewrite nitter_loop_step.
    pose proof (Hnone O m eq_refl) as H0. cbn [firstn] in H0. rewrite app_nil_r in H0.
    rewrite H0. rewrite (IH (tried ++ [m])).
    + rewrite <- !app_assoc. reflexivity.
    + intros i x Hi. rewrite <- app_assoc. exact (Hnone (S i) x Hi).
    + rewrite <- app_assoc. exact Hsome.
Qed.

Lemma nitter_loop_none (instances : list str) :
  forall (tried : list str) (account : str),
    (forall i m, instances !! i = Some m ->
                 mirror_items (tried ++ firstn i instances) m account = []) ->
    nitter_loop instances account [] tried = ([], tried ++ instances).
Proof.
  induction instances as [|m instances IH]; intros tried account Hnone.
  - cbn [nitter_loop]. rewrite app_nil_r. reflexivity.
  - rewrite nitter_loop_step.
    pose proof (Hnone O m eq_refl) as H0. cbn [firstn] in H0. rewrite app_nil_r in H0.
    rewrite H0. rewrite (IH (tried ++ [m])).
    + rewrite <- app_assoc. reflexivity.
    + intros i x Hi. rewrite <- app_assoc. exact (Hnone (S i) x Hi).
Qed.

(** C9. For every account: (1) when the primary fetch yields no item (no
    bearer token, or an empty list from the API), the result is that of the
    mirror fallback, and when it yields items no mirror is contacted;
    (2) a mirror whose request raises, or whose status is not 200, yields
    nothing; (3) the mirrors are contacted in the order of
    [NITTER_INSTANCES], each one that yields nothing being followed by the
    next, and the first one that yields items ends the iteration: its items
    are the result and no later mirror is contacted; (4) when every mirror
    yields nothing the result is the empty list, every mirror having been
    contacted once.  The functions are total: no outcome of the network
    makes them raise. *)
Theorem scrape_osint_account_fallback (account : str) :
  (fetch_twitter_api TWITTER_BEARER account = [] ->
   scrape_osint_account TWITTER_BEARER NITTER_INSTANCES account =
   fetch_nitter NITTER_INSTANCES account) /\
  (fetch_twitter_api TWITTER_BEARER account <> [] ->
   scrape_osint_account TWITTER_BEARER NITTER_INSTANCES account =
   (fetch_twitter_api TWITTER_BEARER account, [])) /\
  (forall tried instance,
      (nitter_get tried instance account = GetRaised \/
       exists status_code page,
         nitter_get tried instance account = GetStatus status_code page /\
         status_code <> 200) ->
      mirror_items tried instance account = []) /\
  (forall before instance after,
      NITTER_INSTANCES = before ++ instance :: after ->
      (forall i m, before !! i = Some m -> mirror_items (firstn i before) m account = []) ->
      mirror_items before instance account <> [] ->
      fetch_nitter NITTER_INSTANCES account =
      (mirror_items before instance account, before ++ [instance])) /\
  ((forall i m, NITTER_INSTANCES !! i = Some m ->
                mirror_items (firstn i NITTER_INSTANCES) m account = []) ->
   fetch_nitter NITTER_INSTANCES account = ([], NITTER_INSTANCES)).
Proof.
  repeat split.
  - unfold scrape_osint_account, fetch_twitter_api.
    destruct TWITTER_BEARER; [reflexivity|]. intros ->. reflexivity.
  - unfold scrape_osint_account, fetch_twitter_api.
    destruct TWITTER_BEARER; [intros H; contradiction|].
    destruct (twitter_api account); [intros H; contradiction | reflexivity].
  - unfold mirror_items. intros tried instance [-> | [status_code [page [-> Hne]]]];
      [reflexivity|].
    destruct (Z.eqb_spec status_code 200); [contradiction | reflexivity].
  - intros before instance after -> Hnone Hsome. unfold fetch_nitter.
    apply (nitter_loop_first before [] instance after account); assumption.
  - intros Hnone. unfold fetch_nitter.
    apply (nitter_loop_none NITTER_INSTANCES [] account). exact Hnone.
Qed.

End SocialProperties.

Example scrape_osint_account_third_mirror :
  @scrape_osint_account demo_network (py "token")
    (map py ["https://nitter.net"; "https://nitter.it"; "https://nitter.poast.org";
             "https://nitter.example"]%string) (py "sentdefender")
  = ([1%nat; 2%nat],
     map py ["https://nitter.net"; "https://nitter.it"; "https://nitter.poast.org"]%string).
Proof. vm_compute. reflexivity. Qed.

Example scrape_osint_account_all_fail :
  @scrape_osint_account demo_network []
    (map py ["https://nitter.net"; "https://nitter.it"]%string) (py "sentdefender")
  = ([], map py ["https://nitter.net"; "https://nitter.it"]%string).
Proof. vm_compute. reflexivity. Qed.

(** ** The store: what a write records *)

Lemma pipeline_entries (events : list (gmap string json)) (prefix : str) (now : Z) :
  forall pipe out : gmap str redis_entry,
    pipeline events prefix now pipe = Ok out ->
    forall key entry,
      out !! key = Some entry ->
      pipe !! key = Some entry \/
      (In (payload entry) events /\ expires_at entry = now + TTL /\
       exists id, payload entry !! "id"%string = Some (JStr id) /\
                  key = prefix ++ py ":" ++ id).
Proof.
  induction events as [|e rest IH]; intros pipe out Hp key entry Hk.
  - simpl in Hp. injection Hp as <-. left. exact Hk.
  - simpl in Hp. destruct (e !! "id"%string) as [[| | | |id| |]|] eqn:Hid; try discriminate.
    destruct (IH _ _ Hp key entry Hk) as [Hpipe | [Hin [Hexp Hkey]]].
    + apply lookup_insert_Some in Hpipe as [[<- <-] | [_ Hpipe]].
      * right. simpl. split; [left; reflexivity|]. split; [reflexivity|].
        exists id. split; [exact Hid | reflexivity].
      * left. exact Hpipe.
    + right. split; [right; exact Hin|]. split; [exact Hexp | exact Hkey].
Qed.

Lemma pipeline_writes (events : list (gmap string json)) (prefix : str) (now : Z) :
  forall pipe out : gmap str redis_entry,
    pipeline events prefix now pipe = Ok out ->
    (forall key, out !! key = pipe !! key \/
                 exists e id, In e events /\ e !! "id"%string = Some (JStr id) /\
                              key = prefix ++ py ":" ++ id /\
                              out !! key = Some {| payload := e; expires_at := now + TTL |}) /\
    (forall e id, In e events -> e !! "id"%string = Some (JStr id) ->
       exists e', In e' events /\ e' !! "id"%string = Some (JStr id) /\
                  out !! (prefix ++ py ":" ++ id) =
                  Some {| payload := e'; expires_at := now + TTL |}).
Proof.
  induction events as [|e rest IH]; intros pipe out Hp.
  - simpl in Hp. injection Hp as <-. split; [intros key; left; reflexivity|].
    intros e id [].
  - simpl in Hp. destruct (e !! "id"%string) as [[| | | |id0| |]|] eqn:Hid; try discriminate.
    destruct (IH _ _ Hp) as [Hframe Hall]. split.
    + intros key. destruct (Hframe key) as [Heq | [e' [id [Hin [Hid' [Hkey Hout]]]]]].
      * destruct (decide (prefix ++ py ":" ++ id0 = key)) as [<- | Hne].
        -- right. exists e, id0. rewrite Heq, lookup_insert_eq.
           repeat split; [left; reflexivity | exact Hid].
        -- left. rewrite Heq. apply lookup_insert_ne, Hne.
      * right. exists e', id. repeat split; [right; exact Hin | exact Hid' | exact Hkey | exact Hout].
    + intros e1 id [<- | Hin] Hid1.
      * rewrite Hid in Hid1. injection Hid1 as ->.
        destruct (Hframe (prefix ++ py ":" ++ id)) as [Heq | [e' [id' [Hin [Hid' [Hkey Hout]]]]]].
        -- exists e. rewrite Heq, lookup_insert_eq. repeat split; [left; reflexivity | exact Hid].
        -- apply app_inv_head, app_inv_head in Hkey. subst id'.
           exists e'. repeat split; [right; exact Hin | exact Hid' | exact Hout].
      * destruct (Hall e1 id Hin Hid1) as [e' [Hin' [Hid' Hout]]].
        exists e'. repeat split; [right; exact Hin' | exact Hid' | exact Hout].
Qed.

Lemma pipeline_total (events : list (gmap string json)) (prefix : str) (now : Z) :
  forall pipe : gmap str redis_entry,
    Forall (fun e => exists id, e !! "id"%string = Some (JStr id)) events ->
    exists out, store_events events prefix now pipe = Ok out.
Proof.
  intros pipe Hids.
  assert (Hp : exists out, pipeline events prefix now pipe = Ok out).
  { revert pipe. induction Hids as [|e rest [id Hid] _ IH]; intros pipe.
    - exists pipe. reflexivity.
    - simpl. rewrite Hid. apply IH. }
  destruct events; [exists pipe; reflexivity | exact Hp].
Qed.

Lemma store_events_pipeline (events : list (gmap string json)) (prefix : str) (now : Z)
      (redis : gmap str redis_entry) :
  store_events events prefix now redis = pipeline events prefix now redis.
Proof. destruct events; reflexivity. Qed.

(** ** RSS adapter: the fields of an event *)

Section RssProperties.
Context {U : Unicode} {G : Geocoder}.

Lemma geocode_first_no_fetched_at (locations calls : list str) :
  fst (geocode_first locations calls) !! "fetched_at"%string = None.
Proof.
  revert calls. induction locations as [|loc rest IH]; intros calls; [reflexivity|].
  simpl. destruct (geocode_cached calls loc) as [[[lat lon] display]|]; [|apply IH].
  reflexivity.
Qed.

Lemma resolve_geo_no_fetched_at (text : str) (hints calls : list str) :
  fst (resolve_geo text hints calls) !! "fetched_at"%string = None.
Proof.
  unfold resolve_geo. destruct (raw_coords text) as [[lat lon]|]; [reflexivity|].
  apply geocode_first_no_fetched_at.
Qed.

Lemma rss_event_no_fetched_at (event_id title summary url source published_at full_text : str)
      (geo : gmap string json) :
  geo !! "fetched_at"%string = None ->
  rss_event event_id title summary url source published_at full_text geo
    !! "fetched_at"%string = None.
Proof.
  intros Hgeo. unfold rss_event. apply lookup_union_None. split; [exact Hgeo | reflexivity].
Qed.

Lemma rss_loop_no_fetched_at (entries : list rss_entry) (source now_iso : str) :
  forall (events : list (gmap string json)) (calls : list str),
    Forall (fun e => e !! "fetched_at"%string = None) events ->
    Forall (fun e => e !! "fetched_at"%string = None)
           (fst (rss_loop entries source now_iso events calls)).
Proof.
  induction entries as [|entry rest IH]; intros events calls Hev; [exact Hev|].
  cbn [rss_loop]. cbv zeta.
  pose proof (resolve_geo_no_fetched_at
                (entry_title entry ++ py " " ++
                 firstn 500 (strip_tags (List.length (entry_summary entry))
                                        (entry_summary entry))) [] calls) as Hgeo.
  destruct (resolve_geo _ [] calls) as [geo calls'].
  destruct (bool_decide (geo = ∅)); [apply IH, Hev|].
  destruct (make_event_id (entry_link entry) (entry_title entry)); [|exact Hev].
  apply IH. apply Forall_app. split; [exact Hev|].
  constructor; [|constructor]. apply rss_event_no_fetched_at, Hgeo.
Qed.

Lemma fetch_rss_feed_no_fetched_at (source now_iso : str) (parsed : option (list rss_entry))
      (calls : list str) (e : gmap string json) :
  In e (fst (fetch_rss_feed source now_iso parsed calls)) ->
  e !! "fetched_at"%string = None.
Proof.
  unfold fetch_rss_feed. destruct parsed as [entries|]; [|intros []].
  pose proof (rss_loop_no_fetched_at (firstn 20 entries) source now_iso [] calls
                                     (List.Forall_nil _)) as H.
  intros Hin. exact (proj1 (List.Forall_forall _ _) H e Hin).
Qed.

Lemma resolve_geo_no_id (text : str) (hints calls : list str) :
  fst (resolve_geo text hints calls) !! "id"%string = None.
Proof.
  unfold resolve_geo. destruct (raw_coords text) as [[lat lon]|]; [reflexivity|].
  generalize (match hints with [] => extract_locations_spacy text
                          | _ :: _ => hints ++ extract_locations_spacy text end).
  intros locations. revert calls.
  induction locations as [|loc rest IH]; intros calls; [reflexivity|].
  simpl. destruct (geocode_cached calls loc) as [[[lat lon] display]|]; [|apply IH].
  reflexivity.
Qed.

Lemma rss_loop_has_id (entries : list rss_entry) (source now_iso : str) :
  forall (events : list (gmap string json)) (calls : list str),
    Forall (fun e => exists id, e !! "id"%string = Some (JStr id)) events ->
    Forall (fun e => exists id, e !! "id"%string = Some (JStr id))
           (fst (rss_loop entries source now_iso events calls)).
Proof.
  induction entries as [|entry rest IH]; intros events calls Hev; [exact Hev|].
  cbn [rss_loop]. cbv zeta.
  pose proof (resolve_geo_no_id
                (entry_title entry ++ py " " ++
                 firstn 500 (strip_tags (List.length (entry_summary entry))
                                        (entry_summary entry))) [] calls) as Hgeo.
  destruct (resolve_geo _ [] calls) as [geo calls'].
  destruct (bool_decide (geo = ∅)); [apply IH, Hev|].
  destruct (make_event_id (entry_link entry) (entry_title entry)) as [event_id|];
    [|exact Hev].
  apply IH. apply Forall_app. split; [exact Hev|].
  constructor; [|constructor]. exists event_id. unfold rss_event.
  rewrite lookup_union_r by exact Hgeo. reflexivity.
Qed.

Lemma fetch_rss_feed_has_id (source now_iso : str) (parsed : option (list rss_entry))
      (calls : list str) (e : gmap string json) :
  In e (fst (fetch_rss_feed source now_iso parsed calls)) ->
  exists id, e !! "id"%string = Some (JStr id).
Proof.
  unfold fetch_rss_feed. destruct parsed as [entries|]; [|intros []].
  pose proof (rss_loop_has_id (firstn 20 entries) source now_iso [] calls
                              (List.Forall_nil _)) as H.
  intros Hin. exact (proj1 (List.Forall_forall _ _) H e Hin).
Qed.

End RssProperties.

(** ** What the store holds after a write *)

(** C5, as the code has it.  [store_events] records every item of a batch
    exactly as the adapter built it, under the key [prefix:id] and with an
    expiry of twelve hours after the write, and adds no field: every entry of
    the store after the write is an entry it held before or an item of the
    batch, unchanged.  The items [fetch_rss_feed] builds have no [fetched_at]
    field, so that the stored items have none either. *)
Theorem store_events_adds_no_field {U : Unicode} {G : Geocoder} :
  (forall (events : list (gmap string json)) (prefix : str) (now : Z)
          (redis redis' : gmap str redis_entry),
      store_events events prefix now redis = Ok redis' ->
      (forall e id, In e events -> e !! "id"%string = Some (JStr id) ->
         exists e', In e' events /\ e' !! "id"%string = Some (JStr id) /\
                    redis' !! (prefix ++ py ":" ++ id) =
                    Some {| payload := e'; expires_at := now + TTL |}) /\
      (forall key entry,
         redis' !! key = Some entry ->
         redis !! key = Some entry \/
         (In (payload entry) events /\ expires_at entry = now + TTL))) /\
  (forall (source now_iso : str) (parsed : option (list rss_entry)) (calls : list str)
          (e : gmap string json),
      In e (fst (fetch_rss_feed source now_iso parsed calls)) ->
      e !! "fetched_at"%string = None).
Proof.
  split.
  - intros events prefix now redis redis' Hs. rewrite store_events_pipeline in Hs. split.
    + apply (pipeline_writes events prefix now redis redis' Hs).
    + intros key entry Hk.
      destruct (pipeline_entries events prefix now redis redis' Hs key entry Hk)
        as [Hold | [Hin [Hexp _]]]; [left; exact Hold | right; split; assumption].
  - intros source now_iso parsed calls e. apply fetch_rss_feed_no_fetched_at.
Qed.

(** The feed entry of the examples gives one event; stored and read back, it
    has no [fetched_at]. *)
Example demo_rss_events_fields :
  map (fun e => (e !! "category"%string, e !! "severity"%string, e !! "fetched_at"%string))
      demo_rss_events
  = [(Some (JStr (py "conflict")), Some (JInt 1), None)] /\
  map (fun e => e !! "fetched_at"%string)
      (get_all_events (py "event") demo_now (demo_store demo_rss_events))
  = [None].
Proof. split; vm_compute; reflexivity. Qed.

(** C5, as it is stated, fails: the event built from the feed entry of the
    examples is written without a [fetched_at] field. *)
Lemma fetched_at_is_not_set : ~ fetched_at_claim_as_stated.
Proof.
  intros H.
  assert (Hlen : List.length demo_rss_events = 1%nat) by (vm_compute; reflexivity).
  destruct demo_rss_events as [|e rest] eqn:Hev; [discriminate Hlen|].
  assert (Hin : forall x, In x (e :: rest) -> In x demo_rss_events)
    by (intros x Hx; rewrite Hev; exact Hx).
  assert (Hids : Forall (fun x => exists id, x !! "id"%string = Some (JStr id)) (e :: rest)).
  { apply List.Forall_forall. intros x Hx. apply Hin in Hx. unfold demo_rss_events in Hx.
    exact (@fetch_rss_feed_has_id ascii_db demo_geocoder _ _ _ _ _ Hx). }
  destruct (pipeline_total (e :: rest) (py "event") demo_now ∅ Hids) as [redis' Hs].
  inversion Hids as [|? ? [id Hid] _]; subst.
  destruct (H (e :: rest) (py "event") demo_now ∅ redis' Hs e id (or_introl eq_refl) Hid)
    as [entry [Hl [v Hv]]].
  destruct (pipeline_entries _ _ _ _ _ Hs _ _ Hl) as [Hold | [Hin' _]].
  - rewrite lookup_empty in Hold. discriminate Hold.
  - apply Hin in Hin'. unfold demo_rss_events in Hin'.
    apply (@fetch_rss_feed_no_fetched_at ascii_db demo_geocoder) in Hin'. congruence.
Qed.

(** ** The events query *)

Section QueryProperties.
Context {D : DateTimeLib}.

Lemma filter_loop_kept (q : events_query) (cutoff : Z) (events : list (gmap string json)) :
  forall filtered out,
    filter_loop q cutoff events filtered = Ok out ->
    forall e, In e out ->
              In e filtered \/ (In e events /\ events_filter q cutoff e = Keep).
Proof.
  induction events as [|x rest IH]; intros filtered out Hloop e Hin.
  - simpl in Hloop. injection Hloop as <-. left. exact Hin.
  - simpl in Hloop. destruct (events_filter q cutoff x) eqn:Hx; [| |discriminate].
    + destruct (IH _ _ Hloop e Hin) as [Hacc | [Hrest Hkeep]].
      * apply in_app_or in Hacc as [Hacc | [<- | []]].
        -- left. exact Hacc.
        -- right. split; [left; reflexivity | exact Hx].
      * right. split; [right; exact Hrest | exact Hkeep].
    + destruct (IH _ _ Hloop e Hin) as [Hacc | [Hrest Hkeep]].
      * left. exact Hacc.
      * right. split; [right; exact Hrest | exact Hkeep].
Qed.

Lemma insert_desc_In (e x : gmap string json) (l : list (gmap string json)) :
  In x (insert_desc e l) -> x = e \/ In x l.
Proof.
  induction l as [|y l IH]; simpl.
  - intros [<- | []]. left. reflexivity.
  - destruct (str_ltb (sort_key e) (sort_key y)).
    + intros [<- | Hin]; [right; left; reflexivity|].
      destruct (IH Hin) as [-> | Hl]; [left; reflexivity | right; right; exact Hl].
    + intros [<- | Hin]; [left; reflexivity | right; exact Hin].
Qed.

Lemma sort_desc_In (x : gmap string json) (l : list (gmap string json)) :
  In x (sort_desc l) -> In x l.
Proof.
  induction l as [|y l IH]; simpl; [intros []|].
  intros Hin. apply insert_desc_In in Hin as [-> | Hin]; [left; reflexivity|].
  right. apply IH, Hin.
Qed.

Lemma firstn_In_list {A : Type} (n : nat) (l : list A) (x : A) :
  In x (firstn n l) -> In x l.
Proof.
  revert l. induction n as [|n IH]; intros l; [intros []|].
  destruct l as [|y l]; [intros []|]. simpl.
  intros [<- | Hin]; [left; reflexivity | right; apply IH, Hin].
Qed.

(** A returned event is a live stored event that the loop body kept. *)
Lemma get_events_returned (q : events_query) (now : Z) (redis : gmap str redis_entry)
      (r : events_response) (e : gmap string json) :
  get_events q now redis = Ok r -> In e (events r) ->
  In e (get_all_events (py "event") now redis) /\
  events_filter q (now - hours q * 3600 * 1000000) e = Keep.
Proof.
  unfold get_events. cbv zeta.
  destruct (filter_loop q _ (get_all_events (py "event") now redis) []) as [out|]
    eqn:Hloop; [|discriminate].
  intros [= <-]. simpl. intros Hin.
  apply firstn_In_list, sort_desc_In in Hin.
  destruct (filter_loop_kept _ _ _ _ _ Hloop e Hin) as [[] | H]. exact H.
Qed.

(** What the loop body has tested when it keeps an event. *)
Lemma events_filter_keep (q : events_query) (cutoff : Z) (e : gmap string json) :
  events_filter q cutoff e = Keep ->
  truthy (dict_get e "lat") = true /\
  truthy (dict_get e "lon") = true /\
  (exists pub, published e = Some pub /\ (instant pub <? cutoff) = false) /\
  json_lt_int (dict_get_or e "severity" (JInt 1)) (min_severity q) = Some false /\
  mismatch (category q) (dict_get e "category") = false /\
  match topic q with
  | Some ((_ :: _) as t) =>
      not_in t (if truthy (dict_get e "topics") then dict_get e "topics" else JList [])
  | _ => Some false
  end = Some false /\
  (breaking_only q = true -> truthy (dict_get e "is_breaking") = true) /\
  mismatch (source_type q) (dict_get e "source_type") = false.
Proof.
  unfold events_filter. cbv zeta.
  destruct (truthy (dict_get e "lat")); [|discriminate].
  destruct (truthy (dict_get e "lon")); [|discriminate]. cbn [negb orb].
  destruct (published e) as [pub|]; [|discriminate].
  destruct (instant pub <? cutoff) eqn:Hcut; [discriminate|].
  destruct (json_lt_int _ (min_severity q)) as [[|]|]; try discriminate.
  destruct (mismatch (category q) _); [discriminate|].
  destruct (match topic q with Some ((_ :: _) as t) => _ | _ => Some false end)
    as [[|]|]; try discriminate.
  destruct (breaking_only q); cbn [andb].
  - destruct (truthy (dict_get e "is_breaking")); [|discriminate]. cbn [negb].
    destruct (mismatch (source_type q) _); [discriminate|]. intros _.
    repeat split; try reflexivity. exists pub. split; [reflexivity | exact Hcut].
  - destruct (mismatch (source_type q) _); [discriminate|]. intros _.
    repeat split; try reflexivity; try discriminate.
    exists pub. split; [reflexivity | exact Hcut].
Qed.

Lemma published_recent (cutoff : Z) (e : gmap string json) (pub : datetime) :
  published e = Some pub -> (instant pub <? cutoff) = false -> recent cutoff e.
Proof.
  unfold published, recent.
  destruct (e !! "published_at"%string) as [[| | | |s| |]|]; try discriminate.
  destruct (fromisoformat (replace_Z s)) as [pub0|] eqn:Hp; [|discriminate].
  intros [= <-] Hcut. exists s, pub0. split; [reflexivity|]. split; [exact Hp|].
  apply Z.ltb_ge in Hcut. unfold instant in *.
  destruct (tzinfo pub0) as [off|] eqn:Htz; simpl in *; rewrite ?Htz in *; simpl in *; lia.
Qed.

Lemma dict_get_str (e : gmap string json) (k : string) (s : str) :
  dict_get e k = JStr s -> e !! k = Some (JStr s).
Proof.
  unfold dict_get. destruct (e !! k) as [v|]; simpl; [intros ->; reflexivity | discriminate].
Qed.

Lemma mismatch_false (p : option str) (v : json) (s : str) :
  mismatch p v = false -> present_nonempty p s -> v = JStr s.
Proof.
  unfold mismatch, present_nonempty. intros Hm [-> Hne].
  destruct s as [|c s]; [contradiction|].
  unfold json_ne_str in Hm. destruct v; try discriminate.
  apply negb_false_iff in Hm. unfold str_eqb in Hm.
  apply bool_decide_eq_true in Hm. rewrite Hm. reflexivity.
Qed.

Lemma not_in_list_false (t : str) (ts : list str) :
  not_in t (JList (map JStr ts)) = Some false -> In t ts.
Proof.
  simpl. intros [= H]. apply negb_false_iff in H.
  apply existsb_exists in H as [v [Hv Hneg]].
  apply in_map_iff in Hv as [s [<- Hs]].
  apply negb_true_iff in Hneg. simpl in Hneg. apply negb_false_iff in Hneg.
  unfold str_eqb in Hneg. apply bool_decide_eq_true in Hneg. subst s. exact Hs.
Qed.

(** A kept event satisfies every predicate supplied with a non-empty value. *)
Lemma events_filter_keep_satisfies (q : events_query) (cutoff : Z) (e : gmap string json) :
  normalized_item e -> events_filter q cutoff e = Keep ->
  satisfies present_nonempty q cutoff e.
Proof.
  intros [[n Hn] [ts Hts]] Hkeep.
  destruct (events_filter_keep q cutoff e Hkeep)
    as [_ [_ [[pub [Hpub Hcut]] [Hsev [Hcat [Htopic [Hbr Hsrc]]]]]]].
  unfold satisfies. repeat split.
  - eapply published_recent; eassumption.
  - exists n. split; [exact Hn|].
    unfold dict_get_or in Hsev. rewrite Hn in Hsev. simpl in Hsev.
    injection Hsev as Hsev. apply Z.ltb_ge in Hsev. exact Hsev.
  - intros c Hc. apply dict_get_str. eapply mismatch_false; eassumption.
  - intros t [Ht Hne]. exists ts. split; [exact Hts|].
    rewrite Ht in Htopic. destruct t as [|c t]; [contradiction|].
    assert (Hget : dict_get e "topics" = JList (map JStr ts))
      by (unfold dict_get; rewrite Hts; reflexivity).
    rewrite Hget in Htopic. destruct ts as [|t0 ts'].
    + simpl in Htopic. discriminate Htopic.
    + change (not_in (c :: t) (JList (map JStr (t0 :: ts'))) = Some false) in Htopic.
      apply not_in_list_false in Htopic. exact Htopic.
  - exact Hbr.
  - intros s Hs. apply dict_get_str. eapply mismatch_false; eassumption.
Qed.

Lemma events_filter_no_fault (q : events_query) (cutoff : Z) (e : gmap string json) :
  normalized_item e -> events_filter q cutoff e <> Fault.
Proof.
  intros [[n Hn] [ts Hts]]. unfold events_filter. cbv zeta.
  replace (dict_get_or e "severity" (JInt 1)) with (JInt n)
    by (unfold dict_get_or; rewrite Hn; reflexivity).
  replace (dict_get e "topics") with (JList (map JStr ts))
    by (unfold dict_get; rewrite Hts; reflexivity).
  assert (Htt : exists b,
             match topic q with
             | Some ((_ :: _) as t) =>
                 not_in t (if truthy (JList (map JStr ts))
                           then JList (map JStr ts) else JList [])
             | _ => Some false
             end = Some b).
  { destruct (topic q) as [[|c t]|]; try (eexists; reflexivity).
    destruct (truthy (JList (map JStr ts))); eexists; reflexivity. }
  destruct Htt as [b Htt]. rewrite Htt. cbn [json_lt_int].
  repeat match goal with
         | |- (if ?x then _ else _) <> Fault => destruct x
         | |- match ?x with _ => _ end <> Fault => destruct x
         end; discriminate.
Qed.

Lemma filter_loop_total (q : events_query) (cutoff : Z) (events : list (gmap string json)) :
  Forall normalized_item events ->
  forall filtered, exists out, filter_loop q cutoff events filtered = Ok out.
Proof.
  induction 1 as [|e rest He _ IH]; intros filtered; [exists filtered; reflexivity|].
  simpl. pose proof (events_filter_no_fault q cutoff e He) as Hnf.
  destruct (events_filter q cutoff e); [apply IH | apply IH | contradiction].
Qed.

End QueryProperties.

(** ** The events query on the stores of the adapters *)

Lemma normalized_itemb_sound (e : gmap string json) :
  normalized_itemb e = true -> normalized_item e.
Proof.
  unfold normalized_itemb, normalized_item.
  destruct (e !! "severity"%string) as [[| |n| | | |]|]; try discriminate.
  destruct (e !! "topics"%string) as [[| | | | |l|]|]; try discriminate.
  intros Hl. split; [exists n; reflexivity|].
  assert (Hts : exists ts, l = map JStr ts).
  { induction l as [|v l IH]; [exists []; reflexivity|].
    simpl in Hl. apply andb_true_iff in Hl as [Hv Hl]. destruct (IH Hl) as [ts ->].
    destruct v; try discriminate Hv. exists (s :: ts). reflexivity. }
  destruct Hts as [ts ->]. exists ts. reflexivity.
Qed.

Lemma normalized_itemb_Forall (l : list (gmap string json)) :
  forallb normalized_itemb l = true -> Forall normalized_item l.
Proof.
  intros H. apply List.Forall_forall. intros e He.
  apply normalized_itemb_sound. exact (proj1 (List.forallb_forall _ _) H e He).
Qed.

Lemma demo_store_normalized :
  Forall normalized_item (get_all_events (py "event") demo_now (demo_store demo_batch)).
Proof.
  apply normalized_itemb_Forall. vm_compute. reflexivity.
Qed.

Lemma falsy_coordinate_truthy (v : json) : falsy_coordinate v -> truthy v = false.
Proof.
  intros [-> | [-> | [x [-> Hx]]]]; [reflexivity | reflexivity |].
  simpl. apply negb_false_iff. apply Qeq_bool_iff. exact Hx.
Qed.

(** C4.  Every item the events query returns satisfies every supplied
    predicate, a [category], [topic] or [source_type] being supplied when the
    request gives it a non-empty value.  On a store whose items carry the
    typed fields the adapters write (an integer [severity], a list of strings
    [topics]), the events query returns a response, and every item of the
    response is a live stored item such that: its [published_at] parses to an
    instant not before the horizon [now - hours], its severity is at least
    [min_severity], its category and source type equal the requested ones,
    the requested topic is a member of its topics, and it is breaking when
    [breaking_only] is set. *)
Theorem get_events_filter_sound {D : DateTimeLib} (q : events_query) (now : Z)
        (redis : gmap str redis_entry) :
  Forall normalized_item (get_all_events (py "event") now redis) ->
  exists r, get_events q now redis = Ok r /\
    forall e, In e (events r) ->
      In e (get_all_events (py "event") now redis) /\
      satisfies present_nonempty q (now - hours q * 3600 * 1000000) e.
Proof.
  intros Hnorm.
  destruct (filter_loop_total q (now - hours q * 3600 * 1000000) _ Hnorm []) as [out Hout].
  assert (Hr : exists r, get_events q now redis = Ok r).
  { unfold get_events. cbv zeta. rewrite Hout. eexists. reflexivity. }
  destruct Hr as [r Hr]. exists r. split; [exact Hr|].
  intros e Hin. destruct (get_events_returned q now redis r e Hr Hin) as [Hst Hkeep].
  split; [exact Hst|]. apply events_filter_keep_satisfies; [|exact Hkeep].
  exact (proj1 (List.Forall_forall _ _) Hnorm e Hst).
Qed.

Lemma get_events_filter_sound_witness :
  Forall normalized_item (get_all_events (py "event") demo_now (demo_store demo_batch)) /\
  exists r, @get_events iso_datetime demo_query demo_now (demo_store demo_batch) = Ok r /\
    forall e, In e (events r) ->
      In e (get_all_events (py "event") demo_now (demo_store demo_batch)) /\
      @satisfies iso_datetime present_nonempty demo_query
                 (demo_now - hours demo_query * 3600 * 1000000) e.
Proof.
  split.
  - apply normalized_itemb_Forall. vm_compute. reflexivity.
  - apply (@get_events_filter_sound iso_datetime demo_query demo_now (demo_store demo_batch)).
    apply normalized_itemb_Forall. vm_compute. reflexivity.
Defined.

(** The query [min_severity=4] on the store of four items of severity 1, 3, 4
    and 5 returns the two of severity 4 and 5, the latest first. *)
Example get_events_min_severity_4 :
  match @get_events iso_datetime demo_query demo_now (demo_store demo_batch) with
  | Ok r => map (fun e => e !! "severity"%string) (events r)
  | Raise _ => []
  end = [Some (JInt 5); Some (JInt 4)].
Proof. vm_compute. reflexivity. Qed.

(** An empty parameter is an absent one: [GET /api/events?category=] sets no
    category filter and returns the four stored items, newest first. *)
Example get_events_empty_category :
  match @get_events iso_datetime empty_category_query demo_now (demo_store demo_batch) with
  | Ok r => map (fun e => e !! "category"%string) (events r)
  | Raise _ => []
  end = [Some (JStr (py "disaster")); Some (JStr (py "conflict"));
         Some (JStr (py "conflict")); Some (JStr (py "general"))].
Proof. vm_compute. reflexivity. Qed.

(** C10.  The geo-presence test of the events query is a truthiness test: an
    event whose [lat] or [lon] is [None] (or absent), [0] or [0.0] is never
    in the response, whatever the query and the store are. *)
Theorem get_events_drops_zero_coordinates {D : DateTimeLib} (q : events_query) (now : Z)
        (redis : gmap str redis_entry) (r : events_response) (e : gmap string json) :
  get_events q now redis = Ok r ->
  falsy_coordinate (dict_get e "lat") \/ falsy_coordinate (dict_get e "lon") ->
  ~ In e (events r).
Proof.
  intros Hr Hfalsy Hin.
  destruct (get_events_returned q now redis r e Hr Hin) as [_ Hkeep].
  destruct (events_filter_keep q _ e Hkeep) as [Hlat [Hlon _]].
  destruct Hfalsy as [Hf | Hf]; apply falsy_coordinate_truthy in Hf; congruence.
Qed.

Lemma get_events_drops_zero_coordinates_witness :
  map (fun e => e !! "id"%string)
      (get_all_events (py "event") demo_now (demo_store [equator_item]))
  = [Some (JStr (py "eq"))] /\
  @get_events iso_datetime demo_query demo_now (demo_store [equator_item])
  = Ok {| count := 0; events := [] |} /\
  ~ In equator_item (events {| count := 0; events := [] |}).
Proof.
  split; [vm_compute; reflexivity|].
  split; [vm_compute; reflexivity|].
  apply (@get_events_drops_zero_coordinates iso_datetime demo_query demo_now
           (demo_store [equator_item])).
  - vm_compute. reflexivity.
  - left. right. right. exists 0%Q. split; [vm_compute; reflexivity | reflexivity].
Defined.

(** The same item half a degree north of the equator is returned. *)
Example get_events_north_of_equator :
  match @get_events iso_datetime demo_query demo_now
          (demo_store [demo_item "eq" "disaster" 5 (binary64 (1 # 2)) (binary64 (945 # 100))
                                 "2026-11-04T11:30:00+00:00"]) with
  | Ok r => map (fun e => e !! "id"%string) (events r)
  | Raise _ => []
  end = [Some (JStr (py "eq"))].
Proof. vm_compute. reflexivity. Qed.

(* ------------------------------------------------------------------ *)
(** * Further properties of the code *)

(** ** Classification: severity, breaking flag, order of the topics *)

Lemma first_level_cascade {U : Unicode} (t : str) :
  first_level [5; 4; 3; 2] t =
  if any_keyword (severity_table 5) t then Some 5
  else if any_keyword (severity_table 4) t then Some 4
  else if any_keyword (severity_table 3) t then Some 3
  else if any_keyword (severity_table 2) t then Some 2
  else None.
Proof. reflexivity. Qed.

Lemma classify_severity_cascade {U : Unicode} (text : str) :
  classify_severity text =
  if any_keyword (severity_table 5) (str_lower text) then 5
  else if any_keyword (severity_table 4) (str_lower text) then 4
  else if any_keyword (severity_table 3) (str_lower text) then 3
  else if any_keyword (severity_table 2) (str_lower text) then 2
  else 1.
Proof.
  unfold classify_severity. cbv zeta. rewrite first_level_cascade.
  destruct (any_keyword (severity_table 5) (str_lower text));
    destruct (any_keyword (severity_table 4) (str_lower text));
    destruct (any_keyword (severity_table 3) (str_lower text));
    destruct (any_keyword (severity_table 2) (str_lower text)); reflexivity.
Qed.

(** X1. [classify_severity] returns the highest of the levels 5, 4, 3, 2 one
    of whose keywords occurs in the lower-cased text, and 1 when none does;
    the result is always between 1 and 5. *)
Theorem classify_severity_highest {U : Unicode} (text : str) :
  (classify_severity text = 5 <-> hits (severity_table 5) text) /\
  (classify_severity text = 4 <->
     ~ hits (severity_table 5) text /\ hits (severity_table 4) text) /\
  (classify_severity text = 3 <->
     ~ hits (severity_table 5) text /\ ~ hits (severity_table 4) text /\
     hits (severity_table 3) text) /\
  (classify_severity text = 2 <->
     ~ hits (severity_table 5) text /\ ~ hits (severity_table 4) text /\
     ~ hits (severity_table 3) text /\ hits (severity_table 2) text) /\
  (classify_severity text = 1 <->
     ~ hits (severity_table 5) text /\ ~ hits (severity_table 4) text /\
     ~ hits (severity_table 3) text /\ ~ hits (severity_table 2) text) /\
  1 <= classify_severity text <= 5.
Proof.
  rewrite classify_severity_cascade. rewrite <- !any_keyword_hits.
  destruct (any_keyword (severity_table 5) (str_lower text));
    destruct (any_keyword (severity_table 4) (str_lower text));
    destruct (any_keyword (severity_table 3) (str_lower text));
    destruct (any_keyword (severity_table 2) (str_lower text));
    repeat split; try lia; try discriminate; try reflexivity;
    try (intros H; intuition discriminate);
    try (intros [H _]; exfalso; apply H; reflexivity).
Qed.

Lemma existsb_any_keyword (kws : list str) (t : str) :
  existsb (fun kw => contains kw t) kws = any_keyword kws t.
Proof.
  induction kws as [|kw rest IH]; [reflexivity|].
  cbn [existsb any_keyword]. rewrite IH. destruct (contains kw t); reflexivity.
Qed.

Lemma is_breaking_any_keyword {U : Unicode} (text : str) :
  is_breaking text = any_keyword (category_table "breaking") (str_lower text).
Proof. unfold is_breaking. cbv zeta. apply existsb_any_keyword. Qed.

(** X2. [is_breaking] is true exactly when a breaking keyword occurs in the
    lower-cased text, and it agrees with [classify_category]: a text of
    category "breaking" is flagged, a text of category "general" is not. *)
Theorem is_breaking_hits {U : Unicode} (text : str) :
  (is_breaking text = true <-> hits (category_table "breaking") text) /\
  (classify_category text = py "breaking" -> is_breaking text = true) /\
  (classify_category text = py "general" -> is_breaking text = false).
Proof.
  rewrite is_breaking_any_keyword, classify_category_cascade.
  split; [apply any_keyword_hits|].
  destruct (any_keyword (category_table "conflict") (str_lower text));
    destruct (any_keyword (category_table "disaster") (str_lower text));
    destruct (any_keyword (category_table "politics") (str_lower text));
    destruct (any_keyword (category_table "breaking") (str_lower text));
    split; intros H; try reflexivity; vm_compute in H; discriminate H.
Qed.

Lemma sublist_map_filter {A B : Type} (f : A -> B) (p : A -> bool) (l : list A) :
  sublist (map f (List.filter p l)) (map f l).
Proof.
  induction l as [|x l IH]; simpl; [constructor|].
  destruct (p x); simpl; [apply sublist_skip | apply sublist_cons]; exact IH.
Qed.

(** X3. The labels [classify_topics] returns come in the order of the table
    (war, protests, christian_persecution, terrorism, natural_disasters),
    each at most once: the result is a subsequence of that list, so it has
    no duplicate and at most five elements. *)
Theorem classify_topics_ordered {U : Unicode} (text : str) :
  sublist (classify_topics text)
          [py "war"; py "protests"; py "christian_persecution"; py "terrorism";
           py "natural_disasters"] /\
  NoDup (classify_topics text) /\
  (List.length (classify_topics text) <= 5)%nat.
Proof.
  assert (Hsub : sublist (classify_topics text) (map fst TOPIC_KEYWORDS)).
  { unfold classify_topics, classify_topics_over. cbv zeta.
    rewrite topics_loop_filter. cbn [app]. apply sublist_map_filter. }
  change (map fst TOPIC_KEYWORDS)
    with [py "war"; py "protests"; py "christian_persecution"; py "terrorism";
          py "natural_disasters"] in Hsub.
  split; [exact Hsub|]. split.
  - eapply sublist_NoDup; [|exact Hsub].
    apply (bool_decide_unpack _). vm_compute. exact I.
  - apply sublist_length in Hsub. exact Hsub.
Qed.

(** ** Classification: longer texts *)

Lemma occurs_trans (a b c : str) : occurs a b -> occurs b c -> occurs a c.
Proof.
  intros [l1 [r1 ->]] [l2 [r2 ->]]. exists (l2 ++ l1), (r1 ++ r2).
  rewrite <- !app_assoc. reflexivity.
Qed.

Lemma any_keyword_mono {U : Unicode} (kws : list str) (t1 t2 : str) :
  occurs (str_lower t1) (str_lower t2) ->
  any_keyword kws (str_lower t1) = true -> any_keyword kws (str_lower t2) = true.
Proof.
  intros Hocc. rewrite !any_keyword_hits. intros [kw [Hin Hkw]].
  exists kw. split; [exact Hin | eapply occurs_trans; eassumption].
Qed.

(** X4. A text that contains another (after lower-casing) is classified at
    least as high: its severity is not lower, it has every topic of the
    shorter text, it is breaking when the shorter text is, and it is of
    category "conflict" when the shorter text is. *)
Theorem classification_monotone {U : Unicode} (t1 t2 : str) :
  occurs (str_lower t1) (str_lower t2) ->
  classify_severity t1 <= classify_severity t2 /\
  (forall label, In label (classify_topics t1) -> In label (classify_topics t2)) /\
  (is_breaking t1 = true -> is_breaking t2 = true) /\
  (classify_category t1 = py "conflict" -> classify_category t2 = py "conflict").
Proof.
  intros Hocc.
  pose proof (fun kws => any_keyword_mono kws t1 t2 Hocc) as Hm.
  split; [|split; [|split]].
  - rewrite !classify_severity_cascade.
    pose proof (Hm (severity_table 5)) as H5. pose proof (Hm (severity_table 4)) as H4.
    pose proof (Hm (severity_table 3)) as H3. pose proof (Hm (severity_table 2)) as H2.
    destruct (any_keyword (severity_table 5) (str_lower t1));
      destruct (any_keyword (severity_table 4) (str_lower t1));
      destruct (any_keyword (severity_table 3) (str_lower t1));
      destruct (any_keyword (severity_table 2) (str_lower t1));
      rewrite ?(H5 eq_refl), ?(H4 eq_refl), ?(H3 eq_refl), ?(H2 eq_refl);
      destruct (any_keyword (severity_table 5) (str_lower t2));
      destruct (any_keyword (severity_table 4) (str_lower t2));
      destruct (any_keyword (severity_table 3) (str_lower t2));
      destruct (any_keyword (severity_table 2) (str_lower t2)); lia.
  - intros label. unfold classify_topics. rewrite !classify_topics_over_in.
    intros [kws [Hin Hhit]]. exists kws. split; [exact Hin|].
    apply any_keyword_hits, Hm, any_keyword_hits, Hhit.
  - rewrite !is_breaking_any_keyword. apply Hm.
  - rewrite !classify_category_cascade.
    pose proof (Hm (category_table "conflict")) as Hc.
    destruct (any_keyword (category_table "conflict") (str_lower t1)).
    + rewrite (Hc eq_refl). reflexivity.
    + destruct (any_keyword (category_table "disaster") (str_lower t1));
        destruct (any_keyword (category_table "politics") (str_lower t1));
        destruct (any_keyword (category_table "breaking") (str_lower t1));
        intros H; vm_compute in H; discriminate H.
Qed.

Lemma classification_monotone_witness :
  occurs (@str_lower ascii_db (py "Flood warning"))
         (@str_lower ascii_db (py "URGENT: Flood warning, dozens killed")) /\
  @classify_severity ascii_db (py "Flood warning") = 2 /\
  @classify_severity ascii_db (py "URGENT: Flood warning, dozens killed") = 4 /\
  @classify_severity ascii_db (py "Flood warning")
  <= @classify_severity ascii_db (py "URGENT: Flood warning, dozens killed").
Proof.
  assert (Hocc : occurs (@str_lower ascii_db (py "Flood warning"))
                        (@str_lower ascii_db (py "URGENT: Flood warning, dozens killed"))).
  { exists (py "urgent: "), (py ", dozens killed"). vm_compute. reflexivity. }
  split; [exact Hocc|]. split; [vm_compute; reflexivity|]. split; [vm_compute; reflexivity|].
  exact (proj1 (@classification_monotone ascii_db (py "Flood warning")
                  (py "URGENT: Flood warning, dozens killed") Hocc)).
Defined.

(** ** Coordinate extractor: what a text must contain *)

Lemma re_match_needs (c0 : N) (pat : list re_item) :
  (exists p, In (Chr p) pat /\ forall c, p c = true -> c = c0) ->
  forall s opened groups r,
    re_match pat s opened groups = Some r -> In c0 s.
Proof.
  induction pat as [|i pat IH]; intros [p [Hin Hp]] s opened groups r Hm.
  - destruct Hin.
  - destruct i as [q|q lo hi| |]; simpl in Hm.
    + destruct s as [|c s]; [discriminate|]. destruct (q c) eqn:Hq; [|discriminate].
      destruct Hin as [Heq | Hin].
      * injection Heq as ->. left. apply Hp, Hq.
      * right. apply (IH (ex_intro _ p (conj Hin Hp)) _ _ _ _ Hm).
    + destruct Hin as [Heq | Hin]; [discriminate|].
      apply give_back_some in Hm as [m Hm].
      apply (IH (ex_intro _ p (conj Hin Hp))) in Hm.
      rewrite <- (firstn_skipn m s). apply in_or_app. right. exact Hm.
    + destruct Hin as [Heq | Hin]; [discriminate|].
      apply (IH (ex_intro _ p (conj Hin Hp)) _ _ _ _ Hm).
    + destruct Hin as [Heq | Hin]; [discriminate|].
      destruct opened as [|start opened]; [discriminate|].
      apply (IH (ex_intro _ p (conj Hin Hp)) _ _ _ _ Hm).
Qed.

Lemma re_search_needs (c0 : N) (pat : list re_item) (s : str) (r : list str) :
  (exists p, In (Chr p) pat /\ forall c, p c = true -> c = c0) ->
  re_search pat s = Some r -> In c0 s.
Proof.
  intros Hpat. induction s as [|c s IH]; simpl.
  - destruct (re_match pat [] [] []) eqn:E; [|discriminate].
    intros _. exact (re_match_needs c0 pat Hpat _ _ _ _ E).
  - destruct (re_match pat (c :: s) [] []) eqn:E.
    + intros _. exact (re_match_needs c0 pat Hpat _ _ _ _ E).
    + intros H. right. apply IH, H.
Qed.

Lemma is_chr_dot (c : N) : is_chr "." c = true -> c = 46%N.
Proof.
  unfold is_chr. simpl. rewrite orb_false_r. intros H. apply N.eqb_eq in H. exact H.
Qed.

(** X5. The extractors never make coordinates out of a text that lacks the
    marks of the notation: without a full stop there is no decimal pair
    (integers such as "35,139" are not coordinates), without a degree sign
    there is no degree-minute pair, and without both the coordinate stage of
    [resolve_geo] finds nothing. *)
Theorem raw_coords_needs_mark {U : Unicode} (text : str) :
  (~ In 46%N text -> extract_decimal_coords text = None) /\
  (~ In 176%N text -> extract_dms_coords text = None) /\
  (~ In 46%N text -> ~ In 176%N text -> raw_coords text = None).
Proof.
  assert (Hdec : ~ In 46%N text -> extract_decimal_coords text = None).
  { intros Hno. unfold extract_decimal_coords.
    destruct (re_search _DECIMAL_COORD text) as [m|] eqn:Hs; [|reflexivity].
    exfalso. apply Hno. apply (re_search_needs 46%N _ _ _) in Hs; [exact Hs|].
    exists (is_chr "."). split; [|exact is_chr_dot].
    unfold _DECIMAL_COORD, signed_decimal. cbn [app]. simpl. tauto. }
  assert (Hdms : ~ In 176%N text -> extract_dms_coords text = None).
  { intros Hno. unfold extract_dms_coords.
    destruct (re_search _DMS_COORD text) as [m|] eqn:Hs; [|reflexivity].
    exfalso. apply Hno. apply (re_search_needs 176%N _ _ _) in Hs; [exact Hs|].
    exists (N.eqb 176). split; [|intros c Hc; apply N.eqb_eq in Hc; symmetry; exact Hc].
    unfold _DMS_COORD, dms_half. cbn [app]. simpl. tauto. }
  split; [exact Hdec|]. split; [exact Hdms|].
  intros H1 H2. unfold raw_coords. rewrite (Hdec H1), (Hdms H2). reflexivity.
Qed.

(** With commas for decimal marks nothing is extracted. *)
Example raw_coords_integers :
  @raw_coords ascii_db (py "Earthquake strikes near 35,68 / 139,69") = None.
Proof. vm_compute. reflexivity. Qed.

(** ** Geo-resolution: the shape of the result *)

Lemma geocode_first_shape {U : Unicode} {G : Geocoder} (locations calls : list str) :
  fst (geocode_first locations calls) = ∅ \/
  exists lat lon name code,
    fst (geocode_first locations calls) =
    {[ "lat"%string := JFloat lat; "lon"%string := JFloat lon;
       "location_name"%string := JStr name; "country_code"%string := JStr code ]}.
Proof.
  revert calls. induction locations as [|loc rest IH]; intros calls; [left; reflexivity|].
  simpl. destruct (geocode_cached calls loc) as [[[lat lon] display]|]; [|apply IH].
  right. unfold geocoded. cbv zeta. do 4 eexists. reflexivity.
Qed.

(** X6. [resolve_geo] returns either the empty dictionary or a dictionary
    with exactly the four keys [lat], [lon], [location_name] and
    [country_code], the first two holding floats and the last two strings;
    a result that is not empty has both coordinates. *)
Theorem resolve_geo_shape {U : Unicode} {G : Geocoder} (text : str)
        (hint_locations calls : list str) :
  (fst (resolve_geo text hint_locations calls) = ∅ \/
   exists lat lon name code,
     fst (resolve_geo text hint_locations calls) =
     {[ "lat"%string := JFloat lat; "lon"%string := JFloat lon;
        "location_name"%string := JStr name; "country_code"%string := JStr code ]}) /\
  (fst (resolve_geo text hint_locations calls) <> ∅ ->
   exists lat lon,
     fst (resolve_geo text hint_locations calls) !! "lat"%string = Some (JFloat lat) /\
     fst (resolve_geo text hint_locations calls) !! "lon"%string = Some (JFloat lon)).
Proof.
  assert (H : fst (resolve_geo text hint_locations calls) = ∅ \/
              exists lat lon name code,
                fst (resolve_geo text hint_locations calls) =
                {[ "lat"%string := JFloat lat; "lon"%string := JFloat lon;
                   "location_name"%string := JStr name;
                   "country_code"%string := JStr code ]}).
  { unfold resolve_geo. destruct (raw_coords text) as [[lat lon]|].
    - right. exists lat, lon, [], []. reflexivity.
    - apply geocode_first_shape. }
  split; [exact H|]. intros Hne.
  destruct H as [H | [lat [lon [name [code H]]]]]; [contradiction|].
  exists lat, lon. rewrite H. split; reflexivity.
Qed.

(** ** Identity function: what the id depends on *)

(** X7. [make_event_id] hashes the concatenation [url + title] without a
    separator, so the id does not tell where the URL ends: moving characters
    from the end of the URL to the start of the title gives a different
    [(url, title)] pair with the same id. *)
Theorem make_event_id_concatenation (url x title : str) :
  make_event_id (url ++ x) title = make_event_id url (x ++ title) /\
  (x <> [] -> (url ++ x, title) <> (url, x ++ title)).
Proof.
  split.
  - unfold make_event_id. rewrite <- app_assoc. reflexivity.
  - intros Hx [= H _]. apply Hx.
    rewrite <- (app_nil_r url) in H at 2. apply app_inv_head in H. exact H.
Qed.

(** ** The store: reading back, expiry, overwriting *)

Lemma get_all_events_In (prefix : str) (now : Z) (redis : gmap str redis_entry)
      (e : gmap string json) :
  In e (get_all_events prefix now redis) <->
  exists key entry,
    redis !! key = Some entry /\ startswith key (prefix ++ py ":") = true /\
    now <= expires_at entry /\ payload entry = e.
Proof.
  unfold get_all_events. rewrite in_map_iff. split.
  - intros [[key entry] [<- Hin]]. apply filter_In in Hin as [Hin Hf].
    apply andb_true_iff in Hf as [Hp Hlive]. simpl in *.
    exists key, entry. split; [|split; [exact Hp|split; [lia|reflexivity]]].
    apply elem_of_map_to_list, list_elem_of_In, Hin.
  - intros [key [entry [Hl [Hp [Hlive <-]]]]]. exists (key, entry). split; [reflexivity|].
    apply filter_In. split.
    + apply list_elem_of_In, elem_of_map_to_list, Hl.
    + simpl. rewrite Hp. simpl. lia.
Qed.

Lemma startswith_key (prefix id : str) :
  startswith (prefix ++ py ":" ++ id) (prefix ++ py ":") = true.
Proof. apply startswith_occurs. exists id. rewrite <- app_assoc. reflexivity. Qed.

(** X8. Reading back what was written: after [store_events] has stored a
    batch at time [now], [get_all_events] with the same prefix returns, at
    every time before [now + 12 h], an item of the batch for each id of the
    batch -- the item itself when no other item of the batch has its id. *)
Theorem store_then_get (events : list (gmap string json)) (prefix : str) (now t : Z)
        (redis redis' : gmap str redis_entry) (e : gmap string json) (id : str) :
  store_events events prefix now redis = Ok redis' ->
  In e events -> e !! "id"%string = Some (JStr id) -> t < now + TTL ->
  (exists e', In e' events /\ e' !! "id"%string = Some (JStr id) /\
              In e' (get_all_events prefix t redis')) /\
  ((forall e', In e' events -> e' !! "id"%string = Some (JStr id) -> e' = e) ->
   In e (get_all_events prefix t redis')).
Proof.
  intros Hs Hin Hid Ht. rewrite store_events_pipeline in Hs.
  destruct (proj2 (pipeline_writes _ _ _ _ _ Hs) e id Hin Hid) as [e' [Hin' [Hid' Hout]]].
  assert (Hget : In e' (get_all_events prefix t redis')).
  { apply get_all_events_In. eexists _, _. split; [exact Hout|].
    split; [apply startswith_key|]. split; [simpl; lia | reflexivity]. }
  split.
  - exists e'. split; [exact Hin'|]. split; [exact Hid' | exact Hget].
  - intros Huniq. rewrite <- (Huniq e' Hin' Hid'). exact Hget.
Qed.

Lemma demo_batch_ids :
  Forall (fun e => exists id, e !! "id"%string = Some (JStr id)) demo_batch.
Proof. repeat constructor; eexists; vm_compute; reflexivity. Qed.

Lemma store_then_get_witness :
  exists redis',
    store_events demo_batch (py "event") demo_now ∅ = Ok redis' /\
    exists e, e !! "id"%string = Some (JStr (py "a4")) /\
              In e (get_all_events (py "event") (demo_now + 3600 * 1000000) redis').
Proof.
  destruct (pipeline_total demo_batch (py "event") demo_now ∅ demo_batch_ids) as [redis' Hs].
  exists redis'. split; [exact Hs|].
  destruct (proj1 (store_then_get demo_batch (py "event") demo_now
                     (demo_now + 3600 * 1000000) ∅ redis'
                     (demo_item "a4" "conflict" 4 (binary64 (3568 # 100))
                                (binary64 (13969 # 100)) "2026-11-04T11:00:00+00:00")
                     (py "a4") Hs
                     (or_intror (or_intror (or_introl eq_refl)))
                     eq_refl ltac:(vm_compute; reflexivity)))
    as [e' [_ [Hid Hget]]].
  exists e'. split; [exact Hid | exact Hget].
Defined.

(** X9. Expiry: when no entry of the store outlives [now + 12 h] (as is the
    case when all earlier writes happened before [now]), nothing is read
    back from the store at any time after [now + 12 h], [now] being the time
    of the write.  (At the instant [now + 12 h] itself the batch is still
    read.) *)
Theorem store_events_expiry (events : list (gmap string json)) (prefix : str) (now t : Z)
        (redis redis' : gmap str redis_entry) :
  (forall key entry, redis !! key = Some entry -> expires_at entry <= now + TTL) ->
  store_events events prefix now redis = Ok redis' ->
  now + TTL < t ->
  get_all_events prefix t redis' = [].
Proof.
  intros Hold Hs Ht. rewrite store_events_pipeline in Hs.
  destruct (get_all_events prefix t redis') as [|e rest] eqn:Hall; [reflexivity|].
  exfalso.
  assert (Hin : In e (get_all_events prefix t redis')) by (rewrite Hall; left; reflexivity).
  apply get_all_events_In in Hin as [key [entry [Hl [_ [Hlive _]]]]].
  destruct (pipeline_entries _ _ _ _ _ Hs _ _ Hl) as [Hpipe | [_ [Hexp _]]].
  - specialize (Hold _ _ Hpipe). lia.
  - lia.
Qed.

Lemma store_events_expiry_witness :
  exists redis',
    store_events demo_batch (py "event") demo_now ∅ = Ok redis' /\
    get_all_events (py "event") (demo_now + TTL + 1) redis' = [].
Proof.
  destruct (pipeline_total demo_batch (py "event") demo_now ∅ demo_batch_ids) as [redis' Hs].
  exists redis'. split; [exact Hs|].
  apply (store_events_expiry demo_batch (py "event") demo_now (demo_now + TTL + 1) ∅ redis').
  - intros key entry H. rewrite lookup_empty in H. discriminate H.
  - exact Hs.
  - lia.
Defined.

(** The four items written at [demo_now] are read just before and at the
    instant of their expiry, and no longer after it. *)
Example store_events_expiry_boundary :
  map (fun t => List.length (get_all_events (py "event") t
                               (run_rss_job (Ok demo_batch) demo_now ∅)))
      [demo_now + TTL - 1; demo_now + TTL; demo_now + TTL + 1]
  = [4%nat; 4%nat; 0%nat].
Proof. vm_compute. reflexivity. Qed.

(** X10. A batch with an item that has no [id] is lost as a whole:
    [store_events] raises [KeyError] before the pipeline is executed, and the
    job that called it leaves the store as it was, also for the items of the
    batch that do have an id. *)
Theorem store_events_missing_id (events : list (gmap string json)) (prefix : str) (now : Z)
        (redis : gmap str redis_entry) :
  Exists (fun e => e !! "id"%string = None) events ->
  store_events events prefix now redis = Raise "KeyError" /\
  run_job (Ok events) prefix now redis = redis.
Proof.
  intros Hex.
  assert (Hp : forall pipe, pipeline events prefix now pipe = Raise "KeyError").
  { induction Hex as [e rest He | e rest _ IH]; intros pipe; cbn [pipeline].
    - rewrite He. reflexivity.
    - destruct (e !! "id"%string) as [[| | | |id| |]|]; try reflexivity. apply IH. }
  assert (Hs : store_events events prefix now redis = Raise "KeyError").
  { rewrite store_events_pipeline. apply Hp. }
  split; [exact Hs|]. unfold run_job. rewrite Hs. reflexivity.
Qed.

Lemma store_events_missing_id_witness :
  run_job (Ok (demo_batch ++ [∅])) (py "event") demo_now ∅ = ∅.
Proof.
  apply (store_events_missing_id (demo_batch ++ [∅]) (py "event") demo_now ∅).
  apply Exists_app. right. constructor. reflexivity.
Defined.

Lemma pipeline_overwrite (events : list (gmap string json)) (prefix : str) (now : Z) :
  forall (pipe : gmap str redis_entry) key v,
    (exists e id, In e events /\ e !! "id"%string = Some (JStr id) /\
                  key = prefix ++ py ":" ++ id) ->
    pipeline events prefix now (<[key := v]> pipe) = pipeline events prefix now pipe.
Proof.
  induction events as [|e rest IH]; intros pipe key v [e' [id [Hin [Hid Hkey]]]].
  - destruct Hin.
  - cbn [pipeline]. destruct (e !! "id"%string) as [[| | | |id0| |]|] eqn:Hid0;
      try reflexivity.
    destruct (decide (prefix ++ py ":" ++ id0 = key)) as [<- | Hne].
    + rewrite insert_insert_eq. reflexivity.
    + rewrite insert_insert_ne by exact Hne. apply IH.
      destruct Hin as [<- | Hin].
      * exfalso. apply Hne. rewrite Hid0 in Hid. injection Hid as ->. symmetry. exact Hkey.
      * exists e', id. split; [exact Hin|]. split; [exact Hid | exact Hkey].
Qed.

Lemma pipeline_twice (events : list (gmap string json)) (prefix : str) (now1 now2 : Z) :
  forall (events' : list (gmap string json)) (pipe out : gmap str redis_entry),
    (forall e id, In e events -> e !! "id"%string = Some (JStr id) ->
                  exists e', In e' events' /\ e' !! "id"%string = Some (JStr id)) ->
    pipeline events prefix now1 pipe = Ok out ->
    pipeline events' prefix now2 out = pipeline events' prefix now2 pipe.
Proof.
  induction events as [|e rest IH]; intros events' pipe out Hsub Hp.
  - simpl in Hp. injection Hp as <-. reflexivity.
  - cbn [pipeline] in Hp.
    destruct (e !! "id"%string) as [[| | | |id| |]|] eqn:Hid; try discriminate.
    rewrite (IH events' (<[prefix ++ py ":" ++ id :=
                            {| payload := e; expires_at := now1 + TTL |}]> pipe) out);
      [|intros e1 id1 H1; apply Hsub; right; exact H1|exact Hp].
    apply pipeline_overwrite.
    destruct (Hsub e id (or_introl eq_refl) Hid) as [e' [Hin' Hid']].
    exists e', id. split; [exact Hin'|]. split; [exact Hid' | reflexivity].
Qed.

Lemma pipeline_ok_ids (events : list (gmap string json)) (prefix : str) (now : Z) :
  forall pipe out : gmap str redis_entry,
    pipeline events prefix now pipe = Ok out ->
    Forall (fun e => exists id, e !! "id"%string = Some (JStr id)) events.
Proof.
  induction events as [|e rest IH]; intros pipe out Hp; [constructor|].
  cbn [pipeline] in Hp.
  destruct (e !! "id"%string) as [[| | | |id| |]|] eqn:Hid; try discriminate.
  constructor; [exists id; exact Hid | eapply IH, Hp].
Qed.

(** X11. Re-ingestion is an upsert: running a job twice on the same scraped
    batch leaves the store exactly as running it once at the later time
    does; the items are overwritten under their keys, not duplicated, and
    their expiry is counted from the later run. *)
Theorem run_job_idempotent (scraped : outcome (list (gmap string json))) (prefix : str)
        (now1 now2 : Z) (redis : gmap str redis_entry) :
  run_job scraped prefix now2 (run_job scraped prefix now1 redis)
  = run_job scraped prefix now2 redis.
Proof.
  destruct scraped as [events|exc]; [|reflexivity]. unfold run_job.
  destruct (store_events events prefix now1 redis) as [redis1|exc] eqn:H1; [|reflexivity].
  rewrite store_events_pipeline in H1.
  destruct (pipeline_total events prefix now2 redis (pipeline_ok_ids _ _ _ _ _ H1))
    as [redis2 H2].
  rewrite H2. rewrite store_events_pipeline in H2. rewrite store_events_pipeline.
  rewrite (pipeline_twice events prefix now1 now2 events redis redis1), H2;
    [reflexivity| |exact H1].
  intros e id Hin Hid. exists e. split; assumption.
Qed.

Lemma filter_sublist_list {A : Type} (f : A -> bool) (l : list A) :
  sublist (List.filter f l) l.
Proof.
  induction l as [|x l IH]; simpl; [constructor|].
  destruct (f x); [apply sublist_skip | apply sublist_cons]; exact IH.
Qed.

Lemma live_entries_perm (f : str * redis_entry -> bool) (m m' : gmap str redis_entry) :
  (forall k v, f (k, v) = true -> (m !! k = Some v <-> m' !! k = Some v)) ->
  Permutation (List.filter f (map_to_list m)) (List.filter f (map_to_list m')).
Proof.
  intros Hagree. apply NoDup_Permutation.
  - eapply sublist_NoDup; [apply NoDup_map_to_list | apply filter_sublist_list].
  - eapply sublist_NoDup; [apply NoDup_map_to_list | apply filter_sublist_list].
  - intros [k v]. rewrite !list_elem_of_In, !filter_In, <- !list_elem_of_In,
      !elem_of_map_to_list.
    split; intros [Hl Hf]; (split; [apply (Hagree k v Hf), Hl | exact Hf]).
Qed.

Lemma startswith_tweet_event (id : str) :
  startswith (py "tweet" ++ py ":" ++ id) (py "event" ++ py ":") = false.
Proof. reflexivity. Qed.

(** X12. Tweets and events do not mix: whatever [run_twitter_job] does to the
    store, the events that [get_all_events("event")] reads are the same
    before and after (as a multiset), so that [/api/events] never serves a
    tweet. *)
Theorem run_twitter_job_keeps_events (scraped : outcome (list (gmap string json)))
        (now t : Z) (redis : gmap str redis_entry) :
  Permutation (get_all_events (py "event") t (run_twitter_job scraped now redis))
              (get_all_events (py "event") t redis).
Proof.
  unfold run_twitter_job, run_job.
  destruct scraped as [tweets|exc]; [|reflexivity].
  destruct (store_events tweets (py "tweet") now redis) as [redis'|exc] eqn:Hs; [|reflexivity].
  rewrite store_events_pipeline in Hs.
  unfold get_all_events. apply Permutation_map. apply live_entries_perm.
  intros k v Hf. apply andb_true_iff in Hf as [Hp _].
  change (startswith k (py "event" ++ py ":") = true) in Hp.
  destruct (proj1 (pipeline_writes _ _ _ _ _ Hs) k) as [Heq | [e [id [_ [_ [Hk _]]]]]].
  - split; intros H; [exact (eq_trans (eq_sym Heq) H) | exact (eq_trans Heq H)].
  - exfalso. subst k.
    exact (eq_true_false_abs _ Hp (startswith_tweet_event id)).
Qed.

(** ** The events query: completeness, order, cap, malformed items *)

Section QueryCompleteness.
Context {D : DateTimeLib}.

Lemma filter_loop_filter (q : events_query) (cutoff : Z) (events : list (gmap string json)) :
  forall filtered out,
    filter_loop q cutoff events filtered = Ok out ->
    out = filtered ++ List.filter (kept q cutoff) events.
Proof.
  induction events as [|e rest IH]; intros filtered out Hloop.
  - simpl in Hloop. injection Hloop as <-. simpl. rewrite app_nil_r. reflexivity.
  - cbn [filter_loop] in Hloop. cbn [List.filter]. unfold kept at 1.
    destruct (events_filter q cutoff e); [| |discriminate].
    + rewrite (IH _ _ Hloop), <- app_assoc. reflexivity.
    + apply IH, Hloop.
Qed.

Lemma insert_desc_length (e : gmap string json) (l : list (gmap string json)) :
  List.length (insert_desc e l) = S (List.length l).
Proof.
  induction l as [|x l IH]; [reflexivity|]. simpl.
  destruct (str_ltb (sort_key e) (sort_key x)); simpl; [rewrite IH|]; reflexivity.
Qed.

Lemma sort_desc_length (l : list (gmap string json)) :
  List.length (sort_desc l) = List.length l.
Proof.
  induction l as [|x l IH]; [reflexivity|].
  simpl. rewrite insert_desc_length, IH. reflexivity.
Qed.

Lemma In_insert_desc (e x : gmap string json) (l : list (gmap string json)) :
  x = e \/ In x l -> In x (insert_desc e l).
Proof.
  induction l as [|y l IH]; simpl.
  - intros [-> | []]. left. reflexivity.
  - destruct (str_ltb (sort_key e) (sort_key y)); simpl.
    + intros [-> | [<- | Hin]]; [right; apply IH; left; reflexivity | left; reflexivity |].
      right. apply IH. right. exact Hin.
    + intros [-> | [<- | Hin]]; [left; reflexivity | right; left; reflexivity |].
      right. right. exact Hin.
Qed.

Lemma In_sort_desc (x : gmap string json) (l : list (gmap string json)) :
  In x l -> In x (sort_desc l).
Proof.
  induction l as [|y l IH]; simpl; [intros []|].
  intros [<- | Hin]; apply In_insert_desc; [left; reflexivity | right; apply IH, Hin].
Qed.

Lemma get_events_ok (q : events_query) (now : Z) (redis : gmap str redis_entry)
      (r : events_response) :
  get_events q now redis = Ok r ->
  r = {| count := List.length
                    (List.filter (kept q (now - hours q * 3600 * 1000000))
                                 (get_all_events (py "event") now redis));
         events := firstn 500
                     (sort_desc
                        (List.filter (kept q (now - hours q * 3600 * 1000000))
                                     (get_all_events (py "event") now redis))) |}.
Proof.
  unfold get_events. cbv zeta.
  destruct (filter_loop q _ (get_all_events (py "event") now redis) []) as [out|] eqn:Hloop;
    [|discriminate].
  intros [= <-]. apply filter_loop_filter in Hloop. simpl in Hloop. subst out.
  rewrite sort_desc_length. reflexivity.
Qed.

(** X13. The events query is complete up to its cap: [count] is the number of
    live stored events that pass all tests of the loop, and when that number
    is at most 500 every such event is in the response. *)
Theorem get_events_complete (q : events_query) (now : Z) (redis : gmap str redis_entry)
        (r : events_response) :
  get_events q now redis = Ok r ->
  count r = List.length (List.filter (kept q (now - hours q * 3600 * 1000000))
                                     (get_all_events (py "event") now redis)) /\
  ((count r <= 500)%nat ->
   forall e, In e (get_all_events (py "event") now redis) ->
             events_filter q (now - hours q * 3600 * 1000000) e = Keep ->
             In e (events r)).
Proof.
  intros Hr. apply get_events_ok in Hr. subst r. cbn [count events].
  split; [reflexivity|]. intros Hcount e Hin Hkeep.
  rewrite firstn_all2 by (rewrite sort_desc_length; exact Hcount).
  apply In_sort_desc, filter_In. split; [exact Hin|]. unfold kept. rewrite Hkeep. reflexivity.
Qed.

Lemma str_ltb_asym (a b : str) : str_ltb a b = true -> str_ltb b a = false.
Proof.
  revert b. induction a as [|c a IH]; intros [|d b]; simpl; try reflexivity; try discriminate.
  intros H. apply orb_true_iff in H as [H | H].
  - apply N.ltb_lt in H. apply orb_false_iff. split.
    + apply N.ltb_ge. lia.
    + apply andb_false_iff. left. apply N.eqb_neq. lia.
  - apply andb_true_iff in H as [Hcd H]. apply N.eqb_eq in Hcd. subst d.
    apply orb_false_iff. split; [apply N.ltb_irrefl|].
    apply andb_false_iff. right. apply IH, H.
Qed.

Lemma str_ltb_ge_trans (a b c : str) :
  str_ltb a b = false -> str_ltb b c = false -> str_ltb a c = false.
Proof.
  revert b c. induction a as [|x a IH]; intros [|y b] [|z c]; simpl;
    try reflexivity; try discriminate.
  intros Hab Hbc. apply orb_false_iff in Hab as [Hxy Hab], Hbc as [Hyz Hbc].
  apply N.ltb_ge in Hxy, Hyz.
  apply orb_false_iff. split; [apply N.ltb_ge; lia|].
  destruct (N.eqb_spec x z) as [-> | Hne]; [|reflexivity].
  assert (y = z) by lia. subst y. cbn [andb].
  apply andb_false_iff in Hab as [Hab | Hab]; [apply N.eqb_neq in Hab; contradiction|].
  apply andb_false_iff in Hbc as [Hbc | Hbc]; [apply N.eqb_neq in Hbc; contradiction|].
  eapply IH; eassumption.
Qed.

Lemma insert_desc_sorted (e : gmap string json) (l : list (gmap string json)) :
  newest_first l -> newest_first (insert_desc e l).
Proof.
  unfold newest_first. induction 1 as [|x l Hl IH Hx]; simpl.
  - constructor; constructor.
  - destruct (str_ltb (sort_key e) (sort_key x)) eqn:Hex.
    + constructor; [exact IH|].
      apply List.Forall_forall. intros y Hy. apply insert_desc_In in Hy as [-> | Hy].
      * apply str_ltb_asym, Hex.
      * exact (proj1 (List.Forall_forall _ _) Hx y Hy).
    + constructor; [constructor; assumption|].
      constructor; [exact Hex|].
      apply List.Forall_forall. intros y Hy.
      eapply str_ltb_ge_trans; [exact Hex|].
      exact (proj1 (List.Forall_forall _ _) Hx y Hy).
Qed.

Lemma sort_desc_sorted (l : list (gmap string json)) : newest_first (sort_desc l).
Proof.
  induction l as [|x l IH]; simpl; [constructor | apply insert_desc_sorted, IH].
Qed.

Lemma firstn_sorted (n : nat) (l : list (gmap string json)) :
  newest_first l -> newest_first (firstn n l).
Proof.
  unfold newest_first. intros Hl. revert n.
  induction Hl as [|x l Hl IH Hx]; intros [|n]; simpl; try constructor.
  - apply IH.
  - apply List.Forall_forall. intros y Hy. apply firstn_In_list in Hy.
    exact (proj1 (List.Forall_forall _ _) Hx y Hy).
Qed.

(** X14. The response of the events query is ordered newest first by the
    text of [published_at] (the order of Python strings, not of the instants
    the texts denote), and it holds the first 500 of the matching events:
    its length is the smaller of [count] and 500. *)
Theorem get_events_newest_first (q : events_query) (now : Z) (redis : gmap str redis_entry)
        (r : events_response) :
  get_events q now redis = Ok r ->
  newest_first (events r) /\
  List.length (events r) = Nat.min 500 (count r).
Proof.
  intros Hr. apply get_events_ok in Hr. subst r. cbn [count events]. split.
  - apply firstn_sorted, sort_desc_sorted.
  - rewrite length_firstn, sort_desc_length. reflexivity.
Qed.

Lemma filter_loop_fault (q : events_query) (cutoff : Z) (events : list (gmap string json))
      (e : gmap string json) :
  In e events -> events_filter q cutoff e = Fault ->
  forall filtered, filter_loop q cutoff events filtered = Raise "TypeError".
Proof.
  intros Hin Hf. induction events as [|x rest IH]; [destruct Hin|].
  intros filtered. cbn [filter_loop].
  destruct Hin as [-> | Hin]; [rewrite Hf; reflexivity|].
  destruct (events_filter q cutoff x); [apply IH, Hin | apply IH, Hin | reflexivity].
Qed.

(** X15. One malformed stored event breaks the query for every caller: if a
    live event with coordinates and a timestamp inside the horizon has a
    [severity] that is a string or null, the comparison with [min_severity]
    raises [TypeError] and [get_events] returns nothing at all. *)
Theorem get_events_type_error (q : events_query) (now : Z) (redis : gmap str redis_entry)
        (e : gmap string json) (pub : datetime) :
  In e (get_all_events (py "event") now redis) ->
  truthy (dict_get e "lat") = true -> truthy (dict_get e "lon") = true ->
  published e = Some pub -> now - hours q * 3600 * 1000000 <= instant pub ->
  (e !! "severity"%string = Some JNull \/ exists s, e !! "severity"%string = Some (JStr s)) ->
  get_events q now redis = Raise "TypeError".
Proof.
  intros Hin Hlat Hlon Hpub Hrecent Hsev.
  assert (Hf : events_filter q (now - hours q * 3600 * 1000000) e = Fault).
  { unfold events_filter. rewrite Hlat, Hlon, Hpub. cbn [negb orb].
    replace (instant pub <? now - hours q * 3600 * 1000000) with false
      by (symmetry; apply Z.ltb_ge; exact Hrecent).
    unfold dict_get_or. destruct Hsev as [-> | [s ->]]; reflexivity. }
  unfold get_events. cbv zeta.
  rewrite (filter_loop_fault q _ _ e Hin Hf []). reflexivity.
Qed.

End QueryCompleteness.

Lemma malformed_store :
  get_all_events (py "event") demo_now (demo_store [malformed_item]) = [malformed_item].
Proof. vm_compute. reflexivity. Qed.

Lemma get_events_type_error_witness :
  @get_events iso_datetime demo_query demo_now (demo_store [malformed_item])
  = Raise "TypeError".
Proof.
  apply (@get_events_type_error iso_datetime demo_query demo_now (demo_store [malformed_item])
           malformed_item
           {| wall := 1793790000 * 1000000; tzinfo := Some 0 |}).
  - rewrite malformed_store. left. reflexivity.
  - vm_compute. reflexivity.
  - vm_compute. reflexivity.
  - vm_compute. reflexivity.
  - vm_compute. discriminate.
  - right. exists (py "high"). vm_compute. reflexivity.
Defined.

(** The order is that of the texts: an item published at 10:00 UTC, written
    with the offset [+02:00], comes before one published at 11:00 UTC. *)
Example get_events_text_order :
  match @get_events iso_datetime demo_query demo_now
          (demo_store
             [demo_item "utc" "conflict" 4 (binary64 (3568 # 100)) (binary64 (13969 # 100))
                        "2026-11-04T11:00:00+00:00";
              demo_item "cet" "conflict" 4 (binary64 (3568 # 100)) (binary64 (13969 # 100))
                        "2026-11-04T12:00:00+02:00"]) with
  | Ok r => map (fun e => e !! "id"%string) (events r)
  | Raise _ => []
  end = [Some (JStr (py "cet")); Some (JStr (py "utc"))].
Proof. vm_compute. reflexivity. Qed.

(** ** The tweets query *)

Section TweetsProperties.
Context {D : DateTimeLib}.

Lemma recent_published (cutoff : Z) (t : gmap string json) :
  recent cutoff t -> exists pub, published t = Some pub /\ (instant pub <? cutoff) = false.
Proof.
  intros [s [pub [Hs [Hp Hc]]]]. unfold published. rewrite Hs, Hp.
  eexists. split; [reflexivity|]. apply Z.ltb_ge.
  unfold instant in *. destruct (tzinfo pub) as [off|] eqn:Htz; simpl; rewrite ?Htz; simpl;
    rewrite ?Htz in Hc; simpl in Hc; lia.
Qed.

Lemma mismatch_false_iff (p : option str) (v : json) :
  mismatch p v = false <-> (forall a, present_nonempty p a -> v = JStr a).
Proof.
  split.
  - intros Hm a Ha. eapply mismatch_false; eassumption.
  - intros H. unfold mismatch. destruct p as [[|c s]|]; try reflexivity.
    rewrite (H (c :: s)) by (split; [reflexivity | discriminate]).
    simpl. apply negb_false_iff. unfold str_eqb. apply bool_decide_eq_true. reflexivity.
Qed.

(** What [tweets_filter] tests. *)
Lemma tweets_filter_true (q : Tweets.query) (cutoff : Z) (t : gmap string json) :
  tweets_filter q cutoff t = true <->
  recent cutoff t /\
  (forall a, present_nonempty (Tweets.account q) a -> dict_get t "account" = JStr a) /\
  (Tweets.geo_only q = true ->
   truthy (dict_get t "lat") = true /\ truthy (dict_get t "lon") = true).
Proof.
  unfold tweets_filter. split.
  - destruct (published t) as [pub|] eqn:Hpub; [|discriminate].
    destruct (instant pub <? cutoff) eqn:Hcut; [discriminate|].
    destruct (mismatch (Tweets.account q) (dict_get t "account")) eqn:Hm; [discriminate|].
    intros Hgeo. split; [eapply published_recent; eassumption|].
    split; [apply mismatch_false_iff, Hm|].
    intros Hg. rewrite Hg in Hgeo. cbn [andb] in Hgeo.
    destruct (truthy (dict_get t "lat")); [|discriminate].
    destruct (truthy (dict_get t "lon")); [|discriminate]. split; reflexivity.
  - intros [Hrec [Hacc Hgeo]].
    destruct (recent_published cutoff t Hrec) as [pub [-> ->]].
    rewrite (proj2 (mismatch_false_iff _ _) Hacc).
    destruct (Tweets.geo_only q); [|reflexivity].
    destruct (Hgeo eq_refl) as [-> ->]. reflexivity.
Qed.

(** X16. The tweets query returns stored tweets that are inside the horizon,
    that are of the requested account when a non-empty one is given, and
    that have truthy coordinates when [geo_only] is set; it returns all of
    them when they are at most 200.  Without [geo_only] the coordinates are
    not looked at, so tweets without a place are served. *)
Theorem get_tweets_characterised (q : Tweets.query) (now : Z)
        (redis : gmap str redis_entry) (t : gmap string json) :
  (In t (Tweets.tweets (get_tweets q now redis)) ->
   In t (get_all_tweets now redis) /\
   recent (now - Tweets.hours q * 3600 * 1000000) t /\
   (forall a, present_nonempty (Tweets.account q) a -> dict_get t "account" = JStr a) /\
   (Tweets.geo_only q = true ->
    truthy (dict_get t "lat") = true /\ truthy (dict_get t "lon") = true)) /\
  ((Tweets.count (get_tweets q now redis) <= 200)%nat ->
   In t (get_all_tweets now redis) ->
   recent (now - Tweets.hours q * 3600 * 1000000) t ->
   (forall a, present_nonempty (Tweets.account q) a -> dict_get t "account" = JStr a) ->
   (Tweets.geo_only q = true ->
    truthy (dict_get t "lat") = true /\ truthy (dict_get t "lon") = true) ->
   In t (Tweets.tweets (get_tweets q now redis))) /\
  List.length (Tweets.tweets (get_tweets q now redis))
  = Nat.min 200 (Tweets.count (get_tweets q now redis)).
Proof.
  unfold get_tweets. cbv zeta. cbn [Tweets.tweets Tweets.count].
  split; [|split].
  - intros Hin. apply firstn_In_list, sort_desc_In, filter_In in Hin as [Hin Hf].
    split; [exact Hin|]. apply tweets_filter_true, Hf.
  - intros Hcount Hin Hrec Hacc Hgeo.
    rewrite firstn_all2 by exact Hcount.
    apply In_sort_desc, filter_In. split; [exact Hin|].
    apply tweets_filter_true. split; [exact Hrec|]. split; [exact Hacc | exact Hgeo].
  - rewrite length_firstn. reflexivity.
Qed.

End TweetsProperties.

(** A tweet without coordinates is served by the plain query and dropped by
    the query with [geo_only]. *)
Example get_tweets_without_place :
  map (fun t => t !! "id"%string)
      (Tweets.tweets (@get_tweets iso_datetime demo_tweets_query demo_now
                        (run_twitter_job (Ok [demo_tweet]) (demo_now - 3600 * 1000000) ∅)))
  = [Some (JStr (py "t1"))] /\
  Tweets.tweets (@get_tweets iso_datetime
                   {| Tweets.hours := 3; Tweets.account := None; Tweets.geo_only := true |}
                   demo_now
                   (run_twitter_job (Ok [demo_tweet]) (demo_now - 3600 * 1000000) ∅))
  = [].
Proof. split; vm_compute; reflexivity. Qed.

(** ** The dashboard summary *)

Lemma dict_incr_total (k : json) (d : list (json * Z)) :
  total_count (dict_incr k d) = total_count d + 1.
Proof.
  induction d as [|[k' n] d IH]; simpl; [reflexivity|].
  destruct (py_eqb k' k); simpl; [|rewrite IH]; lia.
Qed.

Lemma dict_incr_positive (k : json) (d : list (json * Z)) :
  Forall (fun kv => 1 <= snd kv) d -> Forall (fun kv => 1 <= snd kv) (dict_incr k d).
Proof.
  induction 1 as [|[k' n] d Hn Hd IH]; simpl.
  - constructor; [simpl; lia | constructor].
  - destruct (py_eqb k' k); constructor; simpl in *; try lia; assumption.
Qed.

Lemma categories_loop_total (events : list (gmap string json)) :
  forall d out,
    categories_loop events d = Ok out ->
    total_count out = total_count d + Z.of_nat (List.length events) /\
    (Forall (fun kv => 1 <= snd kv) d -> Forall (fun kv => 1 <= snd kv) out).
Proof.
  induction events as [|e rest IH]; intros d out H.
  - simpl in H. injection H as <-. simpl. split; [lia | auto].
  - cbn [categories_loop] in H. cbv zeta in H.
    destruct (hashable (dict_get_or e "category" (JStr (py "general")))); [|discriminate].
    destruct (IH _ _ H) as [Ht Hp]. split.
    + rewrite Ht, dict_incr_total. cbn [List.length]. lia.
    + intros Hd. apply Hp, dict_incr_positive, Hd.
Qed.

Lemma high_severity_sum_le (events : list (gmap string json)) :
  forall n, high_severity_sum events = Ok n -> (n <= List.length events)%nat.
Proof.
  induction events as [|e rest IH]; intros n H.
  - simpl in H. injection H as <-. simpl. lia.
  - cbn [high_severity_sum] in H.
    destruct (json_ge_int (dict_get_or e "severity" (JInt 1)) 4) as [b|]; [|discriminate].
    destruct (high_severity_sum rest) as [m|]; [|discriminate].
    injection H as <-. specialize (IH m eq_refl). cbn [List.length]. destruct b; lia.
Qed.

Lemma account_set_le (tweets : list (gmap string json)) :
  forall seen out,
    account_set tweets seen = Ok out ->
    (List.length out <= List.length seen + List.length tweets)%nat.
Proof.
  induction tweets as [|t rest IH]; intros seen out H.
  - simpl in H. injection H as <-. simpl. lia.
  - cbn [account_set] in H. destruct (t !! "account"%string) as [a|]; [|discriminate].
    destruct (hashable a); [|discriminate].
    apply IH in H. cbn [List.length].
    destruct (existsb (fun b => py_eqb b a) seen); [lia|].
    rewrite length_app in H. simpl in H. lia.
Qed.

Lemma filter_length_le {A : Type} (f : A -> bool) (l : list A) :
  (List.length (List.filter f l) <= List.length l)%nat.
Proof.
  induction l as [|x l IH]; simpl; [lia|]. destruct (f x); simpl; lia.
Qed.

(** X17. The figures of the dashboard summary are consistent: the counts of
    [by_category] are all positive and add up to [total_events], and
    [breaking_count], [high_severity] and [accounts_monitored] are bounded by
    the number of events, of events and of tweets they are taken from. *)
Theorem get_stats_consistent (now : Z) (redis : gmap str redis_entry) (s : stats) :
  get_stats now redis = Ok s ->
  total_events s = List.length (get_all_events (py "event") now redis) /\
  total_tweets s = List.length (get_all_events (py "tweet") now redis) /\
  total_count (by_category s) = Z.of_nat (total_events s) /\
  Forall (fun kv => 1 <= snd kv) (by_category s) /\
  (breaking_count s <= total_events s)%nat /\
  (high_severity s <= total_events s)%nat /\
  (accounts_monitored s <= total_tweets s)%nat.
Proof.
  unfold get_stats. cbv zeta.
  destruct (categories_loop (get_all_events (py "event") now redis) []) as [cats|] eqn:Hc;
    [|discriminate].
  destruct (high_severity_sum (get_all_events (py "event") now redis)) as [high|] eqn:Hh;
    [|discriminate].
  destruct (match get_all_events (py "tweet") now redis with
            | [] => Ok []
            | _ :: _ => account_set (get_all_events (py "tweet") now redis) []
            end) as [accounts|] eqn:Ha; [|discriminate].
  intros [= <-]. cbn [total_events total_tweets by_category breaking_count high_severity
                       accounts_monitored].
  destruct (categories_loop_total _ _ _ Hc) as [Ht Hp].
  split; [reflexivity|]. split; [reflexivity|]. split; [exact Ht|].
  split; [apply Hp; constructor|]. split; [apply filter_length_le|].
  split; [apply high_severity_sum_le, Hh|].
  destruct (get_all_events (py "tweet") now redis) as [|t l] eqn:Htw.
  - injection Ha as <-. simpl. lia.
  - apply account_set_le in Ha. simpl in Ha. exact Ha.
Qed.

Lemma get_stats_consistent_witness :
  exists s,
    get_stats demo_now (demo_store demo_batch) = Ok s /\
    by_category s = [(JStr (py "disaster"), 1); (JStr (py "conflict"), 2);
                     (JStr (py "general"), 1)] /\
    total_count (by_category s) = Z.of_nat (total_events s).
Proof.
  eexists. split; [vm_compute; reflexivity|]. split; [reflexivity|].
  refine (proj1 (proj2 (proj2 (get_stats_consistent demo_now (demo_store demo_batch) _ _)))).
  vm_compute. reflexivity.
Defined.

(** ** RSS adapter: the events it builds, and their way to the query *)

Lemma classify_category_label {U : Unicode} (text : str) :
  In (classify_category text)
     [py "conflict"; py "disaster"; py "politics"; py "breaking"; py "general"].
Proof.
  rewrite classify_category_cascade.
  destruct (any_keyword (category_table "conflict") (str_lower text)); [simpl; tauto|].
  destruct (any_keyword (category_table "disaster") (str_lower text)); [simpl; tauto|].
  destruct (any_keyword (category_table "politics") (str_lower text)); [simpl; tauto|].
  destruct (any_keyword (category_table "breaking") (str_lower text)); simpl; tauto.
Qed.

Lemma classify_severity_range {U : Unicode} (text : str) :
  1 <= classify_severity text <= 5.
Proof.
  rewrite classify_severity_cascade.
  destruct (any_keyword (severity_table 5) (str_lower text)); [lia|].
  destruct (any_keyword (severity_table 4) (str_lower text)); [lia|].
  destruct (any_keyword (severity_table 3) (str_lower text)); [lia|].
  destruct (any_keyword (severity_table 2) (str_lower text)); lia.
Qed.

Section RssWellFormed.
Context {U : Unicode} {G : Geocoder}.

Lemma resolve_geo_literal (text : str) (hints calls : list str) :
  fst (resolve_geo text hints calls) = ∅ \/
  exists lat lon name code,
    fst (resolve_geo text hints calls) =
    {[ "lat"%string := JFloat lat; "lon"%string := JFloat lon;
       "location_name"%string := JStr name; "country_code"%string := JStr code ]}.
Proof.
  unfold resolve_geo. destruct (raw_coords text) as [[lat lon]|].
  - right. exists lat, lon, [], []. reflexivity.
  - apply geocode_first_shape.
Qed.

Lemma rss_event_well_formed (event_id title summary url source published_at full_text : str)
      (lat lon : float) (name code : str) :
  make_event_id url title = Some event_id ->
  (List.length summary <= 500)%nat ->
  well_formed_event (py "rss")
    (rss_event event_id title summary url source published_at full_text
       {[ "lat"%string := JFloat lat; "lon"%string := JFloat lon;
          "location_name"%string := JStr name; "country_code"%string := JStr code ]}).
Proof.
  intros Hid Hsum. unfold well_formed_event, rss_event.
  split; [|split; [|split; [|split; [|split; [|split; [|split]]]]]].
  - exists event_id. split; [rewrite lookup_union_r by reflexivity; reflexivity|].
    eapply make_event_id_shape, Hid.
  - rewrite lookup_union_r by reflexivity. reflexivity.
  - exists lat, lon. split; apply lookup_union_Some_l; reflexivity.
  - exists (classify_category full_text).
    split; [rewrite lookup_union_r by reflexivity; reflexivity|].
    apply classify_category_label.
  - exists (classify_topics full_text). rewrite lookup_union_r by reflexivity. reflexivity.
  - exists (classify_severity full_text).
    split; [rewrite lookup_union_r by reflexivity; reflexivity|].
    apply classify_severity_range.
  - exists (is_breaking full_text). rewrite lookup_union_r by reflexivity. reflexivity.
  - exists summary. split; [rewrite lookup_union_r by reflexivity; reflexivity | exact Hsum].
Qed.

Lemma rss_loop_well_formed (entries : list rss_entry) (source now_iso : str) :
  forall (events : list (gmap string json)) (calls : list str),
    Forall (well_formed_event (py "rss")) events ->
    Forall (well_formed_event (py "rss")) (fst (rss_loop entries source now_iso events calls)) /\
    (List.length (fst (rss_loop entries source now_iso events calls))
     <= List.length events + List.length entries)%nat.
Proof.
  induction entries as [|entry rest IH]; intros events calls Hev.
  - simpl. split; [exact Hev | lia].
  - cbn [rss_loop]. cbv zeta.
    pose proof (resolve_geo_literal
                  (entry_title entry ++ py " " ++
                   firstn 500 (strip_tags (List.length (entry_summary entry))
                                          (entry_summary entry))) [] calls) as Hgeo.
    destruct (resolve_geo _ [] calls) as [geo calls']. cbn [fst] in Hgeo.
    destruct (bool_decide (geo = ∅)) eqn:Hempty.
    { destruct (IH events calls' Hev) as [H1 H2]. split; [exact H1|]. cbn [List.length]. lia. }
    destruct Hgeo as [-> | [lat [lon [name [code ->]]]]];
      [apply bool_decide_eq_false in Hempty; contradiction|].
    destruct (make_event_id (entry_link entry) (entry_title entry)) as [event_id|] eqn:Hid.
    + match goal with
      | |- context [rss_loop rest source now_iso (events ++ [?x]) calls'] =>
          destruct (IH (events ++ [x]) calls') as [H1 H2]
      end.
      * apply Forall_app. split; [exact Hev|]. constructor; [|constructor].
        apply rss_event_well_formed; [exact Hid | apply firstn_le_length].
      * split; [exact H1|]. rewrite length_app in H2. cbn [List.length] in *. lia.
    + cbn [fst]. split; [exact Hev | lia].
Qed.

(** X18. Every event that [fetch_rss_feed] returns is complete and typed: an
    id of 16 hexadecimal characters, source type "rss", float coordinates
    (items without a place are skipped), one of the five category labels, a
    list of topic labels, a severity from 1 to 5, a boolean breaking flag and
    a summary of at most 500 characters; and a feed yields at most 20 events,
    none when the request or the parser raised. *)
Theorem fetch_rss_feed_well_formed (source now_iso : str) (parsed : option (list rss_entry))
        (calls : list str) :
  Forall (well_formed_event (py "rss")) (fst (fetch_rss_feed source now_iso parsed calls)) /\
  (List.length (fst (fetch_rss_feed source now_iso parsed calls)) <= 20)%nat /\
  (parsed = None -> fst (fetch_rss_feed source now_iso parsed calls) = []).
Proof.
  unfold fetch_rss_feed. destruct parsed as [entries|].
  - destruct (rss_loop_well_formed (firstn 20 entries) source now_iso [] calls
                                   (List.Forall_nil _)) as [H1 H2].
    split; [exact H1|]. split; [|discriminate].
    pose proof (firstn_le_length 20 entries) as Hle. cbn [List.length] in H2. lia.
  - split; [constructor|]. split; [simpl; lia | reflexivity].
Qed.

Lemma from_rss_feed_well_formed (e : gmap string json) :
  from_rss_feed e -> well_formed_event (py "rss") e.
Proof.
  intros [source [now_iso [parsed [calls Hin]]]].
  destruct (rss_loop_well_formed
              (match parsed with Some entries => firstn 20 entries | None => [] end)
              source now_iso [] calls (List.Forall_nil _)) as [H _].
  unfold fetch_rss_feed in Hin. destruct parsed as [entries|]; [|destruct Hin].
  exact (proj1 (List.Forall_forall _ _) H e Hin).
Qed.

End RssWellFormed.

Lemma well_formed_normalized (source_type : str) (e : gmap string json) :
  well_formed_event source_type e -> normalized_item e.
Proof.
  intros [_ [_ [_ [_ [Hts [[n [Hn _]] _]]]]]]. split; [exists n; exact Hn | exact Hts].
Qed.

Lemma well_formed_has_id (source_type : str) (e : gmap string json) :
  well_formed_event source_type e -> exists id, e !! "id"%string = Some (JStr id).
Proof. intros [[id [Hid _]] _]. exists id. exact Hid. Qed.

(** X19. From the feed to the map: a batch of events built by
    [fetch_rss_feed] is always stored by [run_rss_job] (no [KeyError]); and
    when the live events of the store were well typed before the job, they
    are so after it, and the events query then answers every request
    without raising. *)
Theorem rss_ingest_then_query {U : Unicode} {G : Geocoder} {D : DateTimeLib}
        (batch : list (gmap string json)) (now t : Z) (redis : gmap str redis_entry)
        (q : events_query) :
  Forall from_rss_feed batch ->
  Forall normalized_item (get_all_events (py "event") t redis) ->
  store_events batch (py "event") now redis = Ok (run_rss_job (Ok batch) now redis) /\
  Forall normalized_item (get_all_events (py "event") t (run_rss_job (Ok batch) now redis)) /\
  exists r, get_events q t (run_rss_job (Ok batch) now redis) = Ok r.
Proof.
  intros Hbatch Hold.
  assert (Hwf : Forall (well_formed_event (py "rss")) batch).
  { apply List.Forall_forall. intros e He. apply from_rss_feed_well_formed.
    exact (proj1 (List.Forall_forall _ _) Hbatch e He). }
  assert (Hids : Forall (fun e => exists id, e !! "id"%string = Some (JStr id)) batch).
  { apply List.Forall_forall. intros e He. eapply well_formed_has_id.
    exact (proj1 (List.Forall_forall _ _) Hwf e He). }
  destruct (pipeline_total batch (py "event") now redis Hids) as [redis' Hs].
  unfold run_rss_job, run_job. rewrite Hs. split; [reflexivity|].
  assert (Hnew : Forall normalized_item (get_all_events (py "event") t redis')).
  { apply List.Forall_forall. intros e He.
    apply get_all_events_In in He as [key [entry [Hl [Hp [Hlive <-]]]]].
    rewrite store_events_pipeline in Hs.
    destruct (pipeline_entries _ _ _ _ _ Hs _ _ Hl) as [Hpipe | [Hin _]].
    - apply (proj1 (List.Forall_forall _ _) Hold). apply get_all_events_In.
      exists key, entry. split; [exact Hpipe|]. split; [exact Hp|]. split; [exact Hlive|].
      reflexivity.
    - eapply well_formed_normalized. exact (proj1 (List.Forall_forall _ _) Hwf _ Hin). }
  split; [exact Hnew|].
  destruct (filter_loop_total q (t - hours q * 3600 * 1000000) _ Hnew []) as [out Hout].
  unfold get_events. cbv zeta. rewrite Hout. eexists. reflexivity.
Qed.

Lemma rss_ingest_then_query_witness :
  List.length demo_rss_events = 1%nat /\
  exists r,
    @get_events iso_datetime demo_query demo_now
      (run_rss_job (Ok demo_rss_events) (demo_now - 3600 * 1000000) ∅) = Ok r.
Proof.
  split; [vm_compute; reflexivity|].
  refine (proj2 (proj2 (@rss_ingest_then_query ascii_db demo_geocoder iso_datetime
                          demo_rss_events (demo_now - 3600 * 1000000) demo_now ∅
                          demo_query _ _))).
  - apply List.Forall_forall. intros e He.
    exists (py "BBC World"), (py "2026-11-04T12:00:00+00:00"), (Some [demo_entry]), [].
    exact He.
  - constructor.
Defined.

(** ** The events query on the store of the examples *)

Lemma demo_query_answer :
  exists r, @get_events iso_datetime demo_query demo_now (demo_store demo_batch) = Ok r.
Proof.
  destruct (filter_loop_total (D := iso_datetime) demo_query
              (demo_now - hours demo_query * 3600 * 1000000) _ demo_store_normalized [])
    as [out Hout].
  unfold get_events. cbv zeta. rewrite Hout. eexists. reflexivity.
Qed.

Lemma get_events_complete_witness :
  exists r,
    @get_events iso_datetime demo_query demo_now (demo_store demo_batch) = Ok r /\
    count r = 2%nat /\
    forall e, In e (get_all_events (py "event") demo_now (demo_store demo_batch)) ->
              @events_filter iso_datetime demo_query
                (demo_now - hours demo_query * 3600 * 1000000) e = Keep ->
              In e (events r).
Proof.
  destruct demo_query_answer as [r Hr]. exists r. split; [exact Hr|].
  destruct (@get_events_complete iso_datetime demo_query demo_now (demo_store demo_batch) r Hr)
    as [Hcount Hall].
  assert (H2 : count r = 2%nat) by (rewrite Hcount; vm_compute; reflexivity).
  split; [exact H2|]. apply Hall. rewrite H2. repeat constructor.
Defined.

Lemma get_events_newest_first_witness :
  exists r,
    @get_events iso_datetime demo_query demo_now (demo_store demo_batch) = Ok r /\
    newest_first (events r) /\
    List.length (events r) = Nat.min 500 (count r).
Proof.
  destruct demo_query_answer as [r Hr]. exists r. split; [exact Hr|].
  exact (@get_events_newest_first iso_datetime demo_query demo_now
           (demo_store demo_batch) r Hr).
Defined.

(** ** Tweets: hashtags and the dictionary of a tweet *)

Lemma span_le (p : N -> bool) (s : str) : (span p None s <= List.length s)%nat.
Proof.
  induction s as [|c s IH]; simpl; [lia|]. destruct (p c); simpl; lia.
Qed.

Lemma span_firstn (p : N -> bool) (s : str) :
  forallb p (firstn (span p None s) s) = true.
Proof.
  induction s as [|c s IH]; simpl; [reflexivity|].
  destruct (p c) eqn:Hc; simpl; [rewrite Hc, IH|]; reflexivity.
Qed.

Section TweetProperties.
Context {U : Unicode} {W : WordChars} {G : Geocoder}.

(** What a match of [#(\w+)] at the head of [s] captures. *)
Lemma hashtag_match (s : str) (m : list str) :
  re_match _HASHTAG s [] [] = Some m ->
  exists s', s = 35%N :: s' /\ (1 <= span is_word None s')%nat /\
             m = [firstn (span is_word None s') s'].
Proof.
  unfold _HASHTAG. cbn [re_match].
  destruct s as [|c s']; [discriminate|].
  destruct (N.eqb 35 c) eqn:Hc; [|discriminate]. apply N.eqb_eq in Hc. subst c.
  pose proof (span_le is_word s') as Hle.
  destruct (span is_word None s') as [|n] eqn:Hn; cbn [give_back].
  - simpl. discriminate.
  - replace (S n <? 1)%nat with false by (symmetry; apply Nat.ltb_ge; lia).
    rewrite length_skipn. cbn [app].
    replace (List.length s' - (List.length s' - S n))%nat with (S n) by lia.
    intros [= <-]. exists s'. rewrite Hn. split; [reflexivity|]. split; [lia | reflexivity].
Qed.

(** X20. The hashtags [_parse_tweet_text] passes to the geocoder as hints
    are the groups of [#(\w+)]: each is non-empty, made of word characters
    only, and occurs in the text right after a [#]. *)
Theorem hashtags_of_tweet (fuel : nat) :
  forall s,
    Forall (fun tag => tag <> [] /\ forallb is_word tag = true /\ occurs (35%N :: tag) s)
           (findall_hashtags fuel s).
Proof.
  induction fuel as [|fuel IH]; intros s; [constructor|].
  destruct s as [|c s']; [constructor|]. cbn [findall_hashtags].
  destruct (re_match _HASHTAG (c :: s') [] []) as [m|] eqn:Hm.
  - apply hashtag_match in Hm as [s0 [Hs [Hn ->]]]. injection Hs as -> ->.
    unfold group. cbn [Nat.sub nth].
    constructor.
    + split; [|split].
      * intros Hnil. apply (f_equal (@List.length N)) in Hnil.
        rewrite length_firstn in Hnil. pose proof (span_le is_word s0). simpl in Hnil. lia.
      * apply span_firstn.
      * exists [], (skipn (span is_word None s0) s0). cbn [app].
        rewrite firstn_skipn. reflexivity.
    + rewrite length_firstn.
      replace (Nat.min (span is_word None s0) (List.length s0)) with (span is_word None s0)
        by (pose proof (span_le is_word s0); lia).
      eapply Forall_impl; [apply IH|].
      intros tag [H1 [H2 [l [r Hocc]]]]. split; [exact H1|]. split; [exact H2|].
      exists (firstn (S (span is_word None s0)) (35%N :: s0) ++ l), r.
      rewrite <- app_assoc, <- Hocc. symmetry. apply firstn_skipn.
  - eapply Forall_impl; [apply IH|].
    intros tag [H1 [H2 [l [r Hocc]]]]. split; [exact H1|]. split; [exact H2|].
    exists (c :: l), r. rewrite Hocc. reflexivity.
Qed.

(** X21. The dictionary of a tweet.  [_parse_tweet_text] raises only when
    [_tweet_id] cannot encode the account and the first 80 characters of the
    text; otherwise the tweet has an id of 16 hexadecimal characters, its
    account, one of the five category labels, a list of topic labels, a
    severity from 1 to 5, and its coordinates are either both floats or both
    [None] -- in which case the location name is empty. *)
Theorem parse_tweet_text_well_formed (account text published_at : str)
        (media_urls : list str) (method : str) (calls : list str) :
  (fst (_parse_tweet_text account text published_at media_urls method calls) = None <->
   _tweet_id account text = None) /\
  forall t,
    fst (_parse_tweet_text account text published_at media_urls method calls) = Some t ->
    (exists id, t !! "id"%string = Some (JStr id) /\
                List.length id = 16%nat /\ forallb is_hex id = true) /\
    t !! "account"%string = Some (JStr account) /\
    t !! "published_at"%string = Some (JStr published_at) /\
    (exists cat, t !! "category"%string = Some (JStr cat) /\
                 In cat [py "conflict"; py "disaster"; py "politics"; py "breaking";
                         py "general"]) /\
    (exists ts, t !! "topics"%string = Some (JList (map JStr ts))) /\
    (exists n, t !! "severity"%string = Some (JInt n) /\ 1 <= n <= 5) /\
    ((t !! "lat"%string = Some JNull /\ t !! "lon"%string = Some JNull /\
      t !! "location_name"%string = Some (JStr [])) \/
     (exists lat lon name,
        t !! "lat"%string = Some (JFloat lat) /\ t !! "lon"%string = Some (JFloat lon) /\
        t !! "location_name"%string = Some (JStr name))).
Proof.
  unfold _parse_tweet_text. cbv zeta.
  pose proof (resolve_geo_literal text (findall_hashtags (List.length text) text) calls)
    as Hgeo.
  destruct (resolve_geo text (findall_hashtags (List.length text) text) calls)
    as [geo calls']. cbn [fst] in Hgeo |- *.
  destruct (_tweet_id account text) as [id|] eqn:Hid.
  - split; [split; discriminate|]. intros t [= <-].
    split; [exists id; split; [reflexivity | eapply _tweet_id_shape, Hid]|].
    split; [reflexivity|]. split; [reflexivity|].
    split; [exists (classify_category text); split;
            [reflexivity | apply classify_category_label]|].
    split; [exists (classify_topics text); reflexivity|].
    split; [exists (classify_severity text); split;
            [reflexivity | apply classify_severity_range]|].
    destruct Hgeo as [-> | [lat [lon [name [code ->]]]]].
    + left. repeat split; reflexivity.
    + right. exists lat, lon, name. repeat split; reflexivity.
  - split; [split; reflexivity|]. discriminate.
Qed.

End TweetProperties.

(** The hashtags of a text, in the order of the text; a [#] that no word
    character follows gives none. *)
Example findall_hashtags_example :
  (let text := py "Strike near #Kyiv # and #Lviv_oblast! #" in
   @findall_hashtags ascii_words (List.length text) text)
  = [py "Kyiv"; py "Lviv_oblast"].
Proof. vm_compute. reflexivity. Qed.

(** ** GDELT adapter *)

Section GdeltProperties.
Context {U : Unicode} {G : Geocoder} {SD : SeenDate}.

Lemma gdelt_geo_literal (full_text : str) (sourcecountry : option str) (calls : list str) :
  fst (gdelt_geo full_text sourcecountry calls) = ∅ \/
  exists lat lon name code,
    fst (gdelt_geo full_text sourcecountry calls) =
    {[ "lat"%string := JFloat lat; "lon"%string := JFloat lon;
       "location_name"%string := JStr name; "country_code"%string := JStr code ]}.
Proof.
  unfold gdelt_geo.
  pose proof (resolve_geo_literal full_text [] calls) as H1.
  destruct (resolve_geo full_text [] calls) as [geo calls']. cbn [fst] in H1.
  destruct (bool_decide (geo = ∅)) eqn:He; [|exact H1].
  destruct (default [] sourcecountry) as [|c country]; [exact H1|].
  apply resolve_geo_literal.
Qed.

(** The two attempts of [gdelt_geo], case by case. *)
Lemma gdelt_geo_fallback (full_text : str) (sourcecountry : option str)
        (calls : list str) :
  (fst (resolve_geo full_text [] calls) <> ∅ ->
   gdelt_geo full_text sourcecountry calls = resolve_geo full_text [] calls) /\
  (fst (resolve_geo full_text [] calls) = ∅ ->
   (sourcecountry = None \/ sourcecountry = Some []) ->
   gdelt_geo full_text sourcecountry calls = (∅, snd (resolve_geo full_text [] calls))) /\
  (fst (resolve_geo full_text [] calls) = ∅ ->
   forall country, sourcecountry = Some country -> country <> [] ->
   gdelt_geo full_text sourcecountry calls
   = resolve_geo country [] (snd (resolve_geo full_text [] calls))).
Proof.
  unfold gdelt_geo.
  destruct (resolve_geo full_text [] calls) as [geo calls']. cbn [fst snd].
  split; [|split].
  - intros Hne. rewrite bool_decide_eq_false_2 by exact Hne. reflexivity.
  - intros -> [-> | ->]; rewrite bool_decide_eq_true_2 by reflexivity; reflexivity.
  - intros -> country -> Hne. rewrite bool_decide_eq_true_2 by reflexivity.
    destruct country as [|c country]; [contradiction | reflexivity].
Qed.

Lemma gdelt_event_well_formed (event_id title summary url domain published_at full_text : str)
      (media_urls raw_tags : list str) (lat lon : float) (name code : str) :
  make_event_id url title = Some event_id ->
  (List.length summary <= 500)%nat ->
  well_formed_event (py "gdelt")
    (gdelt_event event_id title summary url domain published_at full_text media_urls raw_tags
       {[ "lat"%string := JFloat lat; "lon"%string := JFloat lon;
          "location_name"%string := JStr name; "country_code"%string := JStr code ]}).
Proof.
  intros Hid Hsum. unfold well_formed_event, gdelt_event.
  split; [|split; [|split; [|split; [|split; [|split; [|split]]]]]].
  - exists event_id. split; [rewrite lookup_union_r by reflexivity; reflexivity|].
    eapply make_event_id_shape, Hid.
  - rewrite lookup_union_r by reflexivity. reflexivity.
  - exists lat, lon. split; apply lookup_union_Some_l; reflexivity.
  - exists (classify_category full_text).
    split; [rewrite lookup_union_r by reflexivity; reflexivity|].
    apply classify_category_label.
  - exists (classify_topics full_text). rewrite lookup_union_r by reflexivity. reflexivity.
  - exists (classify_severity full_text).
    split; [rewrite lookup_union_r by reflexivity; reflexivity|].
    apply classify_severity_range.
  - exists (is_breaking full_text). rewrite lookup_union_r by reflexivity. reflexivity.
  - exists summary. split; [rewrite lookup_union_r by reflexivity; reflexivity | exact Hsum].
Qed.

Lemma gdelt_loop_well_formed (articles : list gdelt_article) (now_iso : str) :
  forall (events : list (gmap string json)) (calls : list str),
    Forall (well_formed_event (py "gdelt")) events ->
    Forall (well_formed_event (py "gdelt")) (fst (gdelt_loop articles now_iso events calls)) /\
    (List.length (fst (gdelt_loop articles now_iso events calls))
     <= List.length events + List.length articles)%nat.
Proof.
  induction articles as [|art rest IH]; intros events calls Hev.
  - simpl. split; [exact Hev | lia].
  - cbn [gdelt_loop]. cbv zeta.
    pose proof (gdelt_geo_literal
                  (default [] (art_title art) ++ py " " ++
                   default [] (art_seendescription art))
                  (art_sourcecountry art) calls) as Hgeo.
    destruct (gdelt_geo _ (art_sourcecountry art) calls) as [geo calls'].
    cbn [fst] in Hgeo.
    destruct (bool_decide (geo = ∅)) eqn:Hempty.
    { destruct (IH events calls' Hev) as [H1 H2]. split; [exact H1|]. cbn [List.length]. lia. }
    destruct Hgeo as [-> | [lat [lon [name [code ->]]]]];
      [apply bool_decide_eq_false in Hempty; contradiction|].
    destruct (make_event_id (default [] (art_url art)) (default [] (art_title art)))
      as [event_id|] eqn:Hid.
    + match goal with
      | |- context [gdelt_loop rest now_iso (events ++ [?x]) calls'] =>
          destruct (IH (events ++ [x]) calls') as [H1 H2]
      end.
      * apply Forall_app. split; [exact Hev|]. constructor; [|constructor].
        apply gdelt_event_well_formed; [exact Hid | apply firstn_le_length].
      * split; [exact H1|]. rewrite length_app in H2. cbn [List.length] in *. lia.
    + cbn [fst]. split; [exact Hev | lia].
Qed.

(** X23. Every event that [scrape_gdelt] returns is complete and typed like
    those of the feeds: an id of 16 hexadecimal characters, source type
    "gdelt", float coordinates, one of the five category labels, a list of
    topic labels, a severity from 1 to 5, a boolean breaking flag and a
    summary of at most 500 characters.  There is at most one event for each
    article, and none when the request or the decoding of the answer raised. *)
Theorem scrape_gdelt_well_formed (now_iso : str) (articles : option (list gdelt_article))
        (calls : list str) :
  Forall (well_formed_event (py "gdelt")) (fst (scrape_gdelt now_iso articles calls)) /\
  (List.length (fst (scrape_gdelt now_iso articles calls))
   <= List.length (default [] articles))%nat /\
  (articles = None -> fst (scrape_gdelt now_iso articles calls) = []).
Proof.
  unfold scrape_gdelt. destruct articles as [articles|].
  - destruct (gdelt_loop_well_formed articles now_iso [] calls (List.Forall_nil _))
      as [H1 H2].
    split; [exact H1|]. split; [exact H2 | discriminate].
  - split; [constructor|]. split; [simpl; lia | reflexivity].
Qed.

End GdeltProperties.

(** An article whose text names no place is located by its country. *)
Example scrape_gdelt_sourcecountry :
  map (fun e => (e !! "location_name"%string, e !! "published_at"%string,
                 e !! "raw_tags"%string))
      (fst (@scrape_gdelt ascii_db demo_geocoder demo_seendate
              (py "2026-11-04T12:00:00") (Some [demo_article]) []))
  = [(Some (JStr (py "Kyiv")), Some (JStr (py "2026-11-04T11:00:00")),
      Some (JList [JStr (py "PROTEST"); JStr (py "UNREST")]))].
Proof. vm_compute. reflexivity. Qed.

(** ** RSS adapter: the cleaning of the summary *)

Lemma close_tag_absent (seen : bool) (s : str) : ~ In 62%N s -> close_tag seen s = None.
Proof.
  revert seen. induction s as [|c s IH]; intros seen Hno; [reflexivity|].
  simpl. destruct (N.eqb_spec c 62) as [-> | Hne].
  - exfalso. apply Hno. left. reflexivity.
  - apply IH. intros H. apply Hno. right. exact H.
Qed.

Lemma close_tag_seen_None (s : str) : close_tag true s = None -> ~ In 62%N s.
Proof.
  induction s as [|c s IH]; simpl; [intros _ []|].
  destruct (N.eqb_spec c 62) as [-> | Hne]; [discriminate|].
  intros H [Hc | Hin]; [congruence | exact (IH H Hin)].
Qed.

Lemma close_tag_None (s : str) :
  close_tag false s = None <-> s = [] \/ (exists s', s = 62%N :: s') \/ ~ In 62%N s.
Proof.
  split.
  - destruct s as [|c s]; [left; reflexivity|]. simpl.
    destruct (N.eqb_spec c 62) as [-> | Hne].
    + intros _. right. left. exists s. reflexivity.
    + intros H. right. right. intros [Hc | Hin]; [congruence|].
      exact (close_tag_seen_None s H Hin).
  - intros [-> | [[s' ->] | Hno]]; [reflexivity | reflexivity | apply close_tag_absent, Hno].
Qed.

Lemma close_tag_Some (seen : bool) (s rest : str) :
  close_tag seen s = Some rest ->
  (List.length rest < List.length s)%nat /\ forall x, In x rest -> In x s.
Proof.
  revert seen. induction s as [|c s IH]; intros seen; simpl; [discriminate|].
  destruct (N.eqb c 62).
  - destruct seen; [|discriminate]. intros [= <-]. split; [lia | intros x Hx; right; exact Hx].
  - intros H. destruct (IH _ H) as [Hlen Hin]. split; [lia | intros x Hx; right; auto].
Qed.

Lemma close_tag_body (body r : str) (seen : bool) :
  ~ In 62%N body ->
  close_tag seen (body ++ 62%N :: r) =
  if seen || match body with [] => false | _ => true end then Some r else None.
Proof.
  revert seen. induction body as [|c body IH]; intros seen Hno.
  - simpl. rewrite orb_false_r. reflexivity.
  - cbn [app close_tag]. destruct (N.eqb_spec c 62) as [-> | Hne].
    + exfalso. apply Hno. left. reflexivity.
    + rewrite IH by (intros H; apply Hno; right; exact H).
      rewrite orb_true_r. reflexivity.
Qed.

Lemma strip_tags_In (fuel : nat) :
  forall s x, In x (strip_tags fuel s) -> In x s.
Proof.
  induction fuel as [|fuel IH]; intros s x; [destruct s; simpl; auto|].
  destruct s as [|c s]; [simpl; auto|]. cbn [strip_tags].
  destruct (N.eqb c 60).
  - destruct (close_tag false s) as [rest|] eqn:Hc.
    + intros H. right. apply (proj2 (close_tag_Some _ _ _ Hc)), IH, H.
    + intros [-> | H]; [left; reflexivity | right; apply IH, H].
  - intros [-> | H]; [left; reflexivity | right; apply IH, H].
Qed.

Lemma strip_tags_length (fuel : nat) :
  forall s, (List.length (strip_tags fuel s) <= List.length s)%nat.
Proof.
  induction fuel as [|fuel IH]; intros s; [destruct s; simpl; lia|].
  destruct s as [|c s]; [simpl; lia|]. cbn [strip_tags].
  destruct (N.eqb c 60).
  - destruct (close_tag false s) as [rest|] eqn:Hc.
    + pose proof (proj1 (close_tag_Some _ _ _ Hc)). specialize (IH rest). simpl. lia.
    + specialize (IH s). simpl. lia.
  - specialize (IH s). simpl. lia.
Qed.

Lemma strip_tags_keeps_None (fuel : nat) (s : str) :
  close_tag false s = None -> close_tag false (strip_tags fuel s) = None.
Proof.
  intros H. apply close_tag_None in H as [-> | [[s' ->] | Hno]].
  - destruct fuel; reflexivity.
  - destruct fuel; reflexivity.
  - apply close_tag_absent. intros Hin. apply Hno. eapply strip_tags_In, Hin.
Qed.

Lemma strip_tags_open (fuel : nat) :
  forall s, (List.length s <= fuel)%nat ->
            forall l r, strip_tags fuel s = l ++ 60%N :: r -> close_tag false r = None.
Proof.
  induction fuel as [|fuel IH]; intros s Hlen l r.
  - destruct s; [|simpl in Hlen; lia]. simpl. destruct l; discriminate.
  - destruct s as [|c s]; [simpl; destruct l; discriminate|].
    cbn [List.length] in Hlen. cbn [strip_tags].
    destruct (N.eqb_spec c 60) as [-> | Hne].
    + destruct (close_tag false s) as [rest|] eqn:Hc.
      * apply IH. pose proof (proj1 (close_tag_Some _ _ _ Hc)). lia.
      * destruct l as [|x l]; cbn [app].
        -- intros [= <-]. apply strip_tags_keeps_None, Hc.
        -- intros [= _ H]. apply (IH s ltac:(lia) l r H).
    + destruct l as [|x l]; cbn [app].
      * intros [= Hc _]. congruence.
      * intros [= _ H]. apply (IH s ltac:(lia) l r H).
Qed.

(** X24. The cleaning of a summary, [re.sub(r'<[^>]+>', '', s)[:500]],
    leaves no tag: no prefix of the cleaned text contains a [<], one or more
    characters other than [>], and a [>].  Cleaning only removes characters
    (the result is not longer and holds no new character), and a text without
    [<] is returned as it is. *)
Theorem strip_tags_no_tag (s : str) (k : nat) :
  (forall l t r, html_tag t -> firstn k (strip_tags (List.length s) s) <> l ++ t ++ r) /\
  (List.length (strip_tags (List.length s) s) <= List.length s)%nat /\
  (forall x, In x (strip_tags (List.length s) s) -> In x s) /\
  (~ In 60%N s -> strip_tags (List.length s) s = s).
Proof.
  split; [|split; [apply strip_tags_length|split; [apply strip_tags_In|]]].
  - intros l t r [body [-> [Hne Hno]]] Heq.
    pose proof (firstn_skipn k (strip_tags (List.length s) s)) as Hsplit.
    rewrite Heq in Hsplit. cbn [app] in Hsplit. rewrite <- !app_assoc in Hsplit.
    cbn [app] in Hsplit. symmetry in Hsplit.
    apply (strip_tags_open (List.length s) s (le_n _)) in Hsplit.
    rewrite <- app_assoc in Hsplit. cbn [app] in Hsplit.
    rewrite close_tag_body in Hsplit by exact Hno.
    destruct body; [contradiction | discriminate].
  - generalize (List.length s) as fuel. intros fuel. revert s.
    induction fuel as [|fuel IH]; intros s Hno; [destruct s; reflexivity|].
    destruct s as [|c s]; [reflexivity|]. cbn [strip_tags].
    destruct (N.eqb_spec c 60) as [-> | Hne]; [exfalso; apply Hno; left; reflexivity|].
    rewrite IH by (intros H; apply Hno; right; exact H). reflexivity.
Qed.

(** Tags are removed; an empty [<>] and a [<] that no [>] follows are text,
    but a comparison such as [a < b and c > d] loses its middle. *)
Example strip_tags_example :
  (let s := py "<p>Magnitude <b>7.1</b></p> <> depth < 10 km" in
   strip_tags (List.length s) s) = py "Magnitude 7.1 <> depth < 10 km" /\
  (let s := py "a < b and c > d" in strip_tags (List.length s) s) = py "a  d".
Proof. split; vm_compute; reflexivity. Qed.

(** ** The list of monitored accounts *)

Lemma py_eqb_str_r (x : json) (a : str) : py_eqb x (JStr a) = true <-> x = JStr a.
Proof.
  destruct x; simpl; split; try discriminate; try (intros [= <-]).
  - unfold str_eqb. intros H. apply bool_decide_eq_true in H. subst. reflexivity.
  - unfold str_eqb. apply bool_decide_eq_true. reflexivity.
Qed.

Lemma py_eqb_str_l (x : json) (a : str) : py_eqb (JStr a) x = true <-> x = JStr a.
Proof.
  destruct x; simpl; split; try discriminate; try (intros [= <-]).
  - unfold str_eqb. intros H. apply bool_decide_eq_true in H. subst. reflexivity.
  - unfold str_eqb. apply bool_decide_eq_true. reflexivity.
Qed.

Lemma dict_incr_count (k : json) (a : str) (d : list (json * Z)) :
  dict_get_count (dict_incr k d) (JStr a)
  = dict_get_count d (JStr a) + (if py_eqb k (JStr a) then 1 else 0).
Proof.
  unfold dict_get_count. induction d as [|[k' n] d IH].
  - simpl. destruct (py_eqb k (JStr a)); reflexivity.
  - cbn [dict_incr]. destruct (py_eqb k' k) eqn:Hk.
    + cbn [List.find fst snd].
      destruct (py_eqb k' (JStr a)) eqn:Ha.
      * apply py_eqb_str_r in Ha. subst k'. apply py_eqb_str_l in Hk. subst k.
        rewrite (proj2 (py_eqb_str_r _ _) eq_refl). reflexivity.
      * destruct (py_eqb k (JStr a)) eqn:Hka; [|lia].
        apply py_eqb_str_r in Hka. subst k.
        rewrite (proj2 (py_eqb_str_r k' a)) in Ha; [discriminate|].
        destruct k'; simpl in Hk; try discriminate.
        unfold str_eqb in Hk. apply bool_decide_eq_true in Hk. subst. reflexivity.
    + cbn [List.find fst snd].
      destruct (py_eqb k' (JStr a)) eqn:Ha.
      * apply py_eqb_str_r in Ha. subst k'.
        destruct (py_eqb k (JStr a)) eqn:Hka; [|lia].
        apply py_eqb_str_r in Hka. subst k.
        rewrite (proj2 (py_eqb_str_r _ _) eq_refl) in Hk. discriminate.
      * exact IH.
Qed.

Lemma account_counts_loop_count (a : str) (tweets : list (gmap string json)) :
  forall d out,
    account_counts_loop tweets d = Ok out ->
    dict_get_count out (JStr a)
    = dict_get_count d (JStr a) + Z.of_nat (List.length (tweets_of a tweets)).
Proof.
  induction tweets as [|t rest IH]; intros d out H.
  - simpl in H. injection H as <-. simpl. lia.
  - cbn [account_counts_loop] in H. cbv zeta in H.
    destruct (hashable (dict_get_or t "account" (JStr []))); [|discriminate].
    rewrite (IH _ _ H), dict_incr_count. unfold tweets_of. cbn [List.filter].
    unfold dict_get_or.
    destruct (t !! "account"%string) as [[| | | |a'| |]|]; simpl;
      try lia; unfold str_eqb;
      destruct (bool_decide _); cbn [List.length]; lia.
Qed.

(** X25. The list of monitored accounts has one row for each configured
    account, in the order of the configuration; the [tweet_count] of a row is
    the number of live stored tweets whose [account] is that handle, so an
    account without tweets has 0 and tweets of other accounts are counted
    nowhere. *)
Theorem get_accounts_counts (OSINT_ACCOUNTS : list str) (now : Z)
        (redis : gmap str redis_entry) (rows : list (str * Z)) :
  get_accounts OSINT_ACCOUNTS now redis = Ok rows ->
  rows = map (fun acc => (acc, Z.of_nat (List.length
                                           (tweets_of acc (get_all_tweets now redis)))))
             OSINT_ACCOUNTS.
Proof.
  unfold get_accounts. cbv zeta.
  destruct (account_counts_loop (get_all_tweets now redis) []) as [d|] eqn:Hd; [|discriminate].
  intros [= <-]. apply map_ext. intros acc.
  rewrite (account_counts_loop_count acc _ _ _ Hd). reflexivity.
Qed.

Lemma get_accounts_counts_witness :
  get_accounts [py "sentdefender"; py "IntelCrab"] demo_now
               (run_twitter_job (Ok [demo_tweet]) (demo_now - 3600 * 1000000) ∅)
  = Ok [(py "sentdefender", 1); (py "IntelCrab", 0)] /\
  [(py "sentdefender", 1); (py "IntelCrab", 0)]
  = map (fun acc =>
           (acc, Z.of_nat (List.length
                             (tweets_of acc
                                (get_all_tweets demo_now
                                   (run_twitter_job (Ok [demo_tweet])
                                                    (demo_now - 3600 * 1000000) ∅))))))
        [py "sentdefender"; py "IntelCrab"].
Proof.
  assert (H : get_accounts [py "sentdefender"; py "IntelCrab"] demo_now
                (run_twitter_job (Ok [demo_tweet]) (demo_now - 3600 * 1000000) ∅)
              = Ok [(py "sentdefender", 1); (py "IntelCrab", 0)])
    by (vm_compute; reflexivity).
  split; [exact H|].
  exact (get_accounts_counts _ _ _ _ H).
Defined.

(** ** GDELT adapter: the place of an article *)

Section GdeltArticle.
Context {U : Unicode} {G : Geocoder} {SD : SeenDate}.

(** X22. The place of a GDELT article.  The text of the article is resolved
    first, and when it resolves the geocoder is not asked about the country;
    [sourcecountry] is resolved only when the text gave nothing and the
    article has a non-empty [sourcecountry].  An answer of one article yields
    no event exactly when both attempts fail or the id cannot be computed;
    otherwise the event carries the coordinates and the location name of the
    attempt that succeeded. *)
Theorem gdelt_article_place (art : gdelt_article) (now_iso : str) (calls : list str) :
  (fst (resolve_geo (article_text art) [] calls) <> ∅ ->
   gdelt_geo (article_text art) (art_sourcecountry art) calls
   = resolve_geo (article_text art) [] calls) /\
  (fst (resolve_geo (article_text art) [] calls) = ∅ ->
   (art_sourcecountry art = None \/ art_sourcecountry art = Some []) ->
   gdelt_geo (article_text art) (art_sourcecountry art) calls
   = (∅, snd (resolve_geo (article_text art) [] calls))) /\
  (fst (resolve_geo (article_text art) [] calls) = ∅ ->
   forall country, art_sourcecountry art = Some country -> country <> [] ->
   gdelt_geo (article_text art) (art_sourcecountry art) calls
   = resolve_geo country [] (snd (resolve_geo (article_text art) [] calls))) /\
  snd (scrape_gdelt now_iso (Some [art]) calls)
  = snd (gdelt_geo (article_text art) (art_sourcecountry art) calls) /\
  (fst (scrape_gdelt now_iso (Some [art]) calls) = [] <->
   fst (gdelt_geo (article_text art) (art_sourcecountry art) calls) = ∅ \/
   make_event_id (default [] (art_url art)) (default [] (art_title art)) = None) /\
  (forall e, In e (fst (scrape_gdelt now_iso (Some [art]) calls)) ->
     e !! "lat"%string
     = fst (gdelt_geo (article_text art) (art_sourcecountry art) calls) !! "lat"%string /\
     e !! "lon"%string
     = fst (gdelt_geo (article_text art) (art_sourcecountry art) calls) !! "lon"%string /\
     e !! "location_name"%string
     = fst (gdelt_geo (article_text art) (art_sourcecountry art) calls)
         !! "location_name"%string).
Proof.
  destruct (gdelt_geo_fallback (article_text art) (art_sourcecountry art) calls)
    as [H1 [H2 H3]].
  split; [exact H1|]. split; [exact H2|]. split; [exact H3|].
  unfold scrape_gdelt. cbn [gdelt_loop]. cbv zeta.
  change (default [] (art_title art) ++ py " " ++ default [] (art_seendescription art))
    with (article_text art).
  pose proof (gdelt_geo_literal (article_text art) (art_sourcecountry art) calls) as Hgeo.
  destruct (gdelt_geo (article_text art) (art_sourcecountry art) calls) as [geo calls'].
  cbn [fst snd] in *.
  destruct Hgeo as [-> | [lat [lon [name [code ->]]]]].
  - rewrite bool_decide_eq_true_2 by reflexivity. cbn [fst snd].
    split; [reflexivity|]. split; [split; [left; reflexivity | reflexivity]|].
    intros e [].
  - rewrite bool_decide_eq_false_2
      by (intros H; apply (f_equal (fun m => m !! "lat"%string)) in H; discriminate H).
    destruct (make_event_id (default [] (art_url art)) (default [] (art_title art)))
      as [event_id|]; cbn [fst snd app].
    + split; [reflexivity|]. split.
      * split; [discriminate | intros [H | H]; [|discriminate]].
        apply (f_equal (fun m => m !! "lat"%string)) in H. discriminate H.
      * intros e [<- | []]. unfold gdelt_event.
        repeat split; apply lookup_union_Some_l; reflexivity.
    + split; [reflexivity|]. split; [split; [right; reflexivity | reflexivity]|].
      intros e [].
Qed.

End GdeltArticle.
